(** * omarchy-cybex TUI installer: selection, execution and persisted state

    A shallow embedding of the Python sources under [tui/]:
    - [tui/utils/state.py]      the durable installed-set file,
    - [tui/utils/installer.py]  command construction and the child process,
    - [tui/data/options.py]     the catalogue of options,
    - [tui/widgets/option_list.py]  the option items and their list,
    - [tui/widgets/header_banner.py]  the banner text,
    - [tui/screens/install_modal.py]  the modal that runs one installation,
    - [tui/screens/main_screen.py]    the screen that binds them.

    Python [str] values are sequences of code points, files are sequences of
    bytes, exceptions are values of an error type, and the state file and the
    widgets are threaded explicitly through every function.  The functions of
    the interpreter and of its [json] module that the sources call
    ([Path.read_text], [Path.write_text], [json.loads], [json.dumps]) are
    written out as executable definitions that follow CPython's behaviour;
    a child process is what [asyncio] makes of it: a start that fails, or
    the lines that [readline] returns and then the exit code or the error
    of a line beyond the reader's limit;
    JSON numbers are outside the model: a text that holds one is reported
    as [NumberLiteral] and no statement is made about it.

    The definitions come first, one module per source file; the facts and
    the claims [C1]-[C10] follow, and then further properties of the same
    functions. *)

From Stdlib Require Import List NArith ZArith Bool String Ascii Lia.
From Stdlib Require Strings.Byte DecimalString.
Import ListNotations.

Local Open Scope N_scope.
Local Open Scope list_scope.

(* ===================================================================== *)
(** * Python strings, bytes and exceptions                                *)
(* ===================================================================== *)

Module Py.

(** A Python [str]: a sequence of Unicode code points. *)
Definition pystr := list N.

(** The [str] written as an ASCII literal in the sources. *)
Definition lit (s : string) : pystr :=
  List.map N_of_ascii (list_ascii_of_string s).

Definition str_eqb (a b : pystr) : bool :=
  if list_eq_dec N.eq_dec a b then true else false.

(** [sep.join(xs)]. *)
Fixpoint join (sep : pystr) (xs : list pystr) : pystr :=
  match xs with
  | [] => []
  | [x] => x
  | x :: rest => x ++ sep ++ join sep rest
  end.

Fixpoint is_prefix (p s : pystr) : bool :=
  match p, s with
  | [], _ => true
  | a :: p', b :: s' => (a =? b) && is_prefix p' s'
  | _ :: _, [] => false
  end.

(** [p in s] for two strings: [p] occurs as a substring of [s]. *)
Fixpoint substring (p s : pystr) : bool :=
  is_prefix p s ||
  match s with
  | [] => false
  | _ :: s' => substring p s'
  end.

(** A Python [dict] with [str] keys.  It keeps its keys in insertion order, so
    it is an association list. *)
Definition dict (V : Type) := list (pystr * V).

(** [d.get(k)], [None] when [k not in d]. *)
Fixpoint dict_get {V} (k : pystr) (d : dict V) : option V :=
  match d with
  | [] => None
  | (k', v) :: r => if str_eqb k k' then Some v else dict_get k r
  end.

(** [d[k] = v]: an existing key keeps its place, a new one goes last. *)
Fixpoint dict_set {V} (k : pystr) (v : V) (d : dict V) : dict V :=
  match d with
  | [] => [(k, v)]
  | (k', v') :: r =>
    if str_eqb k k' then (k', v) :: r else (k', v') :: dict_set k v r
  end.

Definition dict_has {V} (k : pystr) (d : dict V) : bool :=
  match dict_get k d with
  | Some _ => true
  | None => false
  end.

(** The exceptions that the modelled code can raise; [IOError] is the
    interpreter's [OSError]; it and [ValueError] carry their message, which
    the modal prints.  [NumberLiteral] is not a Python exception: it marks
    a JSON text that holds a number, which this development does not
    interpret (the installer never writes one). *)
Inductive exn :=
| UnicodeDecodeError
| UnicodeEncodeError
| JSONDecodeError
| IOError (msg : pystr)
| AttributeError
| TypeError
| ValueError (msg : pystr)
| KeyError
| NumberLiteral.

Inductive result (A : Type) :=
| Ok (a : A)
| Raise (e : exn).
Arguments Ok {A} a.
Arguments Raise {A} e.

(** ** UTF-8, the encoding [read_text] and [write_text] use *)

Definition is_cont (b : N) : bool := (0x80 <=? b) && (b <=? 0xBF).

(** Strict decoding: overlong forms, encoded surrogates and values above
    U+10FFFF are rejected, as [bytes.decode('utf-8')] does. *)
Fixpoint utf8_decode (bs : list N) : option pystr :=
  match bs with
  | [] => Some []
  | b0 :: r =>
    if b0 <? 0x80 then option_map (cons b0) (utf8_decode r)
    else if (0xC2 <=? b0) && (b0 <=? 0xDF) then
      match r with
      | b1 :: r1 =>
        if is_cont b1
        then option_map (cons ((b0 - 0xC0) * 64 + (b1 - 0x80))) (utf8_decode r1)
        else None
      | _ => None
      end
    else if (0xE0 <=? b0) && (b0 <=? 0xEF) then
      match r with
      | b1 :: b2 :: r2 =>
        if is_cont b1 && is_cont b2
           && negb ((b0 =? 0xE0) && (b1 <? 0xA0))
           && negb ((b0 =? 0xED) && (0xA0 <=? b1))
        then option_map
               (cons ((b0 - 0xE0) * 4096 + (b1 - 0x80) * 64 + (b2 - 0x80)))
               (utf8_decode r2)
        else None
      | _ => None
      end
    else if (0xF0 <=? b0) && (b0 <=? 0xF4) then
      match r with
      | b1 :: b2 :: b3 :: r3 =>
        if is_cont b1 && is_cont b2 && is_cont b3
           && negb ((b0 =? 0xF0) && (b1 <? 0x90))
           && negb ((b0 =? 0xF4) && (0x90 <=? b1))
        then option_map
               (cons ((b0 - 0xF0) * 262144 + (b1 - 0x80) * 4096
                      + (b2 - 0x80) * 64 + (b3 - 0x80)))
               (utf8_decode r3)
        else None
      | _ => None
      end
    else None
  end.

Definition is_surrogate (c : N) : bool := (0xD800 <=? c) && (c <=? 0xDFFF).

(** The bytes of one code point, or [None] where the codec raises. *)
Definition utf8_encode_cp (c : N) : option (list N) :=
  if c <? 0x80 then Some [c]
  else if c <? 0x800 then Some [0xC0 + c / 64; 0x80 + c mod 64]
  else if is_surrogate c then None
  else if c <? 0x10000 then
    Some [0xE0 + c / 4096; 0x80 + (c / 64) mod 64; 0x80 + c mod 64]
  else if c <? 0x110000 then
    Some [0xF0 + c / 262144; 0x80 + (c / 4096) mod 64;
          0x80 + (c / 64) mod 64; 0x80 + c mod 64]
  else None.

Fixpoint utf8_encode (s : pystr) : option (list N) :=
  match s with
  | [] => Some []
  | c :: r =>
    match utf8_encode_cp c, utf8_encode r with
    | Some bs, Some rest => Some (bs ++ rest)
    | _, _ => None
    end
  end.

Fixpoint bytes_of_N (ns : list N) : option (list Byte.byte) :=
  match ns with
  | [] => Some []
  | n :: r =>
    match Byte.of_N n, bytes_of_N r with
    | Some b, Some bs => Some (b :: bs)
    | _, _ => None
    end
  end.

(** [bytes.decode()] and [str.encode()] with the default strict handler. *)
Definition decode (bs : list Byte.byte) : result pystr :=
  match utf8_decode (List.map Byte.to_N bs) with
  | Some s => Ok s
  | None => Raise UnicodeDecodeError
  end.

Definition encode (s : pystr) : result (list Byte.byte) :=
  match utf8_encode s with
  | Some ns =>
    match bytes_of_N ns with
    | Some bs => Ok bs
    | None => Raise UnicodeEncodeError
    end
  | None => Raise UnicodeEncodeError
  end.

(** A text that holds ASCII characters only. *)
Definition ascii_text (s : pystr) : Prop := Forall (fun c => c < 128) s.

End Py.


(* ===================================================================== *)
(** * The [json] module: values, [dumps(obj, indent=2)] and [loads]       *)
(* ===================================================================== *)

Module Json.
Import Py.

(** What [json.loads] builds, numbers apart. *)
#[local] Unset Elimination Schemes.
Inductive json :=
| JNull
| JBool (b : bool)
| JStr (s : pystr)
| JList (l : list json)
| JDict (d : list (pystr * json)).
#[local] Set Elimination Schemes.

Definition jdict := dict json.

(** Induction over a value and the values it holds. *)
Section Induction.
Variable P : json -> Prop.
Hypothesis Hnull : P JNull.
Hypothesis Hbool : forall b, P (JBool b).
Hypothesis Hstr : forall s, P (JStr s).
Hypothesis Hlist : forall l, Forall P l -> P (JList l).
Hypothesis Hdict : forall d, Forall (fun kv => P (snd kv)) d -> P (JDict d).

Fixpoint json_ind (v : json) : P v :=
  match v with
  | JNull => Hnull
  | JBool b => Hbool b
  | JStr s => Hstr s
  | JList l =>
    Hlist l
      ((fix all (l : list json) : Forall P l :=
          match l with
          | [] => Forall_nil P
          | x :: r => Forall_cons x (json_ind x) (all r)
          end) l)
  | JDict d =>
    Hdict d
      ((fix all (d : jdict) : Forall (fun kv => P (snd kv)) d :=
          match d with
          | [] => Forall_nil _
          | kv :: r => Forall_cons kv (json_ind (snd kv)) (all r)
          end) d)
  end.
End Induction.

Fixpoint json_eqb (a b : json) {struct a} : bool :=
  match a, b with
  | JNull, JNull => true
  | JBool x, JBool y => Bool.eqb x y
  | JStr x, JStr y => str_eqb x y
  | JList xs, JList ys =>
    (fix go (xs ys : list json) {struct xs} : bool :=
       match xs, ys with
       | [], [] => true
       | x :: xs', y :: ys' => json_eqb x y && go xs' ys'
       | _, _ => false
       end) xs ys
  | JDict xs, JDict ys =>
    (fix go (xs ys : jdict) {struct xs} : bool :=
       match xs, ys with
       | [], [] => true
       | (k, x) :: xs', (k', y) :: ys' =>
         str_eqb k k' && json_eqb x y && go xs' ys'
       | _, _ => false
       end) xs ys
  | _, _ => false
  end.

(** ** Serialisation: [json.dumps(obj, indent=2)] with [ensure_ascii] *)

Definition hexdigit (n : N) : N := if n <? 10 then 48 + n else 87 + n.

(** ['{0:04x}'.format(v)] *)
Definition hex4 (v : N) : pystr :=
  [hexdigit ((v / 4096) mod 16); hexdigit ((v / 256) mod 16);
   hexdigit ((v / 16) mod 16); hexdigit (v mod 16)].

(** The replacement of one character in [encode_basestring_ascii]. *)
Definition escape_char (c : N) : pystr :=
  if c =? 34 then [92; 34]
  else if c =? 92 then [92; 92]
  else if c =? 10 then [92; 110]
  else if c =? 13 then [92; 114]
  else if c =? 9 then [92; 116]
  else if c =? 12 then [92; 102]
  else if c =? 8 then [92; 98]
  else if (32 <=? c) && (c <=? 126) then [c]
  else if c <? 0x10000 then 92 :: 117 :: hex4 c
  else
    let v := c - 0x10000 in
    92 :: 117 :: hex4 (0xD800 + (v / 1024) mod 1024)
       ++ 92 :: 117 :: hex4 (0xDC00 + v mod 1024).

Definition encode_basestring_ascii (s : pystr) : pystr :=
  34 :: flat_map escape_char s ++ [34].

(** A line break followed by [indent * level] spaces. *)
Definition newline_indent (level : nat) : pystr :=
  10 :: repeat 32 (2 * level)%nat.

Fixpoint dumps_at (level : nat) (v : json) : pystr :=
  match v with
  | JNull => lit "null"
  | JBool true => lit "true"
  | JBool false => lit "false"
  | JStr s => encode_basestring_ascii s
  | JList [] => lit "[]"
  | JList (x :: xs) =>
    91 :: newline_indent (S level) ++ dumps_at (S level) x
       ++ flat_map
            (fun y => 44 :: newline_indent (S level) ++ dumps_at (S level) y)
            xs
       ++ newline_indent level ++ [93]
  | JDict [] => lit "{}"
  | JDict ((k, x) :: xs) =>
    123 :: newline_indent (S level)
        ++ encode_basestring_ascii k ++ [58; 32] ++ dumps_at (S level) x
        ++ flat_map
             (fun kv =>
                44 :: newline_indent (S level)
                   ++ encode_basestring_ascii (fst kv) ++ [58; 32]
                   ++ dumps_at (S level) (snd kv))
             xs
        ++ newline_indent level ++ [125]
  end.

Definition dumps (v : json) : pystr := dumps_at 0 v.

(** ** Parsing: [json.loads]

    The decoder is written as a machine that reads one character at a time;
    a container being read is a frame on a stack. *)

Inductive frame :=
| FList (done : list json)
| FDict (done : jdict) (key : pystr).

(** What the string being read is: a value, or the key of an object. *)
Inductive strctx :=
| SValue (stk : list frame)
| SKey (done : jdict) (stk : list frame).

Inductive lit_result :=
| LValue (v : json)
| LNumber.

Inductive mode :=
| MValue (stk : list frame)
| MListStart (stk : list frame)
| MDictStart (stk : list frame)
| MKey (done : jdict) (stk : list frame)
| MColon (done : jdict) (key : pystr) (stk : list frame)
| MAfter (v : json) (stk : list frame)
| MLit (rest : pystr) (r : lit_result) (stk : list frame)
| MMinus (stk : list frame)
| MStr (acc : pystr) (pend : option N) (k : strctx)
| MEsc (acc : pystr) (k : strctx)
| MEscHigh (acc : pystr) (hi : N) (k : strctx)
| MHex (acc : pystr) (pend : option N) (n : nat) (val : N) (k : strctx).

Inductive step_result :=
| Next (m : mode)
| Stop (e : exn).

Definition is_ws (c : N) : bool :=
  (c =? 32) || (c =? 9) || (c =? 10) || (c =? 13).

Definition is_digit (c : N) : bool := (48 <=? c) && (c <=? 57).

Definition hexval (c : N) : option N :=
  if (48 <=? c) && (c <=? 57) then Some (c - 48)
  else if (97 <=? c) && (c <=? 102) then Some (c - 87)
  else if (65 <=? c) && (c <=? 70) then Some (c - 55)
  else None.

Definition is_high (c : N) : bool := (0xD800 <=? c) && (c <=? 0xDBFF).
Definition is_low (c : N) : bool := (0xDC00 <=? c) && (c <=? 0xDFFF).

Definition join_surrogates (hi lo : N) : N :=
  0x10000 + (hi - 0xD800) * 1024 + (lo - 0xDC00).

Definition bad : step_result := Stop JSONDecodeError.

(** The first character of a value. *)
Definition start_value (stk : list frame) (c : N) : step_result :=
  if c =? 34 then Next (MStr [] None (SValue stk))
  else if c =? 123 then Next (MDictStart stk)
  else if c =? 91 then Next (MListStart stk)
  else if c =? 110 then Next (MLit (lit "ull") (LValue JNull) stk)
  else if c =? 116 then Next (MLit (lit "rue") (LValue (JBool true)) stk)
  else if c =? 102 then Next (MLit (lit "alse") (LValue (JBool false)) stk)
  else if c =? 78 then Next (MLit (lit "aN") LNumber stk)
  else if c =? 73 then Next (MLit (lit "nfinity") LNumber stk)
  else if c =? 45 then Next (MMinus stk)
  else if is_digit c then Stop NumberLiteral
  else bad.

Definition end_string (acc : pystr) (k : strctx) : mode :=
  match k with
  | SValue stk => MAfter (JStr acc) stk
  | SKey done stk => MColon done acc stk
  end.

(** A character inside a string, no escape pending. *)
Definition in_string (acc : pystr) (k : strctx) (c : N) : step_result :=
  if c =? 34 then Next (end_string acc k)
  else if c =? 92 then Next (MEsc acc k)
  else if c <? 32 then bad
  else Next (MStr (acc ++ [c]) None k).

(** The character after a backslash. *)
Definition in_escape (acc : pystr) (k : strctx) (c : N) : step_result :=
  if c =? 34 then Next (MStr (acc ++ [34]) None k)
  else if c =? 92 then Next (MStr (acc ++ [92]) None k)
  else if c =? 47 then Next (MStr (acc ++ [47]) None k)
  else if c =? 98 then Next (MStr (acc ++ [8]) None k)
  else if c =? 102 then Next (MStr (acc ++ [12]) None k)
  else if c =? 110 then Next (MStr (acc ++ [10]) None k)
  else if c =? 114 then Next (MStr (acc ++ [13]) None k)
  else if c =? 116 then Next (MStr (acc ++ [9]) None k)
  else if c =? 117 then Next (MHex acc None 4 0 k)
  else bad.

(** The fourth hexadecimal digit of a [\uXXXX] escape has been read. *)
Definition end_hex (acc : pystr) (pend : option N) (v : N) (k : strctx)
  : mode :=
  match pend with
  | Some hi =>
    if is_low v then MStr (acc ++ [join_surrogates hi v]) None k
    else if is_high v then MStr (acc ++ [hi]) (Some v) k
    else MStr (acc ++ [hi; v]) None k
  | None =>
    if is_high v then MStr acc (Some v) k
    else MStr (acc ++ [v]) None k
  end.

Definition step (m : mode) (c : N) : step_result :=
  match m with
  | MValue stk =>
    if is_ws c then Next (MValue stk) else start_value stk c
  | MListStart stk =>
    if is_ws c then Next (MListStart stk)
    else if c =? 93 then Next (MAfter (JList []) stk)
    else start_value (FList [] :: stk) c
  | MDictStart stk =>
    if is_ws c then Next (MDictStart stk)
    else if c =? 125 then Next (MAfter (JDict []) stk)
    else if c =? 34 then Next (MStr [] None (SKey [] stk))
    else bad
  | MKey done stk =>
    if is_ws c then Next (MKey done stk)
    else if c =? 34 then Next (MStr [] None (SKey done stk))
    else bad
  | MColon done key stk =>
    if is_ws c then Next (MColon done key stk)
    else if c =? 58 then Next (MValue (FDict done key :: stk))
    else bad
  | MAfter v stk =>
    if is_ws c then Next (MAfter v stk)
    else
      match stk with
      | [] => bad
      | FList done :: stk' =>
        if c =? 44 then Next (MValue (FList (done ++ [v]) :: stk'))
        else if c =? 93 then Next (MAfter (JList (done ++ [v])) stk')
        else bad
      | FDict done key :: stk' =>
        if c =? 44 then Next (MKey (dict_set key v done) stk')
        else if c =? 125 then Next (MAfter (JDict (dict_set key v done)) stk')
        else bad
      end
  | MLit rest r stk =>
    match rest with
    | [] => bad
    | x :: rest' =>
      if c =? x then
        match rest', r with
        | [], LValue v => Next (MAfter v stk)
        | [], LNumber => Stop NumberLiteral
        | _ :: _, _ => Next (MLit rest' r stk)
        end
      else bad
    end
  | MMinus stk =>
    if is_digit c then Stop NumberLiteral
    else if c =? 73 then Next (MLit (lit "nfinity") LNumber stk)
    else bad
  | MStr acc None k => in_string acc k c
  | MStr acc (Some hi) k =>
    if c =? 92 then Next (MEscHigh acc hi k)
    else in_string (acc ++ [hi]) k c
  | MEsc acc k => in_escape acc k c
  | MEscHigh acc hi k =>
    if c =? 117 then Next (MHex acc (Some hi) 4 0 k)
    else in_escape (acc ++ [hi]) k c
  | MHex acc pend n val k =>
    match hexval c with
    | Some d =>
      match n with
      | 1%nat => Next (end_hex acc pend (val * 16 + d) k)
      | _ => Next (MHex acc pend (pred n) (val * 16 + d) k)
      end
    | None => bad
    end
  end.

Fixpoint run (s : pystr) (m : mode) : result json :=
  match s with
  | [] =>
    match m with
    | MAfter v [] => Ok v
    | _ => Raise JSONDecodeError
    end
  | c :: r =>
    match step m c with
    | Next m' => run r m'
    | Stop e => Raise e
    end
  end.

(** The mode reached by reading [s], if no step stops. *)
Fixpoint feed (s : pystr) (m : mode) : option mode :=
  match s with
  | [] => Some m
  | c :: r =>
    match step m c with
    | Next m' => feed r m'
    | Stop _ => None
    end
  end.

(** The modes in which white space is skipped. *)
Definition skips_ws (m : mode) : Prop :=
  forall c, is_ws c = true -> step m c = Next m.

(** [json.loads(text)] *)
Definition loads (text : pystr) : result json := run text (MValue []).

(** ** The values that survive a round trip

    A string holds code points up to U+10FFFF, and no high surrogate
    directly followed by a low one: [dumps] writes such a pair as two
    escapes, which [loads] reads back as one character.  No object repeats
    a key. *)

Fixpoint str_ok (s : pystr) : bool :=
  match s with
  | [] => true
  | c :: r =>
    (c <? 0x110000)
    && negb (is_high c && match r with
                          | c2 :: _ => is_low c2
                          | [] => false
                          end)
    && str_ok r
  end.

(** The string read so far, with the escape that is held back. *)
Definition settle (acc : pystr) (pend : option N) : pystr :=
  match pend with
  | Some hi => acc ++ [hi]
  | None => acc
  end.

(** The mode after the character [c] of a string has been read. *)
Definition after_char (acc : pystr) (pend : option N) (c : N) (k : strctx)
  : mode :=
  if is_high c then MStr (settle acc pend) (Some c) k
  else MStr (settle acc pend ++ [c]) None k.

Fixpoint distinct (ks : list pystr) : bool :=
  match ks with
  | [] => true
  | k :: r => negb (existsb (str_eqb k) r) && distinct r
  end.

Fixpoint json_ok (v : json) : bool :=
  match v with
  | JNull | JBool _ => true
  | JStr s => str_ok s
  | JList l => forallb json_ok l
  | JDict d =>
    distinct (List.map fst d)
    && forallb (fun kv => str_ok (fst kv) && json_ok (snd kv)) d
  end.

(** ** What [loads] builds from decoded text

    Decoded text holds no surrogate; the modes the decoder goes through on
    such text hold values that survive a round trip. *)

Definition cp_ok (c : N) : bool := (c <? 0x110000) && negb (is_surrogate c).

Definition text_ok (t : pystr) : bool := forallb cp_ok t.

Definition frame_ok (fr : frame) : bool :=
  match fr with
  | FList done => forallb json_ok done
  | FDict done key => json_ok (JDict done) && str_ok key
  end.

Definition ctx_ok (k : strctx) : bool :=
  match k with
  | SValue stk => forallb frame_ok stk
  | SKey done stk => json_ok (JDict done) && forallb frame_ok stk
  end.

(** The string read so far can take any character next. *)
Definition open_ok (acc : pystr) : bool :=
  str_ok acc && negb (is_high (last acc 0)).

(** With an escape held back, what was read may end with a high surrogate:
    the escape held back, itself a high surrogate, comes next. *)
Definition acc_ok (acc : pystr) (pend : option N) : bool :=
  match pend with
  | Some hi => str_ok acc && is_high hi
  | None => open_ok acc
  end.

(** The values below which the digits read so far of an escape stay. *)
Definition hex_bound (n : nat) : N :=
  match n with
  | 4%nat => 1
  | 3%nat => 16
  | 2%nat => 256
  | 1%nat => 4096
  | _ => 0
  end.

Definition mode_ok (m : mode) : bool :=
  match m with
  | MValue stk | MListStart stk | MDictStart stk | MMinus stk =>
    forallb frame_ok stk
  | MKey done stk => json_ok (JDict done) && forallb frame_ok stk
  | MColon done key stk =>
    json_ok (JDict done) && str_ok key && forallb frame_ok stk
  | MAfter v stk => json_ok v && forallb frame_ok stk
  | MLit _ r stk =>
    match r with
    | LValue v => json_ok v
    | LNumber => true
    end && forallb frame_ok stk
  | MStr acc pend k => acc_ok acc pend && ctx_ok k
  | MEsc acc k => open_ok acc && ctx_ok k
  | MEscHigh acc hi k => str_ok acc && is_high hi && ctx_ok k
  | MHex acc pend n val k =>
    acc_ok acc pend && ctx_ok k && (val <? hex_bound n)
  end.


End Json.

(* ===================================================================== *)
(** * Effects: a state that is threaded, and exceptions                   *)
(* ===================================================================== *)

(** A computation over a state [S] that returns an [A] or raises, and leaves
    a state behind in both cases. *)
Definition M (S A : Type) : Type := S -> Py.result A * S.

Definition ret {S A} (a : A) : M S A := fun s => (Py.Ok a, s).

Definition raise {S A} (e : Py.exn) : M S A := fun s => (Py.Raise e, s).

Definition mbind {S A B} (c : M S A) (k : A -> M S B) : M S B :=
  fun s =>
    match c s with
    | (Py.Ok a, s') => k a s'
    | (Py.Raise e, s') => (Py.Raise e, s')
    end.

Notation "x <- c1 ;; c2" := (mbind c1 (fun x => c2))
  (at level 61, c1 at next level, right associativity).
Notation "c1 ;;; c2" := (mbind c1 (fun _ => c2))
  (at level 61, right associativity).

(** A pure operation that may raise. *)
Definition lift {S A} (r : Py.result A) : M S A := fun s => (r, s).

(** [for x in xs: body(x)] *)
Fixpoint for_each {S X} (xs : list X) (body : X -> M S unit) : M S unit :=
  match xs with
  | [] => ret tt
  | x :: rest => body x ;;; for_each rest body
  end.

(** The state left behind, and the outcome. *)
Definition state_after {S A} (r : Py.result A * S) : S := snd r.
Definition outcome {S A} (r : Py.result A * S) : Py.result A := fst r.

(* ===================================================================== *)
(** * [tui/utils/state.py]                                                *)
(* ===================================================================== *)

Module State.
Import Py Json.

(** The file at [STATE_FILE]: its bytes, [None] while it does not exist, and
    the number of times it has been written. *)
Record fs := mkfs {
  file : option (list Byte.byte);
  writes : nat
}.

(** [STATE_FILE.exists()] *)
Definition file_exists (f : fs) : bool :=
  match file f with
  | Some _ => true
  | None => false
  end.

(** [STATE_FILE.read_text()] *)
Definition read_text : M fs pystr :=
  fun f =>
    match file f with
    | Some bs => (decode bs, f)
    | None => (Raise (IOError (lit "No such file or directory")), f)
    end.

(** [STATE_FILE.write_text(text)]: the file is opened for writing, which
    empties it, and the encoded text is written. *)
Definition write_text (text : pystr) : M fs unit :=
  fun f =>
    match encode text with
    | Ok bs => (Ok tt, mkfs (Some bs) (S (writes f)))
    | Raise e => (Raise e, mkfs (Some []) (S (writes f)))
    end.

(** [{"installed": []}] *)
Definition empty_state : json := JDict [(lit "installed", JList [])].

Definition load_state : M fs json :=
  fun f =>
    if file_exists f then
      match (text <- read_text ;; lift (loads text)) f with
      | (Raise JSONDecodeError, f') => (Ok empty_state, f')
      | (Raise (IOError _), f') => (Ok empty_state, f')
      | r => r
      end
    else (Ok empty_state, f).

(** The directory of the file is created first; the model has the file
    only. *)
Definition save_state (state : json) : M fs unit :=
  write_text (dumps state).

(** ** The operations of the interpreter on the loaded value *)

(** [o.get(k, default)] *)
Definition py_get (o : json) (k : pystr) (default : json) : result json :=
  match o with
  | JDict d =>
    match dict_get k d with
    | Some v => Ok v
    | None => Ok default
    end
  | _ => Raise AttributeError
  end.

(** [x in c] for a string [x] *)
Definition py_in (x : pystr) (c : json) : result bool :=
  match c with
  | JList l => Ok (existsb (json_eqb (JStr x)) l)
  | JStr s => Ok (substring x s)
  | JDict d => Ok (dict_has x d)
  | JNull | JBool _ => Raise TypeError
  end.

(** [o.setdefault(k, default)]: the value under [k], which is [default] and
    is stored when [k] was missing. *)
Definition py_setdefault (o : json) (k : pystr) (default : json)
  : result (json * json) :=
  match o with
  | JDict d =>
    match dict_get k d with
    | Some v => Ok (v, o)
    | None => Ok (default, JDict (dict_set k default d))
    end
  | _ => Raise AttributeError
  end.

(** [l.append(x)] *)
Definition py_append (l : json) (x : json) : result json :=
  match l with
  | JList xs => Ok (JList (xs ++ [x]))
  | _ => Raise AttributeError
  end.

(** [o[k]] *)
Definition py_getitem (o : json) (k : pystr) : result json :=
  match o with
  | JDict d =>
    match dict_get k d with
    | Some v => Ok v
    | None => Raise KeyError
    end
  | _ => Raise TypeError
  end.

Fixpoint remove_first (x : json) (xs : list json) : option (list json) :=
  match xs with
  | [] => None
  | y :: r =>
    if json_eqb y x then Some r
    else option_map (cons y) (remove_first x r)
  end.

(** [l.remove(x)] *)
Definition py_remove (l : json) (x : json) : result json :=
  match l with
  | JList xs =>
    match remove_first x xs with
    | Some xs' => Ok (JList xs')
    | None => Raise (ValueError (lit "list.remove(x): x not in list"))
    end
  | _ => Raise AttributeError
  end.

(** The list under [k] is an object that the dictionary refers to: changing
    it in place changes what the dictionary holds. *)
Definition store_back (o : json) (k : pystr) (v : json) : json :=
  match o with
  | JDict d => JDict (dict_set k v d)
  | _ => o
  end.

Definition hashable (v : json) : bool :=
  match v with
  | JNull | JBool _ | JStr _ => true
  | JList _ | JDict _ => false
  end.

(** A Python [set] of hashable values, as a list without repetition. *)
Definition pyset := list json.

Fixpoint dedupe (xs : list json) : list json :=
  match xs with
  | [] => []
  | x :: r => if existsb (json_eqb x) r then dedupe r else x :: dedupe r
  end.

Definition set_mem (x : json) (s : pyset) : bool := existsb (json_eqb x) s.

(** [set(c)] *)
Definition py_set (c : json) : result pyset :=
  match c with
  | JList l => if forallb hashable l then Ok (dedupe l) else Raise TypeError
  | JStr s => Ok (dedupe (List.map (fun ch => JStr [ch]) s))
  | JDict d => Ok (dedupe (List.map (fun kv => JStr (fst kv)) d))
  | JNull | JBool _ => Raise TypeError
  end.

Definition mark_installed (option_id : pystr) : M fs unit :=
  state <- load_state ;;
  installed <- lift (py_get state (lit "installed") (JList [])) ;;
  present <- lift (py_in option_id installed) ;;
  if negb present then
    slot <- lift (py_setdefault state (lit "installed") (JList [])) ;;
    appended <- lift (py_append (fst slot) (JStr option_id)) ;;
    save_state (store_back (snd slot) (lit "installed") appended)
  else ret tt.

Definition mark_uninstalled (option_id : pystr) : M fs unit :=
  state <- load_state ;;
  installed <- lift (py_get state (lit "installed") (JList [])) ;;
  present <- lift (py_in option_id installed) ;;
  if present then
    slot <- lift (py_getitem state (lit "installed")) ;;
    removed <- lift (py_remove slot (JStr option_id)) ;;
    save_state (store_back state (lit "installed") removed)
  else ret tt.

Definition get_installed : M fs pyset :=
  state <- load_state ;;
  installed <- lift (py_get state (lit "installed") (JList [])) ;;
  lift (py_set installed).

(** [clear_state()] *)
Definition clear_state : M fs unit :=
  fun f => if file_exists f then (Ok tt, mkfs None (writes f)) else (Ok tt, f).

(** ** Names used in the statements *)

(** The key of the list in the state file. *)
Definition key : pystr := lit "installed".

(** The value [state.get("installed", [])] yields for a dictionary. *)
Definition installed_of (d : jdict) : json :=
  match dict_get key d with
  | Some v => v
  | None => JList []
  end.

(** The file holds the text that [save_state] writes for [st]. *)
Definition holds (f : fs) (st : json) : Prop :=
  exists bs, file f = Some bs /\ decode bs = Ok (dumps st).

(** [save_state(load_state())] *)
Definition resave : M fs unit := st <- load_state ;; save_state st.

(** The double quote, and a state file written without indentation:
    [{"installed":[]}]. *)
Definition dq : string := String "034"%char EmptyString.

Definition compact_file : list Byte.byte :=
  list_byte_of_string ("{" ++ dq ++ "installed" ++ dq ++ ":[]}")%string.


(** ** Sequences of calls

    What the screen asks of this module over time: one call of
    [mark_installed] or [mark_uninstalled] after the other. *)
Inductive change :=
| Install (option_id : pystr)
| Uninstall (option_id : pystr).

Definition change_id (c : change) : pystr :=
  match c with
  | Install i | Uninstall i => i
  end.

Definition apply_change (c : change) : M fs unit :=
  match c with
  | Install i => mark_installed i
  | Uninstall i => mark_uninstalled i
  end.

Definition apply_changes (cs : list change) : M fs unit :=
  for_each cs apply_change.

(** Whether [x] counts as installed after the calls [cs], when [before]
    says whether it did at the start: the last call that names [x]
    decides. *)
Definition installed_after (cs : list change) (x : pystr) (before : bool)
  : bool :=
  fold_left
    (fun b c =>
       match c with
       | Install i => if str_eqb i x then true else b
       | Uninstall i => if str_eqb i x then false else b
       end) cs before.

(** No value occurs twice in the list. *)
Fixpoint json_distinct (l : list json) : bool :=
  match l with
  | [] => true
  | x :: r => negb (existsb (json_eqb x) r) && json_distinct r
  end.

(** How often [x] occurs in the list. *)
Definition occurrences (x : json) (l : list json) : nat :=
  List.length (filter (json_eqb x) l).

End State.

(* ===================================================================== *)
(** * [tui/utils/installer.py]                                            *)
(* ===================================================================== *)

Module Installer.
Import Py.

(** What the operating system and the stream reader of [asyncio] do with
    one request to start a process.
    - [SpawnFails]: [create_subprocess_exec] raises [OSError].
    - [Runs]: every call of [readline] returns a line, then the end of the
      output; [lines] are these lines in the order written, already decoded
      with [errors="replace"], and the child exits with [returncode].  No
      [limit=] is passed to [create_subprocess_exec], so such a line has at
      most 64 KiB (asyncio's default limit) before its line break.
    - [ReadFails]: after [lines] the child writes more than 64 KiB without
      a line break, and [readline] raises [ValueError] with [msg]; the rest
      of the output is not read and the code the child exits with,
      [returncode], is never asked for. *)
Inductive child :=
| SpawnFails (msg : pystr)
| Runs (lines : list pystr) (returncode : Z)
| ReadFails (lines : list pystr) (msg : pystr) (returncode : Z).

(** The code a started child exits with. *)
Definition exit_code (c : child) : option Z :=
  match c with
  | SpawnFails _ => None
  | Runs _ code | ReadFails _ _ code => Some code
  end.

(** The machine the program runs on: the child obtained for an argument
    vector and a working directory. *)
Definition os := list pystr -> pystr -> child.

(** What one call of [run_installation] did and returned: the arguments of
    [create_subprocess_exec], the state the callback left, the result. *)
Record run_record (S : Type) := mkrun {
  spawn_argv : list pystr;
  spawn_cwd : pystr;
  callback_state : S;
  returned : result Z
}.
Arguments mkrun {S}.
Arguments spawn_argv {S}.
Arguments spawn_cwd {S}.
Arguments callback_state {S}.
Arguments returned {S}.

(** [run_installation(script_dir, options, uninstall, output_callback)];
    the callback acts on a state [S] of its owner. *)
Definition run_installation {S} (machine : os)
    (script_dir : pystr) (options : list pystr) (uninstall : bool)
    (output_callback : option (pystr -> S -> S)) (s : S) : run_record S :=
  let cmd := [script_dir ++ lit "/install"] in
  let cmd := if uninstall then cmd ++ [lit "uninstall"] else cmd in
  let cmd := cmd ++ options in
  let each :=
    fun st line =>
      match output_callback with
      | Some cb => cb line st
      | None => st
      end in
  match machine cmd script_dir with
  | SpawnFails msg => mkrun cmd script_dir s (Raise (IOError msg))
  | Runs lines code => mkrun cmd script_dir (fold_left each lines s) (Ok code)
  | ReadFails lines msg _ =>
    mkrun cmd script_dir (fold_left each lines s) (Raise (ValueError msg))
  end.

Definition build_command
    (script_dir : pystr) (options : list pystr) (uninstall : bool)
  : list pystr :=
  let cmd := [script_dir ++ lit "/install"] in
  let cmd := if uninstall then cmd ++ [lit "uninstall"] else cmd in
  cmd ++ options.

End Installer.

(* ===================================================================== *)
(** * [tui/data/options.py]                                               *)
(* ===================================================================== *)

Module Options.
Import Py.

Record InstallOption := mkopt {
  id : pystr;
  name : pystr;
  description : pystr;
  category : pystr;
  requires_reboot : bool;
  excluded_from_all : bool;
  aliases : list pystr
}.

Definition opt (i n d c : string) : InstallOption :=
  mkopt (lit i) (lit n) (lit d) (lit c) false false [].

Definition OPTIONS : list InstallOption := [
  opt "claude" "Claude Code" "Anthropic's AI coding assistant CLI" "AI Tools";
  opt "codex" "Codex CLI" "OpenAI's Codex command-line interface" "AI Tools";
  opt "screensaver" "Custom Screensaver" "Personalized ASCII art screensaver"
      "Customization";
  mkopt (lit "plymouth") (lit "Plymouth Theme")
        (lit "Cybex boot splash theme") (lit "System") true false [];
  opt "fish" "Fish Shell" "Modern shell with Starship prompt" "Shell";
  mkopt (lit "hyprland") (lit "Hyprland Bindings")
        (lit "Custom key bindings and input config") (lit "Desktop")
        false false [lit "hyprland-bindings"];
  opt "waycorner" "Hot Corners" "macOS-style hot corners for Hyprland"
      "Desktop";
  opt "waybar" "Waybar Idle Toggle" "Click to toggle idle lock indicator"
      "Desktop";
  mkopt (lit "ssh") (lit "SSH Key") (lit "Generate SSH key for GitHub")
        (lit "Security") false false [lit "ssh-key"];
  mkopt (lit "passwordless-sudo") (lit "Passwordless Sudo")
        (lit "Enable passwordless sudo for user") (lit "Security")
        false true [];
  opt "brave" "Brave Browser" "Privacy-focused browser as default"
      "Applications";
  mkopt (lit "mainline") (lit "Mainline Kernel")
        (lit "Latest mainline Linux kernel") (lit "System") true true [];
  mkopt (lit "noctalia") (lit "Noctalia Shell")
        (lit "Modern desktop shell (replaces Waybar)") (lit "Desktop")
        false false [lit "noctalia-shell"];
  opt "looknfeel" "Animations" "Improved Hyprland window animations"
      "Customization"
].

Definition get_options_for_all : list InstallOption :=
  filter (fun o => negb (excluded_from_all o)) OPTIONS.


(** The loop of [get_option_by_id] over a catalogue: the first option with
    that id. *)
Fixpoint first_with_id (option_id : pystr) (opts : list InstallOption)
  : option InstallOption :=
  match opts with
  | [] => None
  | opt :: rest =>
    if str_eqb (id opt) option_id then Some opt
    else first_with_id option_id rest
  end.

Definition get_option_by_id (option_id : pystr) : option InstallOption :=
  first_with_id option_id OPTIONS.

End Options.

(* ===================================================================== *)
(** * [tui/widgets/option_list.py]                                        *)
(* ===================================================================== *)

Module Widgets.
Import Py Json Options.

(** The values the [status] field takes. *)
Inductive Status := pending | installing | installed | failed.

Definition status_eqb (a b : Status) : bool :=
  match a, b with
  | pending, pending | installing, installing
  | installed, installed | failed, failed => true
  | _, _ => false
  end.

(** [OptionItem.Selected]: the message an item posts when it is toggled. *)
Record Selected := mkmsg {
  msg_option_id : pystr;
  msg_selected : bool
}.

Record OptionItem := mkitem {
  item_option : InstallOption;  (* the field [option] *)
  is_installed : bool;
  selected : bool;
  status : Status
}.

(** [OptionItem(option, is_installed)]: the reactive fields start at their
    defaults. *)
Definition new_item (o : InstallOption) (inst : bool) : OptionItem :=
  mkitem o inst false pending.

(** Every method acts on the item and may post messages. *)
Definition toggle_selection (it : OptionItem) : OptionItem * list Selected :=
  let it' := mkitem (item_option it) (is_installed it) (negb (selected it))
                    (status it) in
  (it', [mkmsg (id (item_option it')) (selected it')]).

Definition set_installed (inst : bool) (it : OptionItem) : OptionItem :=
  mkitem (item_option it) inst (selected it)
         (if inst then installed else pending).

Definition set_selected (b : bool) (it : OptionItem) : OptionItem :=
  mkitem (item_option it) (is_installed it) b (status it).

Definition set_status (st : Status) (it : OptionItem) : OptionItem :=
  mkitem (item_option it) (is_installed it) (selected it) st.

(** [OptionList]: the installed set it was built with, and [_options_map].
    The items of the map are the children of the list view. *)
Record OptionList := mklist {
  installed_ids : State.pyset;
  options_map : dict OptionItem
}.

(** [OptionList(installed)] followed by [compose()] over a catalog. *)
Definition compose_from (catalog : list InstallOption) (inst : State.pyset)
  : OptionList :=
  mklist inst
    (fold_left
       (fun m o =>
          dict_set (id o) (new_item o (State.set_mem (JStr (id o)) inst)) m)
       catalog []).

Definition compose (inst : State.pyset) : OptionList :=
  compose_from OPTIONS inst.

Definition get_selected_options (ol : OptionList) : list pystr :=
  List.map fst (filter (fun kv => selected (snd kv)) (options_map ol)).

(** The loop of [select_all] over the items of the map, in order. *)
Fixpoint select_all_items (exclude_special : bool) (m : dict OptionItem)
  : dict OptionItem * list Selected :=
  match m with
  | [] => ([], [])
  | (k, it) :: rest =>
    let (rest', msgs) := select_all_items exclude_special rest in
    if exclude_special && excluded_from_all (item_option it)
    then ((k, it) :: rest', msgs)
    else if negb (selected it)
    then let (it', posted) := toggle_selection it in
         ((k, it') :: rest', posted ++ msgs)
    else ((k, it) :: rest', msgs)
  end.

Definition select_all (exclude_special : bool) (ol : OptionList)
  : OptionList * list Selected :=
  let (m, msgs) := select_all_items exclude_special (options_map ol) in
  (mklist (installed_ids ol) m, msgs).

Fixpoint deselect_all_items (m : dict OptionItem)
  : dict OptionItem * list Selected :=
  match m with
  | [] => ([], [])
  | (k, it) :: rest =>
    let (rest', msgs) := deselect_all_items rest in
    if selected it
    then let (it', posted) := toggle_selection it in
         ((k, it') :: rest', posted ++ msgs)
    else ((k, it) :: rest', msgs)
  end.

Definition deselect_all (ol : OptionList) : OptionList * list Selected :=
  let (m, msgs) := deselect_all_items (options_map ol) in
  (mklist (installed_ids ol) m, msgs).

(** [self._options_map[option_id]] changed by [f], when the key is there. *)
Definition update_item (option_id : pystr) (f : OptionItem -> OptionItem)
    (ol : OptionList) : OptionList :=
  match dict_get option_id (options_map ol) with
  | Some it =>
    mklist (installed_ids ol) (dict_set option_id (f it) (options_map ol))
  | None => ol
  end.

Definition set_option_status (option_id : pystr) (st : Status)
    (ol : OptionList) : OptionList :=
  update_item option_id (set_status st) ol.

Definition mark_option_installed (option_id : pystr) (ol : OptionList)
  : OptionList :=
  update_item option_id
    (fun it => set_selected false (set_installed true it)) ol.

Definition mark_option_uninstalled (option_id : pystr) (ol : OptionList)
  : OptionList :=
  update_item option_id (set_installed false) ol.

(** The items [select_all] passes over. *)
Definition skipped (exclude_special : bool) (it : OptionItem) : bool :=
  exclude_special && excluded_from_all (item_option it).

(** [item.toggle_selection()] on the item of the list with that key, as
    [action_toggle] does for the highlighted item. *)
Definition toggle (option_id : pystr) (ol : OptionList) : OptionList :=
  update_item option_id (fun it => fst (toggle_selection it)) ol.


(** [_checkbox_text] and [_status_text]: the texts an item computes for
    its two widgets.  A widget takes its text when the item is composed
    and when the watcher of [selected] or of [status] runs. *)
Definition _checkbox_text (it : OptionItem) : pystr :=
  if selected it then lit "[green][x][/green]" else lit "[cyan][ ][/cyan]".

Definition _status_text (it : OptionItem) : pystr :=
  if status_eqb (status it) installed || is_installed it
  then lit "[green]OK[/green]"
  else if status_eqb (status it) installing then lit "[yellow]...[/yellow]"
  else if status_eqb (status it) failed then lit "[red]FAIL[/red]"
  else [].

(** [deselect_all] passes over the items that are not selected. *)
Definition is_selected (ol : OptionList) (option_id : pystr) : bool :=
  match dict_get option_id (options_map ol) with
  | Some it => selected it
  | None => false
  end.

(** ** The calls that reach a list

    [Toggle] is [toggle_selection] on one item of the list, from
    [on_list_item_selected] or from the screen's [action_toggle]; the
    others are the methods of the list that the screen calls. *)
Inductive list_op :=
| Toggle (option_id : pystr)
| SelectAll (exclude_special : bool)
| DeselectAll
| MarkInstalled (option_id : pystr)
| MarkUninstalled (option_id : pystr).

Definition apply_op (o : list_op) (ol : OptionList) : OptionList :=
  match o with
  | Toggle i => toggle i ol
  | SelectAll ex => fst (select_all ex ol)
  | DeselectAll => fst (deselect_all ol)
  | MarkInstalled i => mark_option_installed i ol
  | MarkUninstalled i => mark_option_uninstalled i ol
  end.

Definition apply_ops (os : list list_op) (ol : OptionList) : OptionList :=
  fold_left (fun l o => apply_op o l) os ol.


(** What no call changes of a list: its keys, in their order, each with
    the option of its item. *)
Definition layout (m : dict OptionItem) : list (pystr * InstallOption) :=
  List.map (fun kv => (fst kv, item_option (snd kv))) m.

(** An item whose [status] is one that [set_installed] gives, and agrees
    with [_is_installed] when it says installed. *)
Definition item_ok (it : OptionItem) : bool :=
  match status it with
  | pending => true
  | installed => is_installed it
  | installing | failed => false
  end.


(** The [_is_installed] flag of the item under an id. *)
Definition flagged_installed (ol : OptionList) (option_id : pystr) : bool :=
  match dict_get option_id (options_map ol) with
  | Some it => is_installed it
  | None => false
  end.

End Widgets.

(* ===================================================================== *)
(** * [tui/widgets/header_banner.py]                                      *)
(* ===================================================================== *)

Module Banner.
Import Py.

(** [s.replace(old, new)] for a non-empty [old]: the occurrences are found
    from the left and do not overlap.  [skip] counts the characters of the
    occurrence just replaced that are still to be passed over. *)
Fixpoint replace_from (old new : pystr) (skip : nat) (s : pystr) : pystr :=
  match s with
  | [] => []
  | c :: r =>
    match skip with
    | S k => replace_from old new k r
    | O =>
      if is_prefix old s
      then new ++ replace_from old new (List.length old - 1) r
      else c :: replace_from old new 0 r
    end
  end.

(** [s.replace(old, new)]; an empty [old] matches before every character
    and at the end. *)
Definition replace (old new s : pystr) : pystr :=
  match old with
  | [] => new ++ flat_map (fun c => c :: new) s
  | _ :: _ => replace_from old new 0 s
  end.

(** The space and the no-break space U+00A0. *)
Definition preserve_spaces (text : pystr) : pystr :=
  replace [32] [160] text.

(** What the replacement does to one character. *)
Definition nbsp (c : N) : N := if c =? 32 then 160 else c.

End Banner.

(* ===================================================================== *)
(** * [tui/screens/install_modal.py]                                      *)
(* ===================================================================== *)

Module Modal.
Import Py Installer.

(** [InstallModal]: its fields, the lines written to the [RichLog], the
    [disabled] flag of the Close button, and the value it was dismissed
    with, if it has been. *)
Record InstallModal := mkmodal {
  script_dir : pystr;
  options : list pystr;
  uninstall : bool;
  success : bool;
  completed : bool;
  log : list pystr;
  close_disabled : bool;
  dismissed : option bool
}.

(** [InstallModal(script_dir, options, uninstall)] and [compose()] *)
Definition new_modal (sd : pystr) (opts : list pystr) (un : bool)
  : InstallModal :=
  mkmodal sd opts un false false [] true None.

Definition log_write (text : pystr) (m : InstallModal) : InstallModal :=
  mkmodal (script_dir m) (options m) (uninstall m) (success m) (completed m)
          (log m ++ [text]) (close_disabled m) (dismissed m).

Definition set_outcome (ok : bool) (m : InstallModal) : InstallModal :=
  mkmodal (script_dir m) (options m) (uninstall m) ok true
          (log m) (close_disabled m) (dismissed m).

Definition enable_close (m : InstallModal) : InstallModal :=
  mkmodal (script_dir m) (options m) (uninstall m) (success m) (completed m)
          (log m) false (dismissed m).

(** [self.dismiss(result)] *)
Definition dismiss (result : bool) (m : InstallModal) : InstallModal :=
  mkmodal (script_dir m) (options m) (uninstall m) (success m) (completed m)
          (log m) (close_disabled m) (Some result).

Definition _convert_ansi_to_rich (text : pystr) : pystr := text.

Definition output_handler (line : pystr) (m : InstallModal) : InstallModal :=
  log_write (_convert_ansi_to_rich line) m.

Definition str_of_Z (z : Z) : pystr :=
  lit (DecimalString.NilZero.string_of_int (Z.to_int z)).

(** The first lines of [run_installation_task], up to the [await]. *)
Definition show_command (m : InstallModal) : InstallModal :=
  let cmd := build_command (script_dir m) (options m) (uninstall m) in
  log_write (lit "[dim cyan]$ " ++ join (lit " ") cmd
             ++ lit "[/dim cyan]" ++ [10; 10]) m.

(** The lines after the [await]: the [try] body, or the handler. *)
Definition after_run (r : result Z) (m : InstallModal) : InstallModal :=
  let m :=
    match r with
    | Ok exit_code =>
      let m := set_outcome (exit_code =? 0)%Z m in
      if success m
      then log_write (10 :: lit "[bold green]Installation completed successfully![/bold green]" ++ [10]) m
      else log_write (10 :: lit "[bold red]Installation failed (exit code: "
                         ++ str_of_Z exit_code ++ lit ")[/bold red]" ++ [10]) m
    | Raise e =>
      let m := set_outcome false m in
      log_write (10 :: lit "[bold red]Error: "
                    ++ match e with
                       | IOError msg | ValueError msg => msg
                       | _ => []
                       end
                    ++ lit "[/bold red]" ++ [10]) m
    end in
  enable_close m.

(** [run_installation_task], run to its end on a machine. *)
Definition run_installation_task (machine : os) (m : InstallModal)
  : InstallModal :=
  let m := show_command m in
  let r := run_installation machine (script_dir m) (options m) (uninstall m)
                            (Some output_handler) m in
  after_run (returned r) (callback_state r).

(** [on_button_pressed]: the modal has one button, [close-btn]. *)
Definition on_button_pressed (m : InstallModal) : InstallModal :=
  dismiss (success m) m.

Definition action_cancel (m : InstallModal) : InstallModal :=
  if completed m then dismiss (success m) m else m.

(** ** The modal as a machine driven by events

    While the worker waits for the child, the event loop delivers keys.  An
    event is a step of the worker (a line arrived, the child exited, the
    spawn failed, reading a line failed) or an input of the user. *)
Inductive event :=
| Line (l : pystr)
| Exited (code : Z)
| SpawnFailed (msg : pystr)
| ReadFailed (msg : pystr)
| Escape
| Click.

(** A dismissed screen is gone; a finished worker takes no more steps; a
    disabled button posts no [Pressed] message. *)
Definition handle (e : event) (m : InstallModal) : InstallModal :=
  match dismissed m with
  | Some _ => m
  | None =>
    match e with
    | Line l => if completed m then m else output_handler l m
    | Exited code => if completed m then m else after_run (Ok code) m
    | SpawnFailed msg =>
      if completed m then m else after_run (Raise (IOError msg)) m
    | ReadFailed msg =>
      if completed m then m else after_run (Raise (ValueError msg)) m
    | Escape => action_cancel m
    | Click => if close_disabled m then m else on_button_pressed m
    end
  end.

(** [on_mount] starts the worker, which runs up to its first [await]. *)
Definition on_mount (m : InstallModal) : InstallModal := show_command m.

Definition session (es : list event) (m : InstallModal) : InstallModal :=
  fold_left (fun st e => handle e st) es (on_mount m).

(** The steps the worker takes for a child. *)
Definition worker_events (c : child) : list event :=
  match c with
  | SpawnFails msg => [SpawnFailed msg]
  | Runs lines code => List.map Line lines ++ [Exited code]
  | ReadFails lines msg _ => List.map Line lines ++ [ReadFailed msg]
  end.

(** The events of one run of a modal on a machine: the steps of
    the worker for the child that the machine gives, in their order, with
    the inputs of the user anywhere among them. *)
Definition is_worker_step (e : event) : bool :=
  match e with
  | Line _ | Exited _ | SpawnFailed _ | ReadFailed _ => true
  | Escape | Click => false
  end.

Definition run_on (machine : os) (m : InstallModal)
    (es : list event) : Prop :=
  filter is_worker_step es
  = worker_events
      (machine (build_command (script_dir m) (options m)
                              (uninstall m))
               (script_dir m)).

Inductive run_state := Running | Succeeded | Failed.

Definition state_of (m : InstallModal) : run_state :=
  if completed m then (if success m then Succeeded else Failed) else Running.

(** The events with which the worker ends. *)
Definition terminal (e : event) : Prop :=
  match e with
  | Exited _ | SpawnFailed _ | ReadFailed _ => True
  | _ => False
  end.

(** The value of [success] that a step of the worker sets. *)
Definition result_of (e : event) : option bool :=
  match e with
  | Exited code => Some (code =? 0)%Z
  | SpawnFailed _ | ReadFailed _ => Some false
  | _ => None
  end.

(** What holds of the modal after any events: it is dismissed only when the
    run is complete, with [success] as the result; until the run is complete
    the Close button is disabled. *)
Definition modal_inv (m : InstallModal) : Prop :=
  (forall b, dismissed m = Some b -> completed m = true /\ b = success m)
  /\ (completed m = false -> close_disabled m = true).


(** The modal without the record of its dismissal: what the worker and its
    callback have made of it. *)
Definition forget_dismissal (m : InstallModal) : InstallModal :=
  mkmodal (script_dir m) (options m) (uninstall m) (success m) (completed m)
          (log m) (close_disabled m) None.

(** The child that a machine gives to the modal for [d], [opts], [un]. *)
Definition child_of (machine : os) (d : pystr) (opts : list pystr)
    (un : bool) : child :=
  machine (build_command d opts un) d.

(** Whether a child counts as a success: it started, its output was read
    to the end, and it exited with 0. *)
Definition child_ok (c : child) : bool :=
  match c with
  | Runs _ code => (code =? 0)%Z
  | SpawnFails _ | ReadFails _ _ _ => false
  end.

End Modal.

(* ===================================================================== *)
(** * [tui/screens/main_screen.py]                                        *)
(* ===================================================================== *)

Module Screen.
Import Py Json Installer Widgets.

(** [MainScreen] with what it reaches: the option list, the text of the
    status bar, and the state file. *)
Record MainScreen := mkscreen {
  script_dir : pystr;
  option_list : OptionList;
  status_bar : pystr;
  store : State.fs
}.

Definition ready_text : pystr := lit "[cyan]Ready[/cyan] - Select options to install".

(** [MainScreen(script_dir)] and [compose()] *)
Definition new_screen (sd : pystr) : M State.fs MainScreen :=
  inst <- State.get_installed ;;
  fun f => (Ok (mkscreen sd (compose inst) ready_text f), f).

(** A computation on the state file, run inside the screen. *)
Definition in_store {A} (c : M State.fs A) : M MainScreen A :=
  fun s =>
    let (r, f) := c (store s) in
    (r, mkscreen (script_dir s) (option_list s) (status_bar s) f).

Definition on_list (f : OptionList -> OptionList) : M MainScreen unit :=
  fun s =>
    (Ok tt, mkscreen (script_dir s) (f (option_list s)) (status_bar s)
                     (store s)).

Definition _set_status (text : pystr) : M MainScreen unit :=
  fun s =>
    (Ok tt, mkscreen (script_dir s) (option_list s) text (store s)).

Definition str_of_nat (n : nat) : pystr :=
  lit (DecimalString.NilZero.string_of_uint (Nat.to_uint n)).

Definition _update_status : M MainScreen unit :=
  fun s =>
    let selected := get_selected_options (option_list s) in
    match selected with
    | [] => _set_status ready_text s
    | _ :: _ =>
      _set_status (lit "[cyan]" ++ str_of_nat (List.length selected)
                   ++ lit " option(s) selected[/cyan]") s
    end.

Definition action_select_all : M MainScreen unit :=
  on_list (fun ol => fst (select_all true ol)) ;;; _update_status.

Definition action_deselect_all : M MainScreen unit :=
  on_list (fun ol => fst (deselect_all ol)) ;;; _update_status.

(** The body of the loop of the callback of [action_install]. *)
Definition install_one (opt_id : pystr) : M MainScreen unit :=
  in_store (State.mark_installed opt_id) ;;;
  on_list (mark_option_installed opt_id).

(** The callback that [action_install] hands to [push_screen]. *)
Definition on_complete_install (selected : list pystr) (success : bool)
  : M MainScreen unit :=
  if success then
    for_each selected install_one ;;;
    _set_status (lit "[green]Installed " ++ str_of_nat (List.length selected)
                 ++ lit " option(s)[/green]")
  else _set_status (lit "[red]Installation failed[/red]").

Definition uninstall_one (opt_id : pystr) : M MainScreen unit :=
  in_store (State.mark_uninstalled opt_id) ;;;
  on_list (mark_option_uninstalled opt_id).

Definition on_complete_uninstall (selected : list pystr) (success : bool)
  : M MainScreen unit :=
  if success then
    for_each selected uninstall_one ;;;
    _set_status (lit "[green]Uninstalled " ++ str_of_nat (List.length selected)
                 ++ lit " option(s)[/green]")
  else _set_status (lit "[red]Uninstall failed[/red]").

(** What [push_screen(modal, callback)] was called with. *)
Record pushed := mkpushed {
  modal : Modal.InstallModal;
  requested : list pystr;
  callback : bool -> M MainScreen unit
}.

Definition action_install : M MainScreen (option pushed) :=
  fun s =>
    let selected := get_selected_options (option_list s) in
    match selected with
    | [] =>
      (_set_status (lit "[yellow]No options selected[/yellow]") ;;;
       ret None) s
    | _ :: _ =>
      (_set_status (lit "[cyan]Installing " ++ str_of_nat (List.length selected)
                    ++ lit " option(s)...[/cyan]") ;;;
       ret (Some (mkpushed (Modal.new_modal (script_dir s) selected false)
                           selected (on_complete_install selected)))) s
    end.

Definition action_uninstall : M MainScreen (option pushed) :=
  fun s =>
    let selected := get_selected_options (option_list s) in
    match selected with
    | [] =>
      (_set_status (lit "[yellow]No options selected[/yellow]") ;;;
       ret None) s
    | _ :: _ =>
      (_set_status (lit "[cyan]Uninstalling " ++ str_of_nat (List.length selected)
                    ++ lit " option(s)...[/cyan]") ;;;
       ret (Some (mkpushed (Modal.new_modal (script_dir s) selected true)
                           selected (on_complete_uninstall selected)))) s
    end.

(** The modal lives through the events [es]; if they dismiss it, the
    callback runs with the result. *)
Definition run_modal (es : list Modal.event) (p : pushed)
  : M MainScreen unit :=
  match Modal.dismissed (Modal.session es (modal p)) with
  | Some result => callback p result
  | None => ret tt
  end.

(** The user presses [i]; the events [es] follow. *)
Definition install_run (es : list Modal.event) : M MainScreen unit :=
  p <- action_install ;;
  match p with
  | Some p => run_modal es p
  | None => ret tt
  end.

(** The user presses [u]; the events [es] follow. *)
Definition uninstall_run (es : list Modal.event) : M MainScreen unit :=
  p <- action_uninstall ;;
  match p with
  | Some p => run_modal es p
  | None => ret tt
  end.

(** What the modal that [action_install] or [action_uninstall] pushes for
    a screen is. *)
Definition pushed_modal (s : MainScreen) (un : bool) : Modal.InstallModal :=
  Modal.new_modal (script_dir s) (get_selected_options (option_list s)) un.

(** ** Names used in the statements *)

(** A state file that is missing, cannot be parsed, or holds an object
    whose ["installed"] entry, if any, is a list of hashable values. *)
Definition well_formed_store (f : State.fs) : bool :=
  match State.load_state f with
  | (Ok (JDict d), _) =>
    match State.installed_of d with
    | JList l => forallb State.hashable l
    | _ => false
    end
  | _ => false
  end.

(** [option_id in get_installed()] *)
Definition is_installed_in (f : State.fs) (option_id : pystr) : bool :=
  match State.get_installed f with
  | (Ok s, _) => State.set_mem (JStr option_id) s
  | _ => false
  end.

(** The item is shown as installed and is not selected. *)
Definition item_done (ol : OptionList) (option_id : pystr) : bool :=
  match dict_get option_id (options_map ol) with
  | Some it => status_eqb (status it) installed && negb (selected it)
  | None => false
  end.

(** A screen on a machine without a state file, with the two options of
    the specification selected. *)
Definition example_screen : MainScreen :=
  mkscreen (lit "/d")
           (toggle (lit "fish") (toggle (lit "claude") (compose [])))
           ready_text (State.mkfs None 0).

(** A machine whose installer prints one line and exits with [code], and
    a run on it in which the user presses escape early and then closes. *)
Definition example_machine (code : Z) : os :=
  fun _ _ => Runs [lit "working"] code.

Definition example_events (code : Z) : list Modal.event :=
  [Modal.Line (lit "working"); Modal.Escape; Modal.Exited code; Modal.Click].

(** A machine whose installer prints one line, then more than 64 KiB
    without a line break (a progress bar drawn with carriage returns, say),
    and exits with 0; [readline] raises [ValueError] with this message at
    the long line.  And a run on it that the user closes. *)
Definition overrun_text : pystr :=
  lit "Separator is found, but chunk is longer than limit".

Definition long_line_machine : os :=
  fun _ _ => ReadFails [lit "working"] overrun_text 0.

Definition long_line_events : list Modal.event :=
  [Modal.Line (lit "working"); Modal.ReadFailed overrun_text; Modal.Click].


(** A [well_formed_store] whose list names no value twice. *)
Definition duplicate_free_store (f : State.fs) : bool :=
  match State.load_state f with
  | (Ok (JDict d), _) =>
    match State.installed_of d with
    | JList l => forallb State.hashable l && State.json_distinct l
    | _ => false
    end
  | _ => false
  end.

(** The text [_update_status] shows for a selection. *)
Definition selection_text (selected : list pystr) : pystr :=
  match selected with
  | [] => ready_text
  | _ :: _ =>
    lit "[cyan]" ++ str_of_nat (List.length selected)
    ++ lit " option(s) selected[/cyan]"
  end.


(** The item is [pending] and its installed flag is cleared. *)
Definition item_undone (ol : OptionList) (option_id : pystr) : bool :=
  match dict_get option_id (options_map ol) with
  | Some it => status_eqb (status it) pending && negb (is_installed it)
  | None => false
  end.


(** ** The screen under the keys of the user

    [action_toggle] acts on the highlighted item, if there is one; the
    [Selected] message that the item posts reaches
    [on_option_item_selected]. *)
Definition action_toggle (highlighted : option pystr) : M MainScreen unit :=
  match highlighted with
  | Some option_id => on_list (toggle option_id)
  | None => ret tt
  end.

Definition on_option_item_selected : M MainScreen unit := _update_status.

(** What the user does: a key, and for [i] and [u] the events that reach
    the modal afterwards. *)
Inductive press :=
| PressToggle (highlighted : option pystr)
| PressSelectAll
| PressDeselectAll
| PressInstall (es : list Modal.event)
| PressUninstall (es : list Modal.event).

Definition react (p : press) : M MainScreen unit :=
  match p with
  | PressToggle h =>
    action_toggle h ;;;
    match h with
    | Some _ => on_option_item_selected
    | None => ret tt
    end
  | PressSelectAll => action_select_all
  | PressDeselectAll => action_deselect_all
  | PressInstall es => install_run es
  | PressUninstall es => uninstall_run es
  end.

(** The list agrees with the file: it is laid out as the catalogue, its
    items have the statuses that [set_installed] gives, and an item is
    flagged as installed exactly when the state file, which names nothing
    twice, lists its id. *)
Definition agrees (s : MainScreen) : Prop :=
  duplicate_free_store (store s) = true
  /\ layout (options_map (option_list s))
     = List.map (fun o => (Options.id o, o)) Options.OPTIONS
  /\ forallb (fun kv => item_ok (snd kv)) (options_map (option_list s)) = true
  /\ forall o,
       In o Options.OPTIONS ->
       flagged_installed (option_list s) (Options.id o)
       = is_installed_in (store s) (Options.id o).

End Screen.

(* ===================================================================== *)
(** * Facts about strings and dictionaries                                *)
(* ===================================================================== *)

Module PyFacts.
Import Py.

Lemma str_eqb_eq (a b : pystr) : str_eqb a b = true <-> a = b.
Proof.
  unfold str_eqb. destruct (list_eq_dec N.eq_dec a b); split; congruence.
Qed.

Lemma str_eqb_refl (a : pystr) : str_eqb a a = true.
Proof. now apply str_eqb_eq. Qed.

Lemma str_eqb_neq (a b : pystr) : str_eqb a b = false <-> a <> b.
Proof.
  unfold str_eqb. destruct (list_eq_dec N.eq_dec a b); split; congruence.
Qed.

Lemma str_eqb_sym (a b : pystr) : str_eqb a b = str_eqb b a.
Proof.
  destruct (str_eqb b a) eqn:E.
  - apply str_eqb_eq in E. subst. apply str_eqb_refl.
  - apply str_eqb_neq. apply str_eqb_neq in E. congruence.
Qed.

Section Dict.
Context {V : Type}.
Implicit Types (d : dict V) (k : pystr) (v : V).

Lemma dict_get_set_same k v d : dict_get k (dict_set k v d) = Some v.
Proof.
  induction d as [|[k' v'] r IH]; simpl.
  - now rewrite str_eqb_refl.
  - destruct (str_eqb k k') eqn:E; simpl; rewrite E; auto.
Qed.

Lemma dict_get_set_other k k' v d :
  k <> k' -> dict_get k' (dict_set k v d) = dict_get k' d.
Proof.
  intros Hne.
  assert (str_eqb k' k = false) as Hf by (apply str_eqb_neq; congruence).
  induction d as [|[k0 v0] r IH]; simpl.
  - now rewrite Hf.
  - destruct (str_eqb k k0) eqn:E; simpl.
    + apply str_eqb_eq in E. subst k0. now rewrite Hf.
    + now rewrite IH.
Qed.

Lemma dict_get_none_notin k d :
  dict_get k d = None <-> ~ In k (List.map fst d).
Proof.
  induction d as [|[k0 v0] r IH]; simpl.
  - tauto.
  - destruct (str_eqb k k0) eqn:E.
    + apply str_eqb_eq in E. subst. split; [discriminate|]. tauto.
    + apply str_eqb_neq in E. rewrite IH. split.
      * intros H [H1|H1]; [congruence | tauto].
      * tauto.
Qed.

Lemma dict_set_absent k v d :
  dict_get k d = None -> dict_set k v d = d ++ [(k, v)].
Proof.
  induction d as [|[k0 v0] r IH]; simpl; [reflexivity|].
  destruct (str_eqb k k0) eqn:E; [discriminate|].
  intros H. now rewrite IH.
Qed.
End Dict.

End PyFacts.

(* ===================================================================== *)
(** * Facts about the [json] module                                       *)
(* ===================================================================== *)

Module JsonFacts.
Import Py Json PyFacts.

Ltac cmp :=
  repeat match goal with
         | |- context [?a <? ?b] => destruct (N.ltb_spec a b)
         | |- context [?a <=? ?b] => destruct (N.leb_spec a b)
         | |- context [?a =? ?b] => destruct (N.eqb_spec a b)
         end;
  simpl; try lia; try reflexivity.

Lemma json_eqb_eq : forall a b, json_eqb a b = true <-> a = b.
Proof.
  induction a as [ | x | x | l H | d H] using json_ind;
    intros [ | y | y | l' | d']; simpl;
    try (split; [discriminate | congruence]); try tauto.
  - rewrite Bool.eqb_true_iff. split; congruence.
  - rewrite str_eqb_eq. split; congruence.
  - revert l'. induction H as [|x xs Hx _ IH]; intros [|y ys];
      try (split; [discriminate | congruence]); try tauto.
    rewrite andb_true_iff, Hx, IH. split.
    + intros [-> E]. congruence.
    + intros E. injection E as -> ->. auto.
  - revert d'. induction H as [|[k x] xs Hx _ IH]; intros [|[k' y] ys];
      try (split; [discriminate | congruence]); try tauto.
    simpl in Hx.
    rewrite !andb_true_iff, str_eqb_eq, Hx, IH. split.
    + intros [[-> ->] E]. congruence.
    + intros E. injection E as -> -> ->. auto.
Qed.

Lemma json_eqb_refl a : json_eqb a a = true.
Proof. now apply json_eqb_eq. Qed.

Lemma feed_app s1 s2 m :
  feed (s1 ++ s2) m =
  match feed s1 m with
  | Some m' => feed s2 m'
  | None => None
  end.
Proof.
  revert m. induction s1 as [|c r IH]; intros m; simpl; [reflexivity|].
  destruct (step m c); auto.
Qed.

Lemma run_feed s m m' r : feed s m = Some m' -> run (s ++ r) m = run r m'.
Proof.
  revert m. induction s as [|c s IH]; intros m; simpl.
  - now intros [= ->].
  - destruct (step m c); [apply IH | discriminate].
Qed.

Lemma hexval_hexdigit n : n < 16 -> hexval (hexdigit n) = Some n.
Proof.
  intros H. unfold hexval, hexdigit.
  destruct (N.ltb_spec n 10).
  - replace ((48 <=? 48 + n) && (48 + n <=? 57)) with true by (symmetry; cmp).
    f_equal. lia.
  - replace ((48 <=? 87 + n) && (87 + n <=? 57)) with false by (symmetry; cmp).
    replace ((97 <=? 87 + n) && (87 + n <=? 102)) with true by (symmetry; cmp).
    f_equal. lia.
Qed.

Lemma hex4_value v :
  v < 65536 ->
  (((v / 4096) mod 16 * 16 + (v / 256) mod 16) * 16 + (v / 16) mod 16) * 16
  + v mod 16 = v.
Proof.
  intros H.
  pose proof (N.div_mod v 16 ltac:(lia)).
  pose proof (N.div_mod (v / 16) 16 ltac:(lia)).
  pose proof (N.div_mod (v / 16 / 16) 16 ltac:(lia)).
  replace (v / 256) with (v / 16 / 16)
    by (rewrite N.Div0.div_div; reflexivity).
  replace (v / 4096) with (v / 16 / 16 / 16)
    by (rewrite !N.Div0.div_div; reflexivity).
  assert (v / 16 / 16 / 16 < 16).
  { rewrite !N.Div0.div_div. apply N.Div0.div_lt_upper_bound. simpl. lia. }
  rewrite (N.mod_small (v / 16 / 16 / 16) 16) by assumption.
  lia.
Qed.

Lemma surrogates_value v :
  v < 0x100000 ->
  join_surrogates (0xD800 + (v / 1024) mod 1024) (0xDC00 + v mod 1024)
  = 0x10000 + v.
Proof.
  intros H. unfold join_surrogates.
  assert (v / 1024 < 1024) by (apply N.Div0.div_lt_upper_bound; simpl; lia).
  rewrite (N.mod_small (v / 1024)) by assumption.
  pose proof (N.div_mod v 1024 ltac:(lia)) as E.
  assert (forall a b, a + b - a = b) as X by (intros; lia).
  rewrite !X. lia.
Qed.

Lemma feed_cons c s m :
  feed (c :: s) m =
  match step m c with
  | Next m' => feed s m'
  | Stop _ => None
  end.
Proof. reflexivity. Qed.

Lemma step_hex acc pend n val k x :
  x < 16 ->
  step (MHex acc pend (S n) val k) (hexdigit x) =
  match n with
  | O => Next (end_hex acc pend (val * 16 + x) k)
  | S _ => Next (MHex acc pend n (val * 16 + x) k)
  end.
Proof.
  intros H. unfold step. rewrite hexval_hexdigit by assumption.
  destruct n; reflexivity.
Qed.

Lemma feed_hex4 v acc pend k :
  v < 65536 ->
  feed (hex4 v) (MHex acc pend 4 0 k) = Some (end_hex acc pend v k).
Proof.
  intros H. unfold hex4.
  assert (forall x, x mod 16 < 16) as Hm by (intros; apply N.mod_lt; lia).
  rewrite !feed_cons, !step_hex by apply Hm.
  rewrite !feed_cons, !step_hex by apply Hm.
  rewrite !feed_cons, !step_hex by apply Hm.
  rewrite !feed_cons, !step_hex by apply Hm.
  cbn [feed]. rewrite N.mul_0_l, N.add_0_l, hex4_value by assumption.
  reflexivity.
Qed.

Lemma feed_u_escape v acc pend k :
  v < 65536 ->
  feed (92 :: 117 :: hex4 v) (MStr acc pend k)
  = Some (end_hex acc pend v k).
Proof.
  intros H. rewrite <- (feed_hex4 v acc pend k H).
  destruct pend; reflexivity.
Qed.

Lemma is_high_offset x : x < 1024 -> is_high (0xD800 + x) = true.
Proof. intros H. unfold is_high. cmp. Qed.

Lemma is_low_offset x : x < 1024 -> is_low (0xDC00 + x) = true.
Proof. intros H. unfold is_low. cmp. Qed.

Lemma flat_map_cons {A B} (f : A -> list B) x l :
  flat_map f (x :: l) = f x ++ flat_map f l.
Proof. reflexivity. Qed.

Lemma is_low_of_high x : x < 1024 -> is_low (0xD800 + x) = false.
Proof. intros H. unfold is_low. cmp. Qed.

Lemma end_hex_high acc pend x k :
  x < 1024 ->
  end_hex acc pend (0xD800 + x) k = MStr (settle acc pend) (Some (0xD800 + x)) k.
Proof.
  intros H. unfold end_hex.
  rewrite is_high_offset, is_low_of_high by assumption.
  destruct pend; reflexivity.
Qed.

(** One character of a string, written by [dumps] and read by [loads],
    whatever escape is held back. *)
Lemma feed_escape_char c acc pend k :
  c < 0x110000 -> (pend <> None -> is_low c = false) ->
  feed (escape_char c) (MStr acc pend k) = Some (after_char acc pend c k).
Proof.
  intros Hmax Hlow. unfold escape_char.
  destruct (N.eqb_spec c 34) as [->|]; [destruct pend; reflexivity|].
  destruct (N.eqb_spec c 92) as [->|]; [destruct pend; reflexivity|].
  destruct (N.eqb_spec c 10) as [->|]; [destruct pend; reflexivity|].
  destruct (N.eqb_spec c 13) as [->|]; [destruct pend; reflexivity|].
  destruct (N.eqb_spec c 9) as [->|]; [destruct pend; reflexivity|].
  destruct (N.eqb_spec c 12) as [->|]; [destruct pend; reflexivity|].
  destruct (N.eqb_spec c 8) as [->|]; [destruct pend; reflexivity|].
  destruct ((32 <=? c) && (c <=? 126)) eqn:Hp.
  - apply andb_true_iff in Hp. destruct Hp as [H1 H2].
    apply N.leb_le in H1. apply N.leb_le in H2.
    assert (is_high c = false) as Hh by (unfold is_high; cmp).
    unfold after_char. rewrite Hh. rewrite feed_cons.
    destruct pend as [hi|]; unfold step, in_string.
    + destruct (N.eqb_spec c 92); [contradiction|].
      destruct (N.eqb_spec c 34); [contradiction|].
      destruct (N.ltb_spec c 32); [lia|]. reflexivity.
    + destruct (N.eqb_spec c 34); [contradiction|].
      destruct (N.eqb_spec c 92); [contradiction|].
      destruct (N.ltb_spec c 32); [lia|]. reflexivity.
  - destruct (N.ltb_spec c 0x10000) as [Hlt|Hge].
    + rewrite feed_u_escape by assumption.
      unfold end_hex, after_char. destruct pend as [hi|]; cbn [settle].
      * rewrite Hlow by discriminate.
        destruct (is_high c); [reflexivity|]. now rewrite <- app_assoc.
      * reflexivity.
    + assert (is_high c = false) as Hh by (unfold is_high; cmp).
      unfold after_char. rewrite Hh.
      set (v := c - 0x10000).
      assert (v < 0x100000) as Hv by (unfold v; lia).
      assert (forall x, x mod 1024 < 1024) as Hm
          by (intros; apply N.mod_lt; lia).
      change (92 :: 117 :: hex4 (0xD800 + (v / 1024) mod 1024)
                 ++ 92 :: 117 :: hex4 (0xDC00 + v mod 1024))
        with ((92 :: 117 :: hex4 (0xD800 + (v / 1024) mod 1024))
                ++ 92 :: 117 :: hex4 (0xDC00 + v mod 1024)).
      assert (forall x, x < 1024 -> 0xD800 + x < 65536) as Hhi
          by (intros; lia).
      assert (forall x, x < 1024 -> 0xDC00 + x < 65536) as Hlo
          by (intros; lia).
      rewrite feed_app, feed_u_escape by (apply Hhi, Hm).
      rewrite end_hex_high by apply Hm.
      rewrite feed_u_escape by (apply Hlo, Hm).
      unfold end_hex. rewrite is_low_offset by apply Hm.
      rewrite surrogates_value by assumption.
      do 4 f_equal. unfold v. lia.
Qed.

Lemma str_ok_tail c s : str_ok (c :: s) = true -> str_ok s = true.
Proof. cbn [str_ok]. intros H. apply andb_true_iff in H. tauto. Qed.

Lemma str_ok_head c s : str_ok (c :: s) = true -> c < 0x110000.
Proof.
  cbn [str_ok]. intros H. apply andb_true_iff in H. destruct H as [H _].
  apply andb_true_iff in H. destruct H as [H _]. now apply N.ltb_lt.
Qed.

Lemma str_ok_pair hi c s :
  str_ok (hi :: c :: s) = true -> is_high hi = true -> is_low c = false.
Proof.
  cbn [str_ok]. intros H Hh. apply andb_true_iff in H. destruct H as [H _].
  apply andb_true_iff in H. destruct H as [_ H]. rewrite Hh in H.
  now apply negb_true_iff in H.
Qed.

(** The characters of a string up to its closing quote, read from a mode
    that may hold an escape back. *)
Lemma feed_escape s :
  forall acc pend k r,
    str_ok (match pend with Some hi => hi :: s | None => s end) = true ->
    (forall hi, pend = Some hi -> is_high hi = true) ->
    feed (flat_map escape_char s ++ 34 :: r) (MStr acc pend k)
    = feed r (end_string (settle acc pend ++ s) k).
Proof.
  induction s as [|c s IH]; intros acc pend k r Hok Hpend.
  - rewrite app_nil_r. destruct pend; reflexivity.
  - assert (str_ok (c :: s) = true) as Hcs
        by (destruct pend; [eapply str_ok_tail|]; eassumption).
    rewrite flat_map_cons, <- app_assoc, feed_app, feed_escape_char.
    + unfold after_char. destruct (is_high c) eqn:Hc.
      * rewrite IH; [|assumption|now intros hi [= <-]].
        cbn [settle]. now rewrite <- app_assoc.
      * rewrite IH; [|now apply str_ok_tail in Hcs|discriminate].
        cbn [settle]. now rewrite <- app_assoc.
    + now apply str_ok_head in Hcs.
    + destruct pend as [hi|]; [|congruence]. intros _.
      apply (str_ok_pair hi c s Hok). now apply Hpend.
Qed.

(** A string literal read from just after its opening quote. *)
Lemma feed_string_body s k :
  str_ok s = true ->
  feed (flat_map escape_char s ++ [34]) (MStr [] None k)
  = Some (end_string s k).
Proof.
  intros H. rewrite (feed_escape s [] None k []); [reflexivity|assumption|].
  discriminate.
Qed.

Lemma skips_ws_value stk : skips_ws (MValue stk).
Proof. intros c H. simpl. now rewrite H. Qed.
Lemma skips_ws_list_start stk : skips_ws (MListStart stk).
Proof. intros c H. simpl. now rewrite H. Qed.
Lemma skips_ws_dict_start stk : skips_ws (MDictStart stk).
Proof. intros c H. simpl. now rewrite H. Qed.
Lemma skips_ws_key done stk : skips_ws (MKey done stk).
Proof. intros c H. simpl. now rewrite H. Qed.
Lemma skips_ws_after v stk : skips_ws (MAfter v stk).
Proof. intros c H. simpl. now rewrite H. Qed.

Create HintDb ws.
#[local] Hint Resolve skips_ws_value skips_ws_list_start skips_ws_dict_start
  skips_ws_key skips_ws_after : ws.

Lemma feed_app_some s r m m' :
  feed s m = Some m' -> feed (s ++ r) m = feed r m'.
Proof. intros H. now rewrite feed_app, H. Qed.

Lemma feed_newline_indent n r m :
  skips_ws m -> feed (newline_indent n ++ r) m = feed r m.
Proof.
  intros H. apply feed_app_some.
  unfold newline_indent. rewrite feed_cons, H by reflexivity.
  induction (2 * n)%nat as [|k IH]; simpl; [reflexivity|].
  now rewrite H.
Qed.

Lemma feed_string s r stk :
  str_ok s = true ->
  feed (encode_basestring_ascii s ++ r) (MValue stk)
  = feed r (MAfter (JStr s) stk).
Proof.
  intros H. apply feed_app_some. apply (feed_string_body s (SValue stk) H).
Qed.

Lemma feed_key s r done stk :
  str_ok s = true ->
  feed (encode_basestring_ascii s ++ 58 :: 32 :: r) (MKey done stk)
  = feed r (MValue (FDict done s :: stk)).
Proof.
  intros H. rewrite feed_app.
  change (feed (encode_basestring_ascii s) (MKey done stk))
    with (feed (flat_map escape_char s ++ [34]) (MStr [] None (SKey done stk))).
  now rewrite feed_string_body.
Qed.

Lemma feed_first_key s r stk :
  str_ok s = true ->
  feed (encode_basestring_ascii s ++ 58 :: 32 :: r) (MDictStart stk)
  = feed r (MValue (FDict [] s :: stk)).
Proof.
  intros H. rewrite feed_app.
  change (feed (encode_basestring_ascii s) (MDictStart stk))
    with (feed (flat_map escape_char s ++ [34]) (MStr [] None (SKey [] stk))).
  now rewrite feed_string_body.
Qed.

(** A serialised value never begins with white space or a closing bracket:
    the first element of a list is read as any other value. *)
Lemma feed_first_item v level r stk :
  feed (dumps_at level v ++ r) (MListStart stk)
  = feed (dumps_at level v ++ r) (MValue (FList [] :: stk)).
Proof.
  destruct v as [ | [|] | s | [|x xs] | [|[k x] xs]]; reflexivity.
Qed.

Lemma distinct_NoDup ks : distinct ks = true <-> NoDup ks.
Proof.
  induction ks as [|k r IH]; simpl.
  - split; [constructor | reflexivity].
  - rewrite andb_true_iff, negb_true_iff, IH. split.
    + intros [H1 H2]. constructor; [|assumption].
      intros Hin. apply not_true_iff_false in H1. apply H1.
      apply existsb_exists. exists k. split; [assumption | apply str_eqb_refl].
    + intros H. inversion H as [|? ? Hn Hr]; subst. split; [|assumption].
      apply not_true_iff_false. intros He. apply existsb_exists in He.
      destruct He as [x [Hx He]]. apply str_eqb_eq in He. now subst.
Qed.

Lemma distinct_fresh (done : jdict) k x rest :
  distinct (List.map fst (done ++ (k, x) :: rest)) = true ->
  dict_set k x done = done ++ [(k, x)].
Proof.
  intros H. apply dict_set_absent. apply dict_get_none_notin.
  apply distinct_NoDup in H. rewrite map_app in H. simpl in H.
  apply NoDup_remove_2 in H. intros Hin. apply H. apply in_or_app. now left.
Qed.

(** The text of a non-empty list and of a non-empty object. *)
Lemma dumps_at_list level x xs :
  dumps_at level (JList (x :: xs)) =
  91 :: newline_indent (S level) ++ dumps_at (S level) x
     ++ flat_map
          (fun y => 44 :: newline_indent (S level) ++ dumps_at (S level) y) xs
     ++ newline_indent level ++ [93].
Proof. reflexivity. Qed.

Lemma dumps_at_dict level k x xs :
  dumps_at level (JDict ((k, x) :: xs)) =
  123 :: newline_indent (S level)
      ++ encode_basestring_ascii k ++ 58 :: 32 :: dumps_at (S level) x
      ++ flat_map
           (fun kv =>
              44 :: newline_indent (S level)
                 ++ encode_basestring_ascii (fst kv)
                 ++ 58 :: 32 :: dumps_at (S level) (snd kv)) xs
      ++ newline_indent level ++ [125].
Proof. reflexivity. Qed.

Section RoundTrip.

#[local] Opaque encode_basestring_ascii newline_indent dumps_at.

Ltac right_nested :=
  repeat (rewrite <- app_comm_cons || rewrite <- app_assoc).

(** What is known of the values inside a container. *)
Let reads_back (v : json) : Prop :=
  json_ok v = true ->
  forall level r stk,
    feed (dumps_at level v ++ r) (MValue stk) = feed r (MAfter v stk).

Lemma feed_items level r stk xs :
  Forall reads_back xs -> forallb json_ok xs = true ->
  forall done x,
    feed (flat_map
            (fun y => 44 :: newline_indent (S level) ++ dumps_at (S level) y)
            xs ++ newline_indent level ++ 93 :: r)
         (MAfter x (FList done :: stk))
    = feed r (MAfter (JList (done ++ x :: xs)) stk).
Proof.
  induction 1 as [|y ys Hy _ IH]; intros Hok done x.
  - cbn [flat_map app]. rewrite feed_newline_indent by auto with ws.
    reflexivity.
  - simpl in Hok. apply andb_true_iff in Hok. destruct Hok as [Hy' Hys].
    rewrite flat_map_cons. right_nested. rewrite feed_cons.
    change (step (MAfter x (FList done :: stk)) 44)
      with (Next (MValue (FList (done ++ [x]) :: stk))).
    cbv iota. rewrite feed_newline_indent by auto with ws.
    rewrite (Hy Hy'), (IH Hys). now rewrite <- app_assoc.
Qed.

Lemma feed_members level r stk xs :
  Forall (fun kv => reads_back (snd kv)) xs ->
  forallb (fun kv => str_ok (fst kv) && json_ok (snd kv)) xs = true ->
  forall done k x,
    distinct (List.map fst (done ++ (k, x) :: xs)) = true ->
    feed (flat_map
            (fun kv =>
               44 :: newline_indent (S level)
                  ++ encode_basestring_ascii (fst kv)
                  ++ 58 :: 32 :: dumps_at (S level) (snd kv))
            xs ++ newline_indent level ++ 125 :: r)
         (MAfter x (FDict done k :: stk))
    = feed r (MAfter (JDict (done ++ (k, x) :: xs)) stk).
Proof.
  induction 1 as [|[k' y] ys Hy _ IH]; intros Hok done k x Hd.
  - cbn [flat_map app]. rewrite feed_newline_indent by auto with ws.
    cbn [feed step is_ws N.eqb Pos.eqb orb]. cbv iota.
    now rewrite (distinct_fresh done k x []).
  - simpl in Hok. apply andb_true_iff in Hok. destruct Hok as [Hy' Hys].
    apply andb_true_iff in Hy'. destruct Hy' as [Hk' Hy'].
    rewrite flat_map_cons. cbn [fst snd]. right_nested. rewrite feed_cons.
    change (step (MAfter x (FDict done k :: stk)) 44)
      with (Next (MKey (dict_set k x done) stk)).
    cbv iota. rewrite (distinct_fresh done k x ((k', y) :: ys) Hd).
    rewrite feed_newline_indent by auto with ws.
    rewrite feed_key by assumption.
    rewrite (Hy Hy'), IH; [| assumption |].
    + now rewrite <- app_assoc.
    + now rewrite <- app_assoc.
Qed.

Lemma feed_dumps : forall v, reads_back v.
Proof.
  induction v as [ | b | s | l IH | d IH] using json_ind;
    intros Hok level r stk.
  - reflexivity.
  - destruct b; reflexivity.
  - now apply feed_string.
  - destruct l as [|x xs]; [reflexivity|].
    simpl in Hok. apply andb_true_iff in Hok. destruct Hok as [Hx Hxs].
    inversion IH as [|? ? IHx IHxs]; subst.
    rewrite dumps_at_list. right_nested. rewrite feed_cons.
    change (step (MValue stk) 91) with (Next (MListStart stk)). cbv iota.
    rewrite feed_newline_indent by auto with ws.
    rewrite feed_first_item, (IHx Hx).
    apply (feed_items level r stk xs IHxs Hxs []).
  - destruct d as [|[k x] xs]; [reflexivity|].
    simpl in Hok. apply andb_true_iff in Hok. destruct Hok as [Hd Hok].
    apply andb_true_iff in Hok. destruct Hok as [Hkx Hxs].
    apply andb_true_iff in Hkx. destruct Hkx as [Hk Hx].
    inversion IH as [|? ? IHx IHxs]; subst. simpl in IHx.
    rewrite dumps_at_dict. right_nested. rewrite feed_cons.
    change (step (MValue stk) 123) with (Next (MDictStart stk)). cbv iota.
    rewrite feed_newline_indent by auto with ws.
    rewrite feed_first_key by assumption.
    rewrite (IHx Hx).
    apply (feed_members level r stk xs IHxs Hxs [] k x). exact Hd.
Qed.

End RoundTrip.

(** [json.loads(json.dumps(v, indent=2)) == v] *)
Lemma loads_dumps v : json_ok v = true -> loads (dumps v) = Ok v.
Proof.
  intros H. unfold loads, dumps.
  assert (feed (dumps_at 0 v) (MValue []) = Some (MAfter v [])) as F.
  { rewrite <- (app_nil_r (dumps_at 0 v)). now rewrite (feed_dumps v H). }
  rewrite <- (app_nil_r (dumps_at 0 v)), (run_feed _ _ _ [] F). reflexivity.
Qed.

(** ** Values that stay well formed *)

Lemma keys_dict_set {V} k (v : V) (d : dict V) :
  List.map fst (dict_set k v d) =
  if dict_has k d then List.map fst d else List.map fst d ++ [k].
Proof.
  unfold dict_has. induction d as [|[k' v'] r IH]; simpl; [reflexivity|].
  destruct (str_eqb k k'); simpl; [reflexivity|].
  rewrite IH. destruct (dict_get k r); reflexivity.
Qed.

Lemma distinct_dict_set {V} k (v : V) (d : dict V) :
  distinct (List.map fst d) = true ->
  distinct (List.map fst (dict_set k v d)) = true.
Proof.
  intros H. rewrite keys_dict_set. unfold dict_has.
  destruct (dict_get k d) eqn:E; [assumption|].
  apply distinct_NoDup. apply distinct_NoDup in H.
  apply dict_get_none_notin in E.
  apply NoDup_rev in H. rewrite <- (rev_involutive (_ ++ _)).
  apply NoDup_rev. rewrite rev_app_distr. simpl. constructor; [|assumption].
  now rewrite <- in_rev.
Qed.

Lemma forallb_dict_set {V} (p : pystr * V -> bool) k v (d : dict V) :
  (forall k', k' = k -> p (k', v) = true) ->
  forallb p d = true -> forallb p (dict_set k v d) = true.
Proof.
  intros Hp. induction d as [|[k' v'] r IH]; simpl.
  - intros _. now rewrite Hp.
  - destruct (str_eqb k k') eqn:E; simpl; intros H;
      apply andb_true_iff in H; destruct H as [H1 H2].
    + apply str_eqb_eq in E. rewrite Hp by congruence. now rewrite H2.
    + now rewrite H1, IH.
Qed.

Lemma json_ok_dict_set k v d :
  json_ok (JDict d) = true -> str_ok k = true -> json_ok v = true ->
  json_ok (JDict (dict_set k v d)) = true.
Proof.
  simpl. intros H Hk Hv. apply andb_true_iff in H. destruct H as [H1 H2].
  apply andb_true_iff. split.
  - now apply distinct_dict_set.
  - apply forallb_dict_set; [|assumption].
    intros k' ->. simpl. now rewrite Hk, Hv.
Qed.

Lemma json_ok_dict_get k v d :
  json_ok (JDict d) = true -> dict_get k d = Some v -> json_ok v = true.
Proof.
  simpl. intros H. apply andb_true_iff in H. destruct H as [_ H].
  induction d as [|[k' v'] r IH]; simpl in *; [discriminate|].
  apply andb_true_iff in H. destruct H as [H1 H2].
  apply andb_true_iff in H1. destruct H1 as [_ H1].
  destruct (str_eqb k k'); [now intros [= <-] | now apply IH].
Qed.

Lemma json_ok_append l x :
  json_ok (JList l) = true -> json_ok x = true ->
  json_ok (JList (l ++ [x])) = true.
Proof.
  simpl. intros Hl Hx. rewrite forallb_app, Hl. simpl. now rewrite Hx.
Qed.

End JsonFacts.

(** ** What [loads] returns for decoded text is well formed *)

Module DecoderFacts.
Import Py Json PyFacts JsonFacts.

Lemma hexval_bound c d : hexval c = Some d -> d < 16.
Proof.
  unfold hexval.
  destruct ((48 <=? c) && (c <=? 57)) eqn:E1.
  { apply andb_true_iff in E1. destruct E1 as [H1 H2].
    apply N.leb_le in H1. apply N.leb_le in H2. intros [= <-]. lia. }
  destruct ((97 <=? c) && (c <=? 102)) eqn:E2.
  { apply andb_true_iff in E2. destruct E2 as [H1 H2].
    apply N.leb_le in H1. apply N.leb_le in H2. intros [= <-]. lia. }
  destruct ((65 <=? c) && (c <=? 70)) eqn:E3; [|discriminate].
  apply andb_true_iff in E3. destruct E3 as [H1 H2].
  apply N.leb_le in H1. apply N.leb_le in H2. intros [= <-]. lia.
Qed.

Lemma cp_ok_inv c :
  cp_ok c = true -> c < 0x110000 /\ is_high c = false /\ is_low c = false.
Proof.
  unfold cp_ok, is_surrogate, is_high, is_low. intros H.
  apply andb_true_iff in H. destruct H as [H1 H2].
  apply N.ltb_lt in H1. apply negb_true_iff in H2.
  split; [exact H1|]. revert H2. cmp; intros; try discriminate; cmp.
Qed.

Lemma high_not_low c : is_high c = true -> is_low c = false /\ c < 0x110000.
Proof. unfold is_high, is_low. cmp; intros; try discriminate; split; cmp. Qed.

Lemma str_ok_snoc acc c :
  str_ok acc = true -> c < 0x110000 ->
  (is_high (last acc 0) = false \/ is_low c = false) ->
  str_ok (acc ++ [c]) = true.
Proof.
  intros Hacc Hc. apply N.ltb_lt in Hc.
  induction acc as [|a r IH]; intros Hpair.
  - cbn [app str_ok]. now rewrite Hc, andb_false_r.
  - cbn [app str_ok] in *.
    apply andb_true_iff in Hacc. destruct Hacc as [Ha Hr].
    apply andb_true_iff in Ha. destruct Ha as [Ha1 Ha2].
    rewrite Ha1. destruct r as [|b r'].
    + cbn [app str_ok]. rewrite Hc, andb_false_r. cbn [andb negb].
      rewrite andb_true_r. cbn [last] in Hpair.
      destruct Hpair as [-> | ->]; [reflexivity|].
      now rewrite andb_false_r.
    + cbn [app]. cbn [app] in IH. rewrite Ha2. cbn [andb].
      apply IH; [exact Hr|]. exact Hpair.
Qed.

Lemma open_ok_snoc acc c :
  str_ok acc = true -> c < 0x110000 -> is_high c = false ->
  (is_high (last acc 0) = false \/ is_low c = false) ->
  open_ok (acc ++ [c]) = true.
Proof.
  intros H1 H2 H3 H4. unfold open_ok.
  rewrite str_ok_snoc, last_last, H3 by assumption. reflexivity.
Qed.

Lemma open_ok_inv acc :
  open_ok acc = true -> str_ok acc = true /\ is_high (last acc 0) = false.
Proof.
  unfold open_ok. intros H. apply andb_true_iff in H.
  destruct H as [H1 H2]. now apply negb_true_iff in H2.
Qed.

Lemma end_string_ok acc k :
  str_ok acc = true -> ctx_ok k = true -> mode_ok (end_string acc k) = true.
Proof.
  intros Ha Hk. destruct k as [stk|done stk]; cbn in *.
  - now rewrite Ha, Hk.
  - apply andb_true_iff in Hk. destruct Hk as [-> ->]. now rewrite Ha.
Qed.

Lemma in_string_ok acc k c m' :
  str_ok acc = true -> ctx_ok k = true -> cp_ok c = true ->
  (c = 92 -> is_high (last acc 0) = false) ->
  in_string acc k c = Next m' -> mode_ok m' = true.
Proof.
  intros Ha Hk Hc H92. unfold in_string.
  destruct (cp_ok_inv c Hc) as [C1 [C2 C3]].
  destruct (N.eqb_spec c 34); [intros [= <-]; now apply end_string_ok|].
  destruct (N.eqb_spec c 92) as [E|].
  - intros [= <-]. cbn. unfold open_ok. now rewrite Ha, (H92 E), Hk.
  - destruct (c <? 32); [discriminate|]. intros [= <-]. cbn [mode_ok acc_ok].
    rewrite open_ok_snoc, Hk; auto.
Qed.

Lemma in_escape_ok acc k c m' :
  str_ok acc = true -> ctx_ok k = true ->
  (c = 117 -> is_high (last acc 0) = false) ->
  in_escape acc k c = Next m' -> mode_ok m' = true.
Proof.
  intros Ha Hk H117. unfold in_escape.
  assert (forall x, x < 128 -> mode_ok (MStr (acc ++ [x]) None k) = true)
    as Hsimple.
  { intros x Hx. cbn [mode_ok acc_ok]. rewrite open_ok_snoc, Hk; auto.
    - lia.
    - unfold is_high. cmp.
    - right. unfold is_low. cmp. }
  repeat match goal with
         | |- context [if ?c =? ?x then _ else _] =>
           destruct (N.eqb_spec c x) as [?E|?]; 
           [intros [= <-]; try (apply Hsimple; lia)|]
         end; try discriminate.
  cbn [mode_ok acc_ok]. unfold open_ok. rewrite Ha, H117, Hk by assumption.
  reflexivity.
Qed.

Lemma join_surrogates_ok hi lo :
  is_high hi = true -> is_low lo = true ->
  let c := join_surrogates hi lo in
  c < 0x110000 /\ is_high c = false /\ is_low c = false.
Proof.
  unfold is_high, is_low, join_surrogates. intros H1 H2.
  apply andb_true_iff in H1. destruct H1 as [A1 A2].
  apply andb_true_iff in H2. destruct H2 as [B1 B2].
  apply N.leb_le in A1. apply N.leb_le in A2.
  apply N.leb_le in B1. apply N.leb_le in B2.
  cbv zeta. split; [lia|]. split; cmp.
Qed.

Lemma end_hex_ok acc pend v k :
  acc_ok acc pend = true -> ctx_ok k = true -> v < 65536 ->
  mode_ok (end_hex acc pend v k) = true.
Proof.
  intros Ha Hk Hv. unfold end_hex. destruct pend as [hi|]; cbn [acc_ok] in Ha.
  - apply andb_true_iff in Ha. destruct Ha as [Ha Hhi].
    destruct (high_not_low hi Hhi) as [Hl Hm].
    assert (str_ok (acc ++ [hi]) = true) as Hacc
        by (apply str_ok_snoc; auto).
    destruct (is_low v) eqn:Elo.
    + destruct (join_surrogates_ok hi v Hhi Elo) as [J1 [J2 J3]].
      cbn [mode_ok acc_ok]. rewrite open_ok_snoc, Hk; auto.
    + destruct (is_high v) eqn:Ehi.
      * cbn [mode_ok acc_ok]. now rewrite Hacc, Ehi, Hk.
      * cbn [mode_ok acc_ok].
        change (acc ++ [hi; v]) with (acc ++ [hi] ++ [v]).
        rewrite app_assoc, open_ok_snoc, Hk; auto. lia.
  - destruct (open_ok_inv acc Ha) as [H1 H2].
    destruct (is_high v) eqn:Ehi; cbn [mode_ok acc_ok].
    + now rewrite H1, Ehi, Hk.
    + rewrite open_ok_snoc, Hk; auto. lia.
Qed.

Lemma start_value_ok stk c m' :
  forallb frame_ok stk = true -> start_value stk c = Next m' ->
  mode_ok m' = true.
Proof.
  intros Hs. unfold start_value, bad.
  repeat match goal with
         | |- context [if ?c =? ?x then _ else _] =>
           destruct (c =? x); [intros [= <-]; cbn; now rewrite ?Hs|]
         end.
  destruct (is_digit c); discriminate.
Qed.

Lemma frames_cons fr stk :
  forallb frame_ok (fr :: stk) = frame_ok fr && forallb frame_ok stk.
Proof. reflexivity. Qed.

(** A step of the decoder on a character of decoded text keeps the mode
    well formed. *)
Lemma step_ok m c m' :
  mode_ok m = true -> cp_ok c = true -> step m c = Next m' ->
  mode_ok m' = true.
Proof.
  intros Hm Hc. destruct (cp_ok_inv c Hc) as [C1 [C2 C3]].
  destruct m as [stk | stk | stk | done stk | done key stk | v stk
                 | rest r stk | stk | acc pend k | acc k | acc hi k
                 | acc pend n val k]; cbn [mode_ok] in Hm; cbn [step].
  - destruct (is_ws c); [intros [= <-]; exact Hm|].
    now apply start_value_ok.
  - destruct (is_ws c); [intros [= <-]; exact Hm|].
    destruct (c =? 93); [intros [= <-]; cbn; exact Hm|].
    apply start_value_ok. cbn. exact Hm.
  - unfold bad. destruct (is_ws c); [intros [= <-]; exact Hm|].
    destruct (c =? 125); [intros [= <-]; cbn; exact Hm|].
    destruct (c =? 34); [intros [= <-]; cbn; exact Hm | discriminate].
  - unfold bad. destruct (is_ws c); [intros [= <-]; exact Hm|].
    destruct (c =? 34); [intros [= <-]; cbn [mode_ok acc_ok ctx_ok];
                         exact Hm | discriminate].
  - unfold bad. destruct (is_ws c); [intros [= <-]; exact Hm|].
    destruct (c =? 58); [intros [= <-] | discriminate].
    cbn [mode_ok]. rewrite frames_cons. cbn [frame_ok]. exact Hm.
  - unfold bad. destruct (is_ws c); [intros [= <-]; exact Hm|].
    apply andb_true_iff in Hm. destruct Hm as [Hv Hs].
    destruct stk as [|[done|done key] stk']; [discriminate| |];
      rewrite frames_cons in Hs; apply andb_true_iff in Hs;
      destruct Hs as [Hf Hs]; cbn [frame_ok] in Hf.
    + assert (forallb json_ok (done ++ [v]) = true) as Hd
          by (rewrite forallb_app, Hf; cbn; now rewrite Hv).
      destruct (c =? 44);
        [intros [= <-]; cbn [mode_ok]; rewrite frames_cons; cbn [frame_ok];
         now rewrite Hd, Hs|].
      destruct (c =? 93); [intros [= <-] | discriminate].
      cbn [mode_ok json_ok]. now rewrite Hd, Hs.
    + apply andb_true_iff in Hf. destruct Hf as [Hdone Hkey].
      pose proof (json_ok_dict_set key v done Hdone Hkey Hv) as Hd.
      destruct (c =? 44); [intros [= <-]; cbn [mode_ok]; now rewrite Hd, Hs|].
      destruct (c =? 125); [intros [= <-] | discriminate].
      cbn [mode_ok]. now rewrite Hd, Hs.
  - unfold bad. destruct rest as [|x rest']; [discriminate|].
    destruct (c =? x); [|discriminate].
    destruct rest' as [|y rest'']; [destruct r; [|discriminate]|];
      intros [= <-]; exact Hm.
  - unfold bad. destruct (is_digit c); [discriminate|].
    destruct (c =? 73); [intros [= <-]; cbn; exact Hm | discriminate].
  - apply andb_true_iff in Hm. destruct Hm as [Ha Hk].
    destruct pend as [hi|]; cbn [acc_ok] in Ha.
    + apply andb_true_iff in Ha. destruct Ha as [Ha Hhi].
      destruct (high_not_low hi Hhi) as [Hl Hmx].
      destruct (N.eqb_spec c 92).
      * intros [= <-]. cbn [mode_ok]. now rewrite Ha, Hhi, Hk.
      * apply in_string_ok; auto; [|contradiction].
        apply str_ok_snoc; auto.
    + destruct (open_ok_inv acc Ha) as [H1 H2].
      apply in_string_ok; auto.
  - apply andb_true_iff in Hm. destruct Hm as [Ha Hk].
    destruct (open_ok_inv acc Ha) as [H1 H2].
    apply in_escape_ok; auto.
  - apply andb_true_iff in Hm. destruct Hm as [Ha Hk].
    apply andb_true_iff in Ha. destruct Ha as [Ha Hhi].
    destruct (high_not_low hi Hhi) as [Hl Hmx].
    destruct (N.eqb_spec c 117).
    + intros [= <-]. cbn [mode_ok acc_ok hex_bound]. now rewrite Ha, Hhi, Hk.
    + apply in_escape_ok; auto; [|contradiction].
      apply str_ok_snoc; auto.
  - unfold bad. apply andb_true_iff in Hm. destruct Hm as [Ha Hb].
    apply andb_true_iff in Ha. destruct Ha as [Ha Hk].
    apply N.ltb_lt in Hb.
    destruct (hexval c) as [d|] eqn:Ed; [|discriminate].
    pose proof (hexval_bound c d Ed) as Hd.
    destruct n as [|[|[|[|[|n]]]]]; cbn [hex_bound] in Hb; try lia;
      intros [= <-].
    + apply end_hex_ok; auto. lia.
    + cbn [mode_ok pred hex_bound]. rewrite Ha, Hk. cbn [andb].
      apply N.ltb_lt. lia.
    + cbn [mode_ok pred hex_bound]. rewrite Ha, Hk. cbn [andb].
      apply N.ltb_lt. lia.
    + cbn [mode_ok pred hex_bound]. rewrite Ha, Hk. cbn [andb].
      apply N.ltb_lt. lia.
Qed.

(** What the decoder returns for decoded text survives a round trip. *)
Lemma run_ok s :
  forall m v,
    mode_ok m = true -> text_ok s = true -> run s m = Ok v ->
    json_ok v = true.
Proof.
  induction s as [|c s IH]; intros m v Hm Hs; cbn [run].
  - destruct m; try discriminate. destruct stk; [|discriminate].
    intros [= <-]. cbn in Hm. apply andb_true_iff in Hm. tauto.
  - cbn [text_ok forallb] in Hs. apply andb_true_iff in Hs.
    destruct Hs as [Hc Hs]. destruct (step m c) as [m'|e] eqn:E;
      [|discriminate].
    apply IH; [|exact Hs]. now apply (step_ok m c m').
Qed.

Lemma loads_ok text v :
  text_ok text = true -> loads text = Ok v -> json_ok v = true.
Proof. intros Ht. apply run_ok; [reflexivity | exact Ht]. Qed.

Lemma option_map_cons_some (c : N) (o : option pystr) t :
  option_map (cons c) o = Some t -> exists t', o = Some t' /\ t = c :: t'.
Proof. destruct o as [t'|]; [intros [= <-]; eauto | discriminate]. Qed.

Lemma is_cont_inv b : is_cont b = true -> 128 <= b <= 191.
Proof.
  unfold is_cont. intros H. apply andb_true_iff in H. destruct H as [H1 H2].
  apply N.leb_le in H1. apply N.leb_le in H2. lia.
Qed.

Lemma cp_ok_intro c :
  c < 0x110000 -> (c < 0xD800 \/ 0xDFFF < c) -> cp_ok c = true.
Proof. intros H1 H2. unfold cp_ok, is_surrogate. cmp. Qed.

(** Text decoded from UTF-8 holds no surrogate and nothing above
    U+10FFFF. *)
Lemma utf8_decode_ok :
  forall n bs t,
    (List.length bs <= n)%nat -> utf8_decode bs = Some t -> text_ok t = true.
Proof.
  induction n as [|n IH]; intros bs t Hlen.
  - destruct bs; [intros [= <-]; reflexivity | simpl in Hlen; lia].
  - destruct bs as [|b0 r]; [intros [= <-]; reflexivity|].
    simpl in Hlen. cbn [utf8_decode].
    destruct (N.ltb_spec b0 128) as [H0|H0].
    { intros H. apply option_map_cons_some in H. destruct H as [t' [H ->]].
      cbn [text_ok forallb]. rewrite cp_ok_intro by lia.
      apply (IH r t'); [lia | exact H]. }
    destruct ((194 <=? b0) && (b0 <=? 223)) eqn:E2.
    { apply andb_true_iff in E2. destruct E2 as [A1 A2].
      apply N.leb_le in A1. apply N.leb_le in A2.
      destruct r as [|b1 r1]; [discriminate|].
      destruct (is_cont b1) eqn:C1; [|discriminate].
      apply is_cont_inv in C1. simpl in Hlen.
      intros H. apply option_map_cons_some in H. destruct H as [t' [H ->]].
      cbn [text_ok forallb]. rewrite cp_ok_intro by lia.
      apply (IH r1 t'); [lia | exact H]. }
    destruct ((224 <=? b0) && (b0 <=? 239)) eqn:E3.
    { apply andb_true_iff in E3. destruct E3 as [A1 A2].
      apply N.leb_le in A1. apply N.leb_le in A2.
      destruct r as [|b1 [|b2 r2]]; try discriminate.
      match goal with
      | |- (if ?c then _ else _) = _ -> _ => destruct c eqn:C; [|discriminate]
      end.
      apply andb_true_iff in C. destruct C as [C Cd].
      apply andb_true_iff in C. destruct C as [C Ce].
      apply andb_true_iff in C. destruct C as [C1 C2].
      apply is_cont_inv in C1. apply is_cont_inv in C2.
      apply negb_true_iff in Cd. apply negb_true_iff in Ce.
      simpl in Hlen.
      intros H. apply option_map_cons_some in H. destruct H as [t' [H ->]].
      cbn [text_ok forallb]. rewrite cp_ok_intro.
      - apply (IH r2 t'); [lia | exact H].
      - lia.
      - revert Cd. cmp; intros; try discriminate; lia. }
    destruct ((240 <=? b0) && (b0 <=? 244)) eqn:E4; [|discriminate].
    apply andb_true_iff in E4. destruct E4 as [A1 A2].
    apply N.leb_le in A1. apply N.leb_le in A2.
    destruct r as [|b1 [|b2 [|b3 r3]]]; try discriminate.
    match goal with
    | |- (if ?c then _ else _) = _ -> _ => destruct c eqn:C; [|discriminate]
    end.
    apply andb_true_iff in C. destruct C as [C Cd].
    apply andb_true_iff in C. destruct C as [C Ce].
    apply andb_true_iff in C. destruct C as [C C3].
    apply andb_true_iff in C. destruct C as [C1 C2].
    apply is_cont_inv in C1. apply is_cont_inv in C2. apply is_cont_inv in C3.
    apply negb_true_iff in Cd. apply negb_true_iff in Ce.
    simpl in Hlen.
    intros H. apply option_map_cons_some in H. destruct H as [t' [H ->]].
    cbn [text_ok forallb]. rewrite cp_ok_intro.
    + apply (IH r3 t'); [lia | exact H].
    + revert Cd. cmp; intros; try discriminate; lia.
    + right. revert Ce. cmp; intros; try discriminate; lia.
Qed.

Lemma decode_ok bs t : decode bs = Ok t -> text_ok t = true.
Proof.
  unfold decode. destruct (utf8_decode _) as [t'|] eqn:E; [|discriminate].
  intros [= <-]. eapply utf8_decode_ok; [|exact E]. apply Nat.le_refl.
Qed.

End DecoderFacts.

(** ** What [dumps] writes is ASCII, and survives the file *)

Module TextFacts.
Import Py Json PyFacts JsonFacts.

Lemma ascii_app a b : ascii_text a -> ascii_text b -> ascii_text (a ++ b).
Proof. intros Ha Hb. apply Forall_app. now split. Qed.

Lemma ascii_cons c s : c < 128 -> ascii_text s -> ascii_text (c :: s).
Proof. now constructor. Qed.

Lemma hexdigit_ascii n : hexdigit (n mod 16) < 128.
Proof.
  pose proof (N.mod_lt n 16 ltac:(lia)) as H.
  generalize dependent (n mod 16). intros x H. unfold hexdigit.
  destruct (x <? 10); lia.
Qed.

Lemma hex4_ascii v : ascii_text (hex4 v).
Proof. unfold hex4. repeat constructor; apply hexdigit_ascii. Qed.

Lemma escape_char_ascii c : ascii_text (escape_char c).
Proof.
  unfold escape_char.
  destruct (c =? 34); [repeat constructor; lia|].
  destruct (c =? 92); [repeat constructor; lia|].
  destruct (c =? 10); [repeat constructor; lia|].
  destruct (c =? 13); [repeat constructor; lia|].
  destruct (c =? 9); [repeat constructor; lia|].
  destruct (c =? 12); [repeat constructor; lia|].
  destruct (c =? 8); [repeat constructor; lia|].
  destruct ((32 <=? c) && (c <=? 126)) eqn:Hp.
  - apply andb_true_iff in Hp. destruct Hp as [_ H].
    apply N.leb_le in H. repeat constructor. lia.
  - destruct (c <? 65536).
    + do 2 (apply ascii_cons; [lia|]). apply hex4_ascii.
    + cbv zeta. do 2 (apply ascii_cons; [lia|]).
      apply ascii_app; [apply hex4_ascii|].
      do 2 (apply ascii_cons; [lia|]). apply hex4_ascii.
Qed.

Lemma encode_basestring_ascii_ascii s :
  ascii_text (encode_basestring_ascii s).
Proof.
  unfold encode_basestring_ascii. apply ascii_cons; [lia|].
  apply ascii_app; [|repeat constructor; lia].
  induction s as [|c s IH]; simpl; [constructor|].
  apply ascii_app; [apply escape_char_ascii | exact IH].
Qed.

Lemma newline_indent_ascii n : ascii_text (newline_indent n).
Proof.
  unfold newline_indent. apply ascii_cons; [lia|].
  induction (2 * n)%nat; simpl; constructor; [lia | assumption].
Qed.

Lemma flat_map_ascii {A} (f : A -> pystr) (xs : list A) :
  Forall (fun x => ascii_text (f x)) xs -> ascii_text (flat_map f xs).
Proof.
  induction 1; simpl; [constructor | now apply ascii_app].
Qed.

Lemma dumps_at_ascii : forall v level, ascii_text (dumps_at level v).
Proof.
  induction v as [ | b | s | l IH | d IH] using json_ind; intros level.
  - repeat constructor; lia.
  - destruct b; repeat constructor; lia.
  - apply encode_basestring_ascii_ascii.
  - destruct l as [|x xs]; [repeat constructor; lia|].
    inversion IH as [|? ? IHx IHxs]; subst.
    rewrite dumps_at_list. apply ascii_cons; [lia|].
    repeat apply ascii_app; auto using newline_indent_ascii.
    + apply flat_map_ascii. eapply Forall_impl; [|exact IHxs].
      intros y Hy. cbv beta. apply ascii_cons; [lia|].
      apply ascii_app; auto using newline_indent_ascii.
    + repeat constructor; lia.
  - destruct d as [|[k x] xs]; [repeat constructor; lia|].
    inversion IH as [|? ? IHx IHxs]; subst. simpl in IHx.
    rewrite dumps_at_dict. apply ascii_cons; [lia|].
    repeat apply ascii_app;
      auto using newline_indent_ascii, encode_basestring_ascii_ascii.
    repeat apply ascii_cons; try lia.
    repeat apply ascii_app; auto using newline_indent_ascii.
    + apply flat_map_ascii. eapply Forall_impl; [|exact IHxs].
      intros [k' y] Hy. cbn [fst snd] in *. apply ascii_cons; [lia|].
      repeat apply ascii_app;
        auto using newline_indent_ascii, encode_basestring_ascii_ascii.
      repeat apply ascii_cons; try lia. apply Hy.
    + repeat constructor; lia.
Qed.

Lemma utf8_encode_ascii s : ascii_text s -> utf8_encode s = Some s.
Proof.
  induction 1 as [|c s Hc _ IH]; simpl; [reflexivity|].
  unfold utf8_encode_cp. apply N.ltb_lt in Hc. rewrite Hc, IH. reflexivity.
Qed.

Lemma utf8_decode_ascii s : ascii_text s -> utf8_decode s = Some s.
Proof.
  induction 1 as [|c s Hc _ IH]; simpl; [reflexivity|].
  apply N.ltb_lt in Hc. rewrite Hc, IH. reflexivity.
Qed.

Lemma bytes_of_N_ascii s :
  ascii_text s -> exists bs, bytes_of_N s = Some bs /\ List.map Byte.to_N bs = s.
Proof.
  induction 1 as [|c s Hc _ [bs [E1 E2]]]; simpl.
  - exists []. auto.
  - destruct (Byte.of_N c) as [b|] eqn:Eb.
    + exists (b :: bs). rewrite E1. split; [reflexivity|].
      simpl. rewrite E2. f_equal. now apply Byte.to_of_N.
    + apply Byte.of_N_None_iff in Eb. lia.
Qed.

(** Text of ASCII characters is written to bytes that read back as it. *)
Lemma encode_decode_ascii s :
  ascii_text s -> exists bs, encode s = Ok bs /\ decode bs = Ok s.
Proof.
  intros H. destruct (bytes_of_N_ascii s H) as [bs [E1 E2]].
  exists bs. unfold encode, decode.
  rewrite utf8_encode_ascii, E1, E2, utf8_decode_ascii by assumption. auto.
Qed.

End TextFacts.

(* ===================================================================== *)
(** * Facts about [tui/utils/state.py]                                    *)
(* ===================================================================== *)

Module StateFacts.
Import Py Json State PyFacts JsonFacts DecoderFacts TextFacts.

Lemma save_state_run st f :
  exists bs,
    save_state st f = (Ok tt, mkfs (Some bs) (S (writes f)))
    /\ decode bs = Ok (dumps st).
Proof.
  destruct (encode_decode_ascii (dumps st) (dumps_at_ascii st 0%nat))
    as [bs [E D]].
  exists bs. unfold save_state, write_text. now rewrite E.
Qed.

Lemma save_state_ok st f : outcome (save_state st f) = Ok tt.
Proof. destruct (save_state_run st f) as [bs [-> _]]. reflexivity. Qed.

Lemma save_state_holds st f : holds (state_after (save_state st f)) st.
Proof.
  destruct (save_state_run st f) as [bs [-> D]]. exists bs. auto.
Qed.

Lemma save_state_writes st f :
  writes (state_after (save_state st f)) = S (writes f).
Proof. destruct (save_state_run st f) as [bs [-> _]]. reflexivity. Qed.

(** The file is determined by the state that was saved. *)
Lemma save_state_file st f g :
  file (state_after (save_state st f)) = file (state_after (save_state st g)).
Proof.
  unfold save_state, write_text. destruct (encode (dumps st)); reflexivity.
Qed.

Lemma load_state_frame f : state_after (load_state f) = f.
Proof.
  unfold load_state, mbind, read_text, lift.
  destruct (file_exists f); [|reflexivity].
  destruct (file f); [|reflexivity].
  destruct (decode l) as [t|e]; [|destruct e; reflexivity].
  destruct (loads t) as [v|e]; [|destruct e]; reflexivity.
Qed.

Lemma load_state_absent f : file f = None -> load_state f = (Ok empty_state, f).
Proof. intros H. unfold load_state, file_exists. now rewrite H. Qed.

Lemma load_state_text f bs text :
  file f = Some bs -> decode bs = Ok text ->
  load_state f =
  match loads text with
  | Raise JSONDecodeError => (Ok empty_state, f)
  | Raise (IOError _) => (Ok empty_state, f)
  | r => (r, f)
  end.
Proof.
  intros Hf Hd. unfold load_state, file_exists, mbind, read_text, lift.
  rewrite Hf, Hd. destruct (loads text) as [v|e]; [|destruct e]; reflexivity.
Qed.

Lemma load_state_holds f st :
  holds f st -> json_ok st = true -> load_state f = (Ok st, f).
Proof.
  intros [bs [Hf Hd]] Hok.
  rewrite (load_state_text f bs (dumps st) Hf Hd), loads_dumps by assumption.
  reflexivity.
Qed.

(** What [load_state] returns after [save_state]. *)
Lemma load_after_save st f :
  json_ok st = true ->
  load_state (state_after (save_state st f))
  = (Ok st, state_after (save_state st f)).
Proof. intros H. apply load_state_holds; [apply save_state_holds | exact H]. Qed.

Lemma forallb_remove_first (p : json -> bool) x l l' :
  remove_first x l = Some l' -> forallb p l = true -> forallb p l' = true.
Proof.
  revert l'. induction l as [|y r IH]; simpl; intros l'; [discriminate|].
  destruct (json_eqb y x).
  - intros [= <-] H. apply andb_true_iff in H. tauto.
  - destruct (remove_first x r) as [r'|]; simpl; [|discriminate].
    intros [= <-] H. apply andb_true_iff in H. destruct H as [H1 H2].
    simpl. now rewrite H1, (IH r').
Qed.

Lemma remove_first_present x l :
  existsb (json_eqb x) l = true -> exists l', remove_first x l = Some l'.
Proof.
  induction l as [|y r IH]; simpl; [discriminate|].
  destruct (json_eqb y x) eqn:E; [eauto|].
  intros H. apply orb_true_iff in H. destruct H as [H|H].
  - apply json_eqb_eq in H. subst. now rewrite json_eqb_refl in E.
  - destruct (IH H) as [l' ->]. simpl. eauto.
Qed.

(** Whatever [load_state] returns survives a round trip through the file. *)
Lemma load_state_ok f st : load_state f = (Ok st, f) -> json_ok st = true.
Proof.
  unfold load_state, file_exists, mbind, read_text, lift.
  destruct (file f) as [bs|]; [|intros [= <-]; reflexivity].
  destruct (decode bs) as [t|e] eqn:Ed.
  2: { unfold decode in Ed. destruct (utf8_decode _); [discriminate|].
       injection Ed as <-. discriminate. }
  pose proof (decode_ok bs t Ed) as Ht.
  destruct (loads t) as [v|e] eqn:El.
  - intros [= <-]. now apply (loads_ok t v).
  - destruct e; try discriminate; intros [= <-]; reflexivity.
Qed.

(** ** The functions of [state.py] on a file that loads *)

Lemma str_ok_key : str_ok key = true.
Proof. reflexivity. Qed.

Lemma mark_installed_loaded id f st :
  load_state f = (Ok st, f) ->
  mark_installed id f =
  match py_get st key (JList []) with
  | Raise e => (Raise e, f)
  | Ok inst =>
    match py_in id inst with
    | Raise e => (Raise e, f)
    | Ok true => (Ok tt, f)
    | Ok false =>
      match py_setdefault st key (JList []) with
      | Raise e => (Raise e, f)
      | Ok slot =>
        match py_append (fst slot) (JStr id) with
        | Raise e => (Raise e, f)
        | Ok appended => save_state (store_back (snd slot) key appended) f
        end
      end
    end
  end.
Proof.
  intros H. unfold mark_installed, mbind, lift. rewrite H. fold key.
  destruct (py_get st key (JList [])) as [inst|]; [|reflexivity].
  destruct (py_in id inst) as [[|]|]; try reflexivity.
  all: cbn [negb]; destruct (py_setdefault st key (JList [])) as [slot|];
    [|reflexivity].
  all: destruct (py_append (fst slot) (JStr id)); reflexivity.
Qed.

Lemma mark_uninstalled_loaded id f st :
  load_state f = (Ok st, f) ->
  mark_uninstalled id f =
  match py_get st key (JList []) with
  | Raise e => (Raise e, f)
  | Ok inst =>
    match py_in id inst with
    | Raise e => (Raise e, f)
    | Ok false => (Ok tt, f)
    | Ok true =>
      match py_getitem st key with
      | Raise e => (Raise e, f)
      | Ok slot =>
        match py_remove slot (JStr id) with
        | Raise e => (Raise e, f)
        | Ok removed => save_state (store_back st key removed) f
        end
      end
    end
  end.
Proof.
  intros H. unfold mark_uninstalled, mbind, lift. rewrite H. fold key.
  destruct (py_get st key (JList [])) as [inst|]; [|reflexivity].
  destruct (py_in id inst) as [[|]|]; try reflexivity.
  all: destruct (py_getitem st key) as [slot|]; [|reflexivity].
  all: destruct (py_remove slot (JStr id)); reflexivity.
Qed.

Lemma get_installed_loaded f st :
  load_state f = (Ok st, f) ->
  get_installed f =
  match py_get st key (JList []) with
  | Raise e => (Raise e, f)
  | Ok inst => (py_set inst, f)
  end.
Proof.
  intros H. unfold get_installed, mbind, lift. rewrite H. fold key.
  destruct (py_get st key (JList [])); reflexivity.
Qed.

(** When a call raises before it loads, nothing is written either. *)
Lemma mark_installed_raises id f e :
  load_state f = (Raise e, f) -> mark_installed id f = (Raise e, f).
Proof. intros H. unfold mark_installed, mbind. now rewrite H. Qed.

Lemma load_state_shape f : exists r, load_state f = (r, f).
Proof.
  exists (outcome (load_state f)). rewrite <- (load_state_frame f) at 3.
  unfold outcome, state_after. now destruct (load_state f).
Qed.

Lemma set_mem_dedupe x l : set_mem x (dedupe l) = existsb (json_eqb x) l.
Proof.
  unfold set_mem. induction l as [|y r IH]; simpl; [reflexivity|].
  destruct (existsb (json_eqb y) r) eqn:E; simpl.
  - rewrite IH. destruct (json_eqb x y) eqn:Exy; [|reflexivity].
    apply json_eqb_eq in Exy. subst. now rewrite E.
  - now rewrite IH.
Qed.

Lemma dict_set_set {V} k (v v' : V) (d : dict V) :
  dict_set k v (dict_set k v' d) = dict_set k v d.
Proof.
  induction d as [|[k0 v0] r IH]; simpl.
  - now rewrite str_eqb_refl.
  - destruct (str_eqb k k0) eqn:E; simpl; rewrite E; [reflexivity|].
    now rewrite IH.
Qed.

Lemma dict_set_get {V} k (v : V) (d : dict V) :
  dict_get k d = Some v -> dict_set k v d = d.
Proof.
  induction d as [|[k0 v0] r IH]; simpl; [discriminate|].
  destruct (str_eqb k k0); [now intros [= ->] | intros H; now rewrite IH].
Qed.

Lemma json_eqb_sym a b : json_eqb a b = json_eqb b a.
Proof.
  destruct (json_eqb b a) eqn:E.
  - apply json_eqb_eq in E. subst. apply json_eqb_refl.
  - apply not_true_iff_false. intros H. apply json_eqb_eq in H. subst.
    now rewrite json_eqb_refl in E.
Qed.

Lemma remove_first_absent x l :
  existsb (json_eqb x) l = false -> remove_first x l = None.
Proof.
  induction l as [|y r IH]; cbn [existsb remove_first]; [reflexivity|].
  intros H. apply orb_false_iff in H. destruct H as [H1 H2].
  rewrite json_eqb_sym, H1, (IH H2). reflexivity.
Qed.

(** What one call of [mark_installed] does to a file that holds an object. *)
Lemma mark_installed_dict id f d :
  load_state f = (Ok (JDict d), f) ->
  match installed_of d with
  | JList l =>
    if existsb (json_eqb (JStr id)) l then mark_installed id f = (Ok tt, f)
    else mark_installed id f =
         save_state (JDict (dict_set key (JList (l ++ [JStr id])) d)) f
  | v =>
    match py_in id v with
    | Ok true => mark_installed id f = (Ok tt, f)
    | _ => exists e, mark_installed id f = (Raise e, f)
    end
  end.
Proof.
  intros H. rewrite (mark_installed_loaded id f _ H).
  unfold installed_of, py_get, py_setdefault.
  destruct (dict_get key d) as [v|] eqn:E.
  - destruct v as [ | b | s | l | d']; cbn [py_in];
      try (eexists; reflexivity).
    + destruct (substring id s); [reflexivity | eexists; reflexivity].
    + destruct (existsb (json_eqb (JStr id)) l); reflexivity.
    + destruct (dict_has id d'); [reflexivity | eexists; reflexivity].
  - cbn [py_in existsb fst snd py_append store_back app].
    now rewrite dict_set_set.
Qed.

Lemma mark_uninstalled_dict id f d :
  load_state f = (Ok (JDict d), f) ->
  match installed_of d with
  | JList l =>
    match remove_first (JStr id) l with
    | Some l' =>
      mark_uninstalled id f = save_state (JDict (dict_set key (JList l') d)) f
    | None => mark_uninstalled id f = (Ok tt, f)
    end
  | v =>
    match py_in id v with
    | Ok false => mark_uninstalled id f = (Ok tt, f)
    | _ => exists e, mark_uninstalled id f = (Raise e, f)
    end
  end.
Proof.
  intros H. rewrite (mark_uninstalled_loaded id f _ H).
  unfold installed_of, py_get, py_getitem.
  destruct (dict_get key d) as [v|] eqn:E.
  - destruct v as [ | b | s | l | d']; cbn [py_in];
      try (eexists; reflexivity).
    + destruct (substring id s); [eexists; reflexivity | reflexivity].
    + destruct (existsb (json_eqb (JStr id)) l) eqn:El.
      * destruct (remove_first_present _ _ El) as [l' Hl'].
        cbn [py_remove store_back]. now rewrite Hl'.
      * now rewrite (remove_first_absent _ _ El).
    + destruct (dict_has id d'); [eexists; reflexivity | reflexivity].
  - reflexivity.
Qed.

Lemma installed_of_set v d : installed_of (dict_set key v d) = v.
Proof. unfold installed_of. now rewrite dict_get_set_same. Qed.

Lemma json_ok_installed_of d :
  json_ok (JDict d) = true -> json_ok (installed_of d) = true.
Proof.
  intros H. unfold installed_of. destruct (dict_get key d) eqn:E.
  - eapply json_ok_dict_get; eauto.
  - reflexivity.
Qed.

(** One call of [mark_installed] on a file that holds an object leaves the
    file alone, or writes the object with the identifier added at the end of
    its list. *)
Lemma mark_installed_effect id f d :
  load_state f = (Ok (JDict d), f) -> str_ok id = true ->
  let once := state_after (mark_installed id f) in
  once = f
  \/ exists l,
       installed_of d = JList l
       /\ existsb (json_eqb (JStr id)) l = false
       /\ writes once = S (writes f)
       /\ load_state once =
          (Ok (JDict (dict_set key (JList (l ++ [JStr id])) d)), once).
Proof.
  intros Hload Hid once.
  pose proof (load_state_ok f _ Hload) as Hok.
  pose proof (mark_installed_dict id f d Hload) as H.
  pose proof (json_ok_installed_of d Hok) as Hin.
  destruct (installed_of d) as [ | b | s | l | d'] eqn:E.
  - left. destruct H as [e H]. subst once. now rewrite H.
  - left. destruct H as [e H]. subst once. now rewrite H.
  - left. cbn [py_in] in H. subst once.
    destruct (substring id s); [|destruct H as [e H]]; now rewrite H.
  - destruct (existsb (json_eqb (JStr id)) l) eqn:El.
    + left. subst once. now rewrite H.
    + right. exists l. subst once. rewrite H.
      split; [reflexivity|]. split; [assumption|].
      split; [apply save_state_writes|].
      apply load_after_save. apply json_ok_dict_set; auto using str_ok_key.
      apply json_ok_append; assumption.
  - left. cbn [py_in] in H. subst once.
    destruct (dict_has id d'); [|destruct H as [e H]]; now rewrite H.
Qed.

(** C8: [mark_installed] is idempotent.  On every state file that loads
    and for every identifier (a string in which no high surrogate is
    directly followed by a low one), a second call leaves the file as the
    first call left it and does not write, so [get_installed] returns the
    same set after two calls as after one; the identifier is added to the
    stored list at most once. *)
Theorem C8_mark_installed_idempotent (f : fs) (st : json) (id : pystr) :
  load_state f = (Ok st, f) -> str_ok id = true ->
  let once := state_after (mark_installed id f) in
  let twice := state_after (mark_installed id once) in
  twice = once
  /\ outcome (get_installed twice) = outcome (get_installed once)
  /\ forall d l,
       st = JDict d -> dict_get key d = Some (JList l) ->
       load_state twice =
       (Ok (JDict (dict_set key
                     (JList (if existsb (json_eqb (JStr id)) l
                             then l else l ++ [JStr id])) d)), twice).
Proof.
  intros Hload Hid once twice.
  assert (twice = once
          /\ forall d l,
               st = JDict d -> dict_get key d = Some (JList l) ->
               load_state once =
               (Ok (JDict (dict_set key
                             (JList (if existsb (json_eqb (JStr id)) l
                                     then l else l ++ [JStr id])) d)), once))
    as [Heq Hlist].
  { destruct st as [ | b | s | l0 | d];
      try (subst twice once;
           rewrite (mark_installed_loaded id f _ Hload); cbn;
           rewrite (mark_installed_loaded id f _ Hload); cbn;
           split; [reflexivity | discriminate]).
    pose proof (mark_installed_dict id f d Hload) as Hcase.
    destruct (mark_installed_effect id f d Hload Hid)
      as [Hsame | [l [Hl [Hnew [_ Hl']]]]].
    - fold once in Hsame.
      split; [subst twice; now rewrite Hsame|].
      intros d0 l0 [= <-] Hget. rewrite Hsame.
      unfold installed_of in Hcase. rewrite Hget in Hcase.
      destruct (existsb (json_eqb (JStr id)) l0) eqn:El.
      + now rewrite (dict_set_get _ _ _ Hget).
      + exfalso. apply (f_equal writes) in Hsame. subst once.
        rewrite Hcase, save_state_writes in Hsame. lia.
    - fold once in Hl'.
      pose proof (mark_installed_dict id once _ Hl') as H2.
      rewrite installed_of_set in H2.
      rewrite existsb_app in H2. cbn [existsb] in H2.
      rewrite json_eqb_refl, orb_true_r in H2.
      split; [subst twice; now rewrite H2|].
      intros d0 l0 [= <-] Hget. unfold installed_of in Hl.
      rewrite Hget in Hl. injection Hl as <-. now rewrite Hnew. }
  repeat split.
  - exact Heq.
  - now rewrite Heq.
  - intros d l Hd Hg. rewrite Heq. now apply Hlist.
Qed.

(** C8 at the first run: no file yet, and [claude] is marked twice. *)
Lemma C8_mark_installed_idempotent_witness :
  let f := mkfs None 0 in
  let once := state_after (mark_installed (lit "claude") f) in
  let twice := state_after (mark_installed (lit "claude") once) in
  twice = once
  /\ outcome (get_installed twice) = outcome (get_installed once)
  /\ forall d l,
       empty_state = JDict d -> dict_get key d = Some (JList l) ->
       load_state twice =
       (Ok (JDict (dict_set key
                     (JList (if existsb (json_eqb (JStr (lit "claude"))) l
                             then l else l ++ [JStr (lit "claude")])) d)),
        twice).
Proof.
  exact (C8_mark_installed_idempotent (mkfs None 0) empty_state (lit "claude")
           eq_refl eq_refl).
Defined.

Lemma json_ok_remove_first x l l' :
  remove_first x l = Some l' -> json_ok (JList l) = true ->
  json_ok (JList l') = true.
Proof. simpl. apply forallb_remove_first. Qed.

(** One call of [mark_uninstalled]: the file is left alone, or the object is
    written with the first occurrence of the identifier removed. *)
Lemma mark_uninstalled_effect id f d :
  load_state f = (Ok (JDict d), f) ->
  let once := state_after (mark_uninstalled id f) in
  once = f
  \/ exists l l',
       installed_of d = JList l
       /\ remove_first (JStr id) l = Some l'
       /\ writes once = S (writes f)
       /\ load_state once = (Ok (JDict (dict_set key (JList l') d)), once).
Proof.
  intros Hload once.
  pose proof (load_state_ok f _ Hload) as Hok.
  pose proof (mark_uninstalled_dict id f d Hload) as H.
  pose proof (json_ok_installed_of d Hok) as Hin.
  destruct (installed_of d) as [ | b | s | l | d'] eqn:E.
  - left. destruct H as [e H]. subst once. now rewrite H.
  - left. destruct H as [e H]. subst once. now rewrite H.
  - left. cbn [py_in] in H. subst once.
    destruct (substring id s); [destruct H as [e H]|]; now rewrite H.
  - destruct (remove_first (JStr id) l) as [l'|] eqn:El.
    + right. exists l, l'. subst once. rewrite H.
      split; [reflexivity|]. split; [assumption|].
      split; [apply save_state_writes|].
      apply load_after_save. apply json_ok_dict_set; auto using str_ok_key.
      eapply json_ok_remove_first; eauto.
    + left. subst once. now rewrite H.
  - left. cbn [py_in] in H. subst once.
    destruct (dict_has id d'); [destruct H as [e H]|]; now rewrite H.
Qed.

(** C10: [mark_installed] and [mark_uninstalled] change at most the
    ["installed"] entry of the stored object.  After either call the file
    loads as the object it held before, or as that object with a new value
    under ["installed"]: every other key keeps its value and its place.
    When the identifier is already there (for [mark_installed]) or is not
    there (for [mark_uninstalled]) the file is not written at all. *)
Theorem C10_marks_change_only_installed (f : fs) (d : jdict) (id : pystr) :
  load_state f = (Ok (JDict d), f) -> str_ok id = true ->
  forall op, op = mark_installed \/ op = mark_uninstalled ->
  let after := state_after (op id f) in
  (exists d',
     load_state after = (Ok (JDict d'), after)
     /\ (d' = d \/ exists v, d' = dict_set key v d)
     /\ forall k, k <> key -> dict_get k d' = dict_get k d)
  /\ (op = mark_installed ->
      py_in id (installed_of d) = Ok true -> after = f)
  /\ (op = mark_uninstalled ->
      py_in id (installed_of d) = Ok false -> after = f).
Proof.
  intros Hload Hid op Hop after.
  assert (after = f
          \/ exists v, load_state after = (Ok (JDict (dict_set key v d)), after))
    as Hafter.
  { destruct Hop as [-> | ->]; subst after.
    - destruct (mark_installed_effect id f d Hload Hid)
        as [H | [l [_ [_ [_ H]]]]]; eauto.
    - destruct (mark_uninstalled_effect id f d Hload)
        as [H | [l [l' [_ [_ [_ H]]]]]]; eauto. }
  split; [|split].
  - destruct Hafter as [-> | [v Hv]].
    + exists d. auto.
    + exists (dict_set key v d). split; [assumption|]. split; [eauto|].
      intros k Hk. apply dict_get_set_other. congruence.
  - intros -> Hin. subst after.
    pose proof (mark_installed_dict id f d Hload) as H.
    destruct (installed_of d) as [ | b | s | l | d']; cbn [py_in] in Hin, H;
      try discriminate.
    + replace (substring id s) with true in H by congruence. now rewrite H.
    + replace (existsb (json_eqb (JStr id)) l) with true in H by congruence.
      now rewrite H.
    + replace (dict_has id d') with true in H by congruence. now rewrite H.
  - intros -> Hin. subst after.
    pose proof (mark_uninstalled_dict id f d Hload) as H.
    destruct (installed_of d) as [ | b | s | l | d']; cbn [py_in] in Hin, H;
      try discriminate.
    + replace (substring id s) with false in H by congruence. now rewrite H.
    + assert (existsb (json_eqb (JStr id)) l = false) as Hl by congruence.
      rewrite (remove_first_absent _ _ Hl) in H. now rewrite H.
    + replace (dict_has id d') with false in H by congruence. now rewrite H.
Qed.

(** C10 on a file that holds [{"theme": "dark", "installed": ["fish"]}]:
    [claude] is marked installed. *)
Lemma C10_marks_change_only_installed_witness :
  let d := [(lit "theme", JStr (lit "dark"));
            (key, JList [JStr (lit "fish")])] in
  let f := state_after (save_state (JDict d) (mkfs None 0)) in
  let after := state_after (mark_installed (lit "claude") f) in
  (exists d',
     load_state after = (Ok (JDict d'), after)
     /\ (d' = d \/ exists v, d' = dict_set key v d)
     /\ forall k, k <> key -> dict_get k d' = dict_get k d)
  /\ (mark_installed = mark_installed ->
      py_in (lit "claude") (installed_of d) = Ok true -> after = f)
  /\ (mark_installed = mark_uninstalled ->
      py_in (lit "claude") (installed_of d) = Ok false -> after = f).
Proof.
  exact (C10_marks_change_only_installed
           (state_after
              (save_state
                 (JDict [(lit "theme", JStr (lit "dark"));
                         (key, JList [JStr (lit "fish")])]) (mkfs None 0)))
           [(lit "theme", JStr (lit "dark")); (key, JList [JStr (lit "fish")])]
           (lit "claude") eq_refl eq_refl
           mark_installed (or_introl eq_refl)).
Defined.

Lemma In_dedupe v l : In v (dedupe l) <-> In v l.
Proof.
  induction l as [|y r IH]; simpl; [tauto|].
  destruct (existsb (json_eqb y) r) eqn:E.
  - rewrite IH. split; [tauto|]. intros [<-|H]; [|assumption].
    apply existsb_exists in E. destruct E as [x [Hx Hxy]].
    apply json_eqb_eq in Hxy. now subst.
  - simpl. now rewrite IH.
Qed.

Lemma NoDup_dedupe l : NoDup (dedupe l).
Proof.
  induction l as [|y r IH]; simpl; [constructor|].
  destruct (existsb (json_eqb y) r) eqn:E; [assumption|].
  constructor; [|assumption]. rewrite In_dedupe. intros Hin.
  apply not_true_iff_false in E. apply E. apply existsb_exists.
  exists y. split; [assumption | apply json_eqb_refl].
Qed.

Lemma resave_loaded st f :
  load_state f = (Ok st, f) -> resave f = save_state st f.
Proof. intros H. unfold resave, mbind. now rewrite H. Qed.

(** C4, as it is stated, fails: a state file that holds the valid text
    [{"installed":[]}] loads as the empty state, and saving what was loaded
    replaces its bytes. *)
Lemma C4_resave_changes_bytes :
  let f := mkfs (Some compact_file) 0 in
  outcome (load_state f) = Ok empty_state
  /\ file (state_after (resave f)) <> file f.
Proof. split; [reflexivity | vm_compute; discriminate]. Qed.

(** C4, amended: whatever file [load_state] loads, saving what it returned
    writes a file that loads as the same state, and from then on saving
    what is loaded leaves the file byte-identical; and for every list of
    identifiers (strings in which no high surrogate is directly followed by
    a low one), [get_installed] after [save_state({"installed": ids})] is
    the set of these identifiers. *)
Theorem C4_save_load_round_trip
    (f : fs) (st : json) (ids : list pystr) (g : fs) :
  load_state f = (Ok st, f) -> forallb str_ok ids = true ->
  (let saved := state_after (resave f) in
   outcome (load_state saved) = Ok st
   /\ file (state_after (resave saved)) = file saved)
  /\ (let saved :=
        state_after
          (save_state (JDict [(key, JList (List.map JStr ids))]) g) in
      exists s,
        outcome (get_installed saved) = Ok s
        /\ NoDup s
        /\ forall v, In v s <-> In v (List.map JStr ids)).
Proof.
  intros Hload Hids. pose proof (load_state_ok f st Hload) as Hst. split.
  - intros saved. subst saved. rewrite (resave_loaded st f Hload).
    pose proof (load_after_save st f Hst) as Hl.
    split; [now rewrite Hl|].
    rewrite (resave_loaded st _ Hl). apply save_state_file.
  - intros saved.
    assert (json_ok (JDict [(key, JList (List.map JStr ids))]) = true) as Hok.
    { cbn [json_ok List.map fst snd forallb distinct existsb negb andb].
      rewrite str_ok_key. cbn [andb]. rewrite andb_true_r.
      induction ids as [|x r IH]; [reflexivity|].
      cbn [forallb List.map json_ok] in *.
      apply andb_true_iff in Hids. destruct Hids as [-> Hr]. now apply IH. }
    pose proof (load_after_save _ g Hok) as Hl. fold saved in Hl.
    exists (dedupe (List.map JStr ids)).
    rewrite (get_installed_loaded saved _ Hl).
    unfold py_get. cbn [dict_get]. rewrite str_eqb_refl. cbn [py_set].
    assert (forallb hashable (List.map JStr ids) = true) as ->.
    { clear. induction ids; simpl; auto. }
    split; [reflexivity|]. split; [apply NoDup_dedupe|].
    intros v. apply In_dedupe.
Qed.

(** C4 on the file of the counterexample and the identifiers of the
    specification, [claude] and [fish]. *)
Lemma C4_save_load_round_trip_witness :
  let f := mkfs (Some compact_file) 0 in
  let ids := [lit "claude"; lit "fish"] in
  (let saved := state_after (resave f) in
   outcome (load_state saved) = Ok empty_state
   /\ file (state_after (resave saved)) = file saved)
  /\ (let saved :=
        state_after
          (save_state (JDict [(key, JList (List.map JStr ids))])
                      (mkfs None 0)) in
      exists s,
        outcome (get_installed saved) = Ok s
        /\ NoDup s
        /\ forall v, In v s <-> In v (List.map JStr ids)).
Proof.
  exact (C4_save_load_round_trip
           (mkfs (Some compact_file) 0) empty_state
           [lit "claude"; lit "fish"] (mkfs None 0) eq_refl eq_refl).
Defined.

(** Why the identifiers are restricted: a string that holds the two
    surrogates U+D83D U+DE00 is written as two escapes and read back as the
    one character U+1F600. *)
Example surrogate_pair_is_joined :
  let saved :=
    state_after
      (save_state (JDict [(key, JList [JStr [0xD83D; 0xDE00]])])
                  (mkfs None 0)) in
  outcome (get_installed saved) = Ok [JStr [0x1F600]].
Proof. reflexivity. Qed.

(** ** What [load_state] makes of a missing or unreadable text *)

Lemma load_state_unparsable f bs text :
  file f = Some bs -> decode bs = Ok text ->
  loads text = Raise JSONDecodeError ->
  load_state f = (Ok empty_state, f).
Proof.
  intros Hf Hd Hl. now rewrite (load_state_text f bs text Hf Hd), Hl.
Qed.

Lemma get_installed_empty f :
  load_state f = (Ok empty_state, f) -> get_installed f = (Ok [], f).
Proof. intros H. now rewrite (get_installed_loaded f _ H). Qed.

(** C7 fails on a file whose bytes are not UTF-8: [read_text] raises
    [UnicodeDecodeError], which is neither of the two exceptions that
    [load_state] catches, so [load_state] and [get_installed] raise. *)
Theorem C7_undecodable_file_raises :
  let f := mkfs (Some [Byte.xff]) 0 in
  outcome (load_state f) = Raise UnicodeDecodeError
  /\ outcome (get_installed f) = Raise UnicodeDecodeError.
Proof. split; reflexivity. Qed.

(** A file that holds valid JSON that is not an object makes
    [get_installed] raise as well: here the text [[]]. *)
Example get_installed_of_list_raises :
  outcome (get_installed (mkfs (Some (list_byte_of_string "[]")) 0))
  = Raise AttributeError.
Proof. reflexivity. Qed.

End StateFacts.

(* ===================================================================== *)
(** * Facts about [tui/utils/installer.py] and the modal                  *)
(* ===================================================================== *)

Module InstallerFacts.
Import Py Installer Modal.

(** C5: [build_command] returns the path of the script, then the word
    [uninstall] exactly in uninstall mode, then the identifiers in the order
    given; the two commands of the specification are instances. *)
Theorem C5_build_command_layout :
  (forall (d : pystr) (opts : list pystr) (un : bool),
     build_command d opts un
     = [d ++ lit "/install"] ++ (if un then [lit "uninstall"] else []) ++ opts)
  /\ build_command (lit "/d") [lit "a"; lit "b"] false
     = [lit "/d/install"; lit "a"; lit "b"]
  /\ build_command (lit "/d") [lit "a"] true
     = [lit "/d/install"; lit "uninstall"; lit "a"].
Proof.
  split; [|split; reflexivity].
  intros d opts [|]; reflexivity.
Qed.

Lemma log_after_run r m : exists t, log (after_run r m) = log m ++ [t].
Proof.
  unfold after_run. destruct r as [code|e].
  - destruct (success (set_outcome (code =? 0)%Z m)); eexists; reflexivity.
  - eexists; reflexivity.
Qed.

Lemma log_output lines m :
  log (fold_left (fun st line => output_handler line st) lines m)
  = log m ++ lines.
Proof.
  revert m. induction lines as [|x xs IH]; intros m; simpl.
  - now rewrite app_nil_r.
  - rewrite IH. unfold output_handler, _convert_ansi_to_rich, log_write.
    simpl. now rewrite <- app_assoc.
Qed.

End InstallerFacts.

Module ModalFacts.
Import Py Installer Modal.

Lemma after_run_completed r m :
  completed (after_run r m) = true
  /\ dismissed (after_run r m) = dismissed m.
Proof.
  unfold after_run. destruct r as [code|e].
  - destruct (success (set_outcome (code =? 0)%Z m)); split; reflexivity.
  - split; reflexivity.
Qed.

Lemma modal_inv_mount d opts un : modal_inv (on_mount (new_modal d opts un)).
Proof. split; [discriminate | reflexivity]. Qed.

Lemma modal_inv_handle e m : modal_inv m -> modal_inv (handle e m).
Proof.
  intros Hm. pose proof Hm as [Hd Hc]. unfold handle.
  destruct (dismissed m) as [b|] eqn:Ed; [exact Hm|].
  assert (forall r, modal_inv (after_run r m)) as Hrun.
  { intros r. destruct (after_run_completed r m) as [H1 H2].
    split; [rewrite H2, Ed; discriminate | congruence]. }
  destruct e as [l | code | msg | msg | | ].
  - destruct (completed m) eqn:Ec; [exact Hm|].
    split.
    + intros b Hb. cbn in Hb. congruence.
    + intros _. cbn. auto.
  - destruct (completed m) eqn:Ec; [exact Hm | apply Hrun].
  - destruct (completed m) eqn:Ec; [exact Hm | apply Hrun].
  - destruct (completed m) eqn:Ec; [exact Hm | apply Hrun].
  - unfold action_cancel. destruct (completed m) eqn:Ec; [|exact Hm].
    split.
    + intros b Hb. cbn in Hb. injection Hb as <-. cbn. auto.
    + intros H. cbn in H. congruence.
  - destruct (close_disabled m) eqn:Eb; [exact Hm|].
    unfold on_button_pressed. split.
    + intros b Hb. cbn in Hb. injection Hb as <-. cbn. split; [|reflexivity].
      destruct (completed m) eqn:Ec; [reflexivity|].
      specialize (Hc eq_refl). congruence.
    + intros H. cbn in H. specialize (Hc H). congruence.
Qed.

Lemma session_snoc es e m : session (es ++ [e]) m = handle e (session es m).
Proof. unfold session. now rewrite fold_left_app. Qed.

Lemma modal_inv_session es d opts un :
  modal_inv (session es (new_modal d opts un)).
Proof.
  induction es as [|e es IH] using rev_ind.
  - apply modal_inv_mount.
  - rewrite session_snoc. now apply modal_inv_handle.
Qed.

Lemma completed_after_terminal es d opts un :
  completed (session es (new_modal d opts un)) = true ->
  Exists terminal es.
Proof.
  induction es as [|e es IH] using rev_ind; [discriminate|].
  rewrite session_snoc. intros H. apply Exists_app.
  destruct (completed (session es (new_modal d opts un))) eqn:Ec; [auto|].
  right. constructor. revert H. unfold handle.
  destruct (dismissed _); [congruence|].
  destruct e; cbn; try rewrite Ec; cbn; try congruence; auto.
  - unfold action_cancel. rewrite Ec. congruence.
  - destruct (close_disabled _); [congruence|]. cbn. congruence.
Qed.

(** C9: whatever events reach the modal, while the run is not complete the
    escape key changes nothing and the modal is not dismissed; when the
    modal has been dismissed, the worker had ended before (the child exited
    or could not be started), the run is in a terminal state, and the
    result is [success]. *)
Theorem C9_no_dismissal_while_running :
  forall (d : pystr) (opts : list pystr) (un : bool) (es : list event),
    let m := session es (new_modal d opts un) in
    (state_of m = Running -> handle Escape m = m /\ dismissed m = None)
    /\ (forall b,
          dismissed m = Some b ->
          state_of m <> Running /\ b = success m /\ Exists terminal es).
Proof.
  intros d opts un es m.
  destruct (modal_inv_session es d opts un) as [Hd Hc]. fold m in Hd, Hc.
  assert (state_of m = Running -> completed m = false) as Hrun.
  { unfold state_of. destruct (completed m); [|reflexivity].
    destruct (success m); discriminate. }
  split.
  - intros H. apply Hrun in H.
    assert (dismissed m = None) as Hn.
    { destruct (dismissed m) as [b|] eqn:E; [|reflexivity].
      destruct (Hd b eq_refl). congruence. }
    split; [|exact Hn]. unfold handle, action_cancel. now rewrite Hn, H.
  - intros b Hb. destruct (Hd b Hb) as [H1 H2].
    split; [|split; [exact H2|]].
    + intros H. apply Hrun in H. congruence.
    + now apply (completed_after_terminal es d opts un).
Qed.

(** C9 in a run of the specification: a line, escape, the exit, escape. *)
Lemma C9_no_dismissal_while_running_witness :
  let es1 := [Line (lit "installing"); Escape] in
  let es2 := [Line (lit "installing"); Escape; Exited 0; Escape] in
  let m1 := session es1 (new_modal (lit "/d") [lit "fish"] false) in
  let m2 := session es2 (new_modal (lit "/d") [lit "fish"] false) in
  (handle Escape m1 = m1 /\ dismissed m1 = None)
  /\ (state_of m2 <> Running /\ true = success m2 /\ Exists terminal es2).
Proof.
  split.
  - exact (proj1 (C9_no_dismissal_while_running
                    (lit "/d") [lit "fish"] false
                    [Line (lit "installing"); Escape]) eq_refl).
  - exact (proj2 (C9_no_dismissal_while_running
                    (lit "/d") [lit "fish"] false
                    [Line (lit "installing"); Escape; Exited 0; Escape])
                 true eq_refl).
Defined.

(** ** A run that nobody interrupts *)

Lemma lines_handled lines m :
  dismissed m = None -> completed m = false ->
  fold_left (fun st e => handle e st) (List.map Line lines) m
  = fold_left (fun st line => output_handler line st) lines m.
Proof.
  revert m. induction lines as [|l ls IH]; intros m Hd Hc; simpl.
  - reflexivity.
  - unfold handle at 2. rewrite Hd, Hc. now apply IH.
Qed.

Lemma lines_keep lines m :
  let m' := fold_left (fun st line => output_handler line st) lines m in
  dismissed m' = dismissed m /\ completed m' = completed m
  /\ close_disabled m' = close_disabled m.
Proof.
  revert m. induction lines as [|l ls IH]; intros m; simpl; [auto|].
  destruct (IH (output_handler l m)) as [H1 [H2 H3]].
  rewrite H1, H2, H3. auto.
Qed.

(** The events of the worker, one after the other, do what
    [run_installation_task] does in one go. *)
Lemma session_worker machine d opts un :
  session (worker_events (machine (build_command d opts un) d))
          (new_modal d opts un)
  = run_installation_task machine (new_modal d opts un).
Proof.
  unfold session, run_installation_task, run_installation, on_mount.
  cbn [script_dir options uninstall show_command new_modal log_write].
  change (([d ++ lit "/install"] ++ (if un then [lit "uninstall"] else []))
          ++ opts)
    with (build_command d opts un).
  replace ((if un then [d ++ lit "/install"] ++ [lit "uninstall"]
            else [d ++ lit "/install"]) ++ opts)
    with (build_command d opts un) by (destruct un; reflexivity).
  destruct (machine (build_command d opts un) d)
    as [msg|lines code|lines msg code];
    cbn [worker_events returned callback_state].
  - reflexivity.
  - rewrite fold_left_app, lines_handled by reflexivity.
    cbn [fold_left]. unfold handle.
    match goal with
    | |- context [fold_left ?f lines ?m] =>
      destruct (lines_keep lines m) as [H1 [H2 _]]; cbv zeta in H1, H2;
      rewrite H1, H2
    end.
    reflexivity.
  - rewrite fold_left_app, lines_handled by reflexivity.
    cbn [fold_left]. unfold handle.
    match goal with
    | |- context [fold_left ?f lines ?m] =>
      destruct (lines_keep lines m) as [H1 [H2 _]]; cbv zeta in H1, H2;
      rewrite H1, H2
    end.
    reflexivity.
Qed.

Lemma success_after_run r m :
  success (after_run r m)
  = match r with
    | Ok code => (code =? 0)%Z
    | Raise _ => false
    end.
Proof.
  unfold after_run. destruct r as [code|e]; [|reflexivity].
  unfold set_outcome. cbn [success]. destruct (code =? 0)%Z; reflexivity.
Qed.

(** Once the run is complete, [success] is what a step of the worker that
    has happened set. *)
Lemma success_of_terminal es d opts un :
  let m := session es (new_modal d opts un) in
  completed m = true ->
  exists e, In e es /\ result_of e = Some (success m).
Proof.
  induction es as [|e es IH] using rev_ind; [discriminate|].
  cbv zeta in *. rewrite session_snoc.
  set (m := session es (new_modal d opts un)) in *.
  assert (forall x, (exists e0, In e0 es /\ result_of e0 = Some x) ->
                    exists e0, In e0 (es ++ [e]) /\ result_of e0 = Some x)
    as Hweak.
  { intros x [e0 [H1 H2]]. exists e0. split; [|exact H2].
    apply in_or_app. now left. }
  assert (forall x, result_of e = Some x ->
                    exists e0, In e0 (es ++ [e]) /\ result_of e0 = Some x)
    as Hlast.
  { intros x H. exists e. split; [|exact H].
    apply in_or_app. right. now left. }
  unfold handle. destruct (dismissed m) eqn:Ed; [intros H; auto|].
  destruct (completed m) eqn:Ec.
  - specialize (IH eq_refl).
    destruct e; try (intros _; now apply Hweak).
    + unfold action_cancel. rewrite Ec. intros _. now apply Hweak.
    + destruct (close_disabled m); intros _; now apply Hweak.
  - destruct e; cbn [completed output_handler log_write].
    + congruence.
    + intros _. apply Hlast. now rewrite success_after_run.
    + intros _. apply Hlast. now rewrite success_after_run.
    + intros _. apply Hlast. now rewrite success_after_run.
    + unfold action_cancel. rewrite Ec. congruence.
    + destruct (close_disabled m); cbn; congruence.
Qed.

(** In a run whose child exits with [code], a dismissal carries whether
    [code] is zero, whenever and however the user closed the modal. *)
Lemma dismissed_with_exit_code es d opts un lines code b :
  filter is_worker_step es = worker_events (Runs lines code) ->
  dismissed (session es (new_modal d opts un)) = Some b ->
  b = (code =? 0)%Z.
Proof.
  intros Hrun Hb.
  destruct (proj1 (modal_inv_session es d opts un) b Hb) as [Hc Hs].
  destruct (success_of_terminal es d opts un Hc) as [e [Hin He]].
  assert (In e (filter is_worker_step es)) as Hw.
  { apply filter_In. split; [exact Hin|]. destruct e; try discriminate;
      reflexivity. }
  rewrite Hrun in Hw. cbn [worker_events] in Hw.
  apply in_app_or in Hw. destruct Hw as [Hw|[<-|[]]].
  - apply in_map_iff in Hw. destruct Hw as [l [<- _]]. discriminate.
  - cbn in He. congruence.
Qed.

(** ** The child that is started *)

(** What [run_installation] returns and leaves is the affair of the child
    that the machine gives for the list of [build_command] in the script
    directory. *)
Lemma run_installation_result {S} (machine : os) d opts un
    (cb : option (pystr -> S -> S)) (s : S) :
  let r := run_installation machine d opts un cb s in
  let each := fun st line => match cb with
                             | Some f => f line st
                             | None => st
                             end in
  spawn_argv r = build_command d opts un
  /\ spawn_cwd r = d
  /\ returned r
     = match machine (build_command d opts un) d with
       | SpawnFails msg => Raise (IOError msg)
       | Runs _ code => Ok code
       | ReadFails _ msg _ => Raise (ValueError msg)
       end
  /\ callback_state r
     = match machine (build_command d opts un) d with
       | SpawnFails _ => s
       | Runs lines _ | ReadFails lines _ _ => fold_left each lines s
       end.
Proof.
  unfold run_installation.
  replace ((if un then [d ++ lit "/install"] ++ [lit "uninstall"]
            else [d ++ lit "/install"]) ++ opts)
    with (build_command d opts un) by (destruct un; reflexivity).
  destruct (machine (build_command d opts un) d); repeat split.
Qed.

Lemma task_result machine d opts un :
  let w := run_installation_task machine (new_modal d opts un) in
  completed w = true /\ close_disabled w = false /\ dismissed w = None
  /\ success w = child_ok (child_of machine d opts un)
  /\ log w
     = (lit "[dim cyan]$ " ++ join (lit " ") (build_command d opts un)
        ++ lit "[/dim cyan]" ++ [10; 10])
       :: match child_of machine d opts un with
          | Runs lines code =>
            lines
            ++ [if (code =? 0)%Z
                then 10 :: lit "[bold green]Installation completed successfully![/bold green]" ++ [10]
                else 10 :: lit "[bold red]Installation failed (exit code: "
                        ++ str_of_Z code ++ lit ")[/bold red]" ++ [10]]
          | SpawnFails msg =>
            [10 :: lit "[bold red]Error: " ++ msg ++ lit "[/bold red]" ++ [10]]
          | ReadFails lines msg _ =>
            lines
            ++ [10 :: lit "[bold red]Error: " ++ msg ++ lit "[/bold red]"
                   ++ [10]]
          end.
Proof.
  unfold run_installation_task, run_installation, child_of.
  cbn [script_dir options uninstall show_command new_modal log_write].
  replace ((if un then [d ++ lit "/install"] ++ [lit "uninstall"]
            else [d ++ lit "/install"]) ++ opts)
    with (build_command d opts un) by (destruct un; reflexivity).
  destruct (machine (build_command d opts un) d)
    as [msg|lines code|lines msg code];
    cbn [returned callback_state child_ok].
  - cbn. auto.
  - match goal with
    | |- context [fold_left ?f lines ?m] =>
      destruct (lines_keep lines m) as [H1 [H2 H3]]; cbv zeta in H1, H2, H3;
      pose proof (InstallerFacts.log_output lines m) as H4;
      set (m' := fold_left f lines m) in *
    end.
    cbn [log dismissed completed close_disabled app] in H1, H2, H3, H4.
    unfold after_run, set_outcome. cbn [success].
    destruct (code =? 0)%Z;
      cbn [enable_close log_write completed close_disabled dismissed success
           log script_dir options uninstall];
      rewrite H1, H4; auto.
  - match goal with
    | |- context [fold_left ?f lines ?m] =>
      destruct (lines_keep lines m) as [H1 [H2 H3]]; cbv zeta in H1, H2, H3;
      pose proof (InstallerFacts.log_output lines m) as H4;
      set (m' := fold_left f lines m) in *
    end.
    cbn [log dismissed completed close_disabled app] in H1, H2, H3, H4.
    unfold after_run, set_outcome.
    cbn [enable_close log_write completed close_disabled dismissed success
         log script_dir options uninstall].
    rewrite H1, H4. auto.
Qed.


(** The same for every child: a dismissal carries [child_ok]. *)
Lemma dismissed_with_child es d opts un c b :
  filter is_worker_step es = worker_events c ->
  dismissed (session es (new_modal d opts un)) = Some b ->
  b = child_ok c.
Proof.
  intros Hrun Hb.
  destruct (proj1 (modal_inv_session es d opts un) b Hb) as [Hc Hs].
  destruct (success_of_terminal es d opts un Hc) as [e [Hin He]].
  assert (In e (filter is_worker_step es)) as Hw.
  { apply filter_In. split; [exact Hin|]. destruct e; try discriminate;
      reflexivity. }
  rewrite Hrun in Hw.
  destruct c as [msg|lines code|lines msg code]; cbn [worker_events] in Hw.
  - destruct Hw as [<-|[]]. cbn in He. cbn. congruence.
  - apply in_app_or in Hw. destruct Hw as [Hw|[<-|[]]].
    + apply in_map_iff in Hw. destruct Hw as [l [<- _]]. discriminate.
    + cbn in He. cbn. congruence.
  - apply in_app_or in Hw. destruct Hw as [Hw|[<-|[]]].
    + apply in_map_iff in Hw. destruct Hw as [l [<- _]]. discriminate.
    + cbn in He. cbn. congruence.
Qed.

End ModalFacts.

(* ===================================================================== *)
(** * Facts about the option list                                         *)
(* ===================================================================== *)

Module WidgetFacts.
Import Py Json PyFacts Options Widgets.

Lemma select_all_items_map ex m :
  fst (select_all_items ex m)
  = List.map
      (fun kv =>
         if skipped ex (snd kv) || selected (snd kv) then kv
         else (fst kv, fst (toggle_selection (snd kv)))) m.
Proof.
  induction m as [|[k it] r IH]; simpl; [reflexivity|].
  destruct (select_all_items ex r) as [r' msgs]. simpl in IH. subst r'.
  unfold skipped. simpl.
  destruct (ex && excluded_from_all (item_option it)); simpl; [reflexivity|].
  destruct (selected it); reflexivity.
Qed.

Lemma select_all_items_posted ex m :
  snd (select_all_items ex m)
  = List.map (fun kv => mkmsg (id (item_option (snd kv))) true)
      (filter (fun kv => negb (skipped ex (snd kv) || selected (snd kv))) m).
Proof.
  induction m as [|[k it] r IH]; simpl; [reflexivity|].
  destruct (select_all_items ex r) as [r' msgs]. simpl in IH. subst msgs.
  unfold skipped. simpl.
  destruct (ex && excluded_from_all (item_option it)); simpl; [reflexivity|].
  destruct (selected it); reflexivity.
Qed.

Lemma select_all_selected ex ol :
  get_selected_options (fst (select_all ex ol))
  = List.map fst
      (filter (fun kv => selected (snd kv) || negb (skipped ex (snd kv)))
              (options_map ol)).
Proof.
  unfold select_all, get_selected_options.
  pose proof (select_all_items_map ex (options_map ol)) as H.
  destruct (select_all_items ex (options_map ol)) as [m msgs].
  simpl in *. subst m. induction (options_map ol) as [|[k it] r IH]; simpl;
    [reflexivity|].
  destruct (skipped ex it) eqn:Es; destruct (selected it) eqn:El; simpl;
    rewrite ?El; simpl; now rewrite IH.
Qed.

Lemma select_all_keeps_selected ex ol :
  Forall (fun kv => In kv (options_map (fst (select_all ex ol))))
         (filter (fun kv => selected (snd kv)) (options_map ol)).
Proof.
  unfold select_all.
  pose proof (select_all_items_map ex (options_map ol)) as H.
  destruct (select_all_items ex (options_map ol)) as [m msgs].
  simpl in *. subst m. apply Forall_forall. intros kv Hin.
  apply filter_In in Hin. destruct Hin as [Hin Hsel].
  apply in_map_iff. exists kv. split; [|assumption].
  now rewrite Hsel, orb_true_r.
Qed.

(** A catalog without repeated identifiers is laid out in its order. *)
Lemma compose_from_map catalog inst :
  NoDup (List.map id catalog) ->
  options_map (compose_from catalog inst)
  = List.map
      (fun o => (id o, new_item o (State.set_mem (JStr (id o)) inst)))
      catalog.
Proof.
  unfold compose_from. cbn [options_map].
  set (mk := fun o => (id o, new_item o (State.set_mem (JStr (id o)) inst))).
  assert (forall acc,
             NoDup (List.map fst acc ++ List.map id catalog) ->
             fold_left
               (fun m o =>
                  dict_set (id o)
                    (new_item o (State.set_mem (JStr (id o)) inst)) m)
               catalog acc
             = acc ++ List.map mk catalog) as H.
  { induction catalog as [|o r IH]; intros acc Hnd; simpl.
    - now rewrite app_nil_r.
    - rewrite dict_set_absent.
      + rewrite IH.
        * now rewrite <- app_assoc.
        * rewrite map_app. simpl. now rewrite <- app_assoc.
      + apply dict_get_none_notin. simpl in Hnd.
        apply NoDup_remove_2 in Hnd. intros Hin. apply Hnd.
        apply in_or_app. now left. }
  intros Hnd. apply (H []). exact Hnd.
Qed.

Lemma fresh_selection catalog inst :
  List.map fst
    (filter (fun kv => selected (snd kv)
                       || negb (excluded_from_all (item_option (snd kv))))
       (List.map
          (fun o => (id o, new_item o (State.set_mem (JStr (id o)) inst)))
          catalog))
  = List.map id (filter (fun o => negb (excluded_from_all o)) catalog).
Proof.
  induction catalog as [|o r IH]; [reflexivity|].
  cbn [List.map filter snd fst new_item selected item_option orb].
  destruct (excluded_from_all o); cbn [negb List.map]; now rewrite IH.
Qed.

Lemma OPTIONS_distinct : NoDup (List.map id OPTIONS).
Proof. apply JsonFacts.distinct_NoDup. reflexivity. Qed.

(** C3, as it is stated, fails: with [mainline] (an option left out of
    "all") toggled on by the user, [select_all(exclude_special=True)] leaves
    it selected, so the selection is not the set of the options that are not
    left out. *)
Lemma C3_select_all_keeps_excluded_selection :
  let ol := toggle (lit "mainline") (compose []) in
  In (lit "mainline") (get_selected_options (fst (select_all true ol)))
  /\ get_selected_options (fst (select_all true ol))
     <> List.map id get_options_for_all.
Proof.
  split.
  - vm_compute. do 10 right. now left.
  - vm_compute. discriminate.
Qed.

(** C3, amended: after [select_all(exclude_special=True)] the selection is
    what was selected before together with every option that is not left
    out of "all" (exactly those options on a freshly composed list, where
    nothing is selected); after [select_all(False)] it is the whole
    catalog; one message is posted for each item that the call selects and
    none for the others; and the items that were selected stay as they
    were. *)
Theorem C3_select_all :
  forall (ol : OptionList),
    get_selected_options (fst (select_all true ol))
    = List.map fst
        (filter (fun kv => selected (snd kv)
                           || negb (excluded_from_all (item_option (snd kv))))
                (options_map ol))
    /\ (forall inst,
          get_selected_options (fst (select_all true (compose inst)))
          = List.map id get_options_for_all)
    /\ get_selected_options (fst (select_all false ol))
       = List.map fst (options_map ol)
    /\ (forall ex,
          snd (select_all ex ol)
          = List.map (fun kv => mkmsg (id (item_option (snd kv))) true)
              (filter (fun kv => negb (skipped ex (snd kv)
                                       || selected (snd kv)))
                      (options_map ol)))
    /\ (forall ex,
          Forall (fun kv => In kv (options_map (fst (select_all ex ol))))
                 (filter (fun kv => selected (snd kv)) (options_map ol))).
Proof.
  intros ol. split; [|split; [|split; [|split]]].
  - rewrite select_all_selected. unfold skipped. reflexivity.
  - intros inst. rewrite select_all_selected. unfold compose.
    rewrite (compose_from_map OPTIONS inst OPTIONS_distinct).
    unfold get_options_for_all, skipped. cbn [andb].
    apply fresh_selection.
  - rewrite select_all_selected. unfold skipped. simpl.
    induction (options_map ol) as [|kv r IH]; simpl; [reflexivity|].
    rewrite orb_true_r. simpl. now rewrite IH.
  - intros ex. unfold select_all.
    pose proof (select_all_items_posted ex (options_map ol)) as H.
    destruct (select_all_items ex (options_map ol)). exact H.
  - intros ex. apply select_all_keeps_selected.
Qed.

End WidgetFacts.

(* ===================================================================== *)
(** * Facts about the main screen                                         *)
(* ===================================================================== *)

Module ScreenFacts.
Import Py Json PyFacts Options Widgets Installer State Screen.
Import JsonFacts StateFacts ModalFacts WidgetFacts.

Lemma well_formed_store_inv f :
  well_formed_store f = true ->
  exists d l,
    load_state f = (Ok (JDict d), f) /\ json_ok (JDict d) = true
    /\ installed_of d = JList l /\ forallb hashable l = true.
Proof.
  unfold well_formed_store. destruct (load_state_shape f) as [r Hr].
  rewrite Hr. destruct r as [[ | | | |d]|]; try discriminate.
  destruct (installed_of d) as [ | | |l| ] eqn:E; try discriminate.
  intros H. exists d, l. pose proof (load_state_ok f _ Hr). auto.
Qed.

Lemma well_formed_store_intro f d l :
  load_state f = (Ok (JDict d), f) ->
  installed_of d = JList l -> forallb hashable l = true ->
  well_formed_store f = true.
Proof.
  intros H1 H3 H4. unfold well_formed_store. now rewrite H1, H3, H4.
Qed.

Lemma is_installed_in_list f d l x :
  load_state f = (Ok (JDict d), f) ->
  installed_of d = JList l -> forallb hashable l = true ->
  is_installed_in f x = existsb (json_eqb (JStr x)) l.
Proof.
  intros H1 H2 H3. unfold is_installed_in.
  rewrite (get_installed_loaded f _ H1). unfold py_get.
  unfold installed_of in H2.
  destruct (dict_get key d) as [v|]; [subst v | injection H2 as <-];
    cbn [py_set].
  - rewrite H3. apply set_mem_dedupe.
  - reflexivity.
Qed.

(** One call of [mark_installed] on such a store returns, leaves such a
    store, and the identifier and all those there before are installed. *)
Lemma mark_installed_good id f :
  well_formed_store f = true -> str_ok id = true ->
  let r := mark_installed id f in
  outcome r = Ok tt
  /\ well_formed_store (state_after r) = true
  /\ is_installed_in (state_after r) id = true
  /\ forall x, is_installed_in f x = true ->
               is_installed_in (state_after r) x = true.
Proof.
  intros Hw Hid r.
  destruct (well_formed_store_inv f Hw) as [d [l [Hl [Hok [Hin Hh]]]]].
  pose proof (mark_installed_dict id f d Hl) as Hcase.
  rewrite Hin in Hcase. subst r.
  destruct (existsb (json_eqb (JStr id)) l) eqn:El.
  - rewrite Hcase. cbn [outcome state_after fst snd].
    split; [reflexivity|]. split; [assumption|]. split; [|auto].
    now rewrite (is_installed_in_list f d l id Hl Hin Hh).
  - rewrite Hcase. set (d' := dict_set key (JList (l ++ [JStr id])) d).
    assert (json_ok (JDict d') = true) as Hok'.
    { apply json_ok_dict_set; auto using str_ok_key.
      apply json_ok_append; [|assumption].
      rewrite <- Hin. now apply json_ok_installed_of. }
    pose proof (load_after_save (JDict d') f Hok') as Hl'.
    assert (installed_of d' = JList (l ++ [JStr id])) as Hin'
        by apply installed_of_set.
    assert (forallb hashable (l ++ [JStr id]) = true) as Hh'
        by (rewrite forallb_app, Hh; reflexivity).
    split; [apply save_state_ok|].
    split; [now apply (well_formed_store_intro _ d' (l ++ [JStr id]))|].
    split.
    + rewrite (is_installed_in_list _ d' _ id Hl' Hin' Hh').
      rewrite existsb_app. cbn [existsb].
      now rewrite json_eqb_refl, orb_true_r.
    + intros x. rewrite (is_installed_in_list f d l x Hl Hin Hh).
      rewrite (is_installed_in_list _ d' _ x Hl' Hin' Hh').
      rewrite existsb_app. now intros ->.
Qed.

(** ** The items *)

Lemma item_done_marked id ol :
  dict_has id (options_map ol) = true ->
  item_done (mark_option_installed id ol) id = true.
Proof.
  unfold dict_has, item_done, mark_option_installed, update_item.
  destruct (dict_get id (options_map ol)) as [it|] eqn:E; [|discriminate].
  intros _. cbn [options_map]. now rewrite dict_get_set_same.
Qed.

Lemma item_done_kept id x ol :
  item_done ol x = true -> item_done (mark_option_installed id ol) x = true.
Proof.
  destruct (list_eq_dec N.eq_dec id x) as [->|Hne].
  - intros H. apply item_done_marked. unfold item_done in H. unfold dict_has.
    destruct (dict_get x (options_map ol)); [reflexivity | discriminate].
  - unfold item_done, mark_option_installed, update_item.
    destruct (dict_get id (options_map ol)) as [it|]; [|auto].
    cbn [options_map]. now rewrite dict_get_set_other.
Qed.

Lemma dict_has_marked id x ol :
  dict_has x (options_map ol) = true ->
  dict_has x (options_map (mark_option_installed id ol)) = true.
Proof.
  unfold mark_option_installed, update_item.
  destruct (dict_get id (options_map ol)) as [it|] eqn:E; [|auto].
  cbn [options_map]. unfold dict_has.
  destruct (list_eq_dec N.eq_dec id x) as [->|Hne].
  - now rewrite dict_get_set_same.
  - now rewrite dict_get_set_other.
Qed.

Lemma selected_have_items ol :
  Forall (fun x => dict_has x (options_map ol) = true)
         (get_selected_options ol).
Proof.
  unfold get_selected_options. apply Forall_forall. intros x Hin.
  apply in_map_iff in Hin. destruct Hin as [[k it] [<- Hin]].
  apply filter_In in Hin. destruct Hin as [Hin _]. simpl.
  unfold dict_has. destruct (dict_get k (options_map ol)) eqn:E;
    [reflexivity|].
  apply dict_get_none_notin in E. exfalso. apply E.
  apply in_map_iff. now exists (k, it).
Qed.

(** ** The loop of the completion callback *)

Lemma install_one_run id s :
  well_formed_store (store s) = true -> str_ok id = true ->
  dict_has id (options_map (option_list s)) = true ->
  let r := install_one id s in
  outcome r = Ok tt
  /\ script_dir (state_after r) = script_dir s
  /\ well_formed_store (store (state_after r)) = true
  /\ option_list (state_after r) = mark_option_installed id (option_list s)
  /\ is_installed_in (store (state_after r)) id = true
  /\ forall x, is_installed_in (store s) x = true ->
               is_installed_in (store (state_after r)) x = true.
Proof.
  intros Hw Hid Hhas r.
  destruct (mark_installed_good id (store s) Hw Hid) as [H1 [H2 [H3 H4]]].
  subst r. unfold install_one, mbind, in_store, on_list.
  destruct (mark_installed id (store s)) as [o f'].
  cbn [outcome state_after fst snd] in *. subst o.
  cbn [outcome state_after fst snd store option_list script_dir].
  auto 10.
Qed.

Lemma for_each_step {S X} (body : X -> M S unit) x xs s s1 :
  body x s = (Ok tt, s1) -> for_each (x :: xs) body s = for_each xs body s1.
Proof. intros H. cbn [for_each]. unfold mbind. now rewrite H. Qed.

Lemma install_loop ids :
  forall s,
    well_formed_store (store s) = true -> forallb str_ok ids = true ->
    Forall (fun x => dict_has x (options_map (option_list s)) = true) ids ->
    let r := for_each ids install_one s in
    outcome r = Ok tt
    /\ well_formed_store (store (state_after r)) = true
    /\ (forall x,
          is_installed_in (store s) x = true ->
          is_installed_in (store (state_after r)) x = true)
    /\ (forall x,
          item_done (option_list s) x = true ->
          item_done (option_list (state_after r)) x = true)
    /\ forall x,
         In x ids ->
         is_installed_in (store (state_after r)) x = true
         /\ item_done (option_list (state_after r)) x = true.
Proof.
  induction ids as [|id ids IH]; intros s Hw Hids Hhas r.
  - subst r. cbn. repeat split; auto; contradiction.
  - simpl in Hids. apply andb_true_iff in Hids. destruct Hids as [Hid Hids].
    inversion Hhas as [|? ? Hhas1 Hhas2]; subst.
    destruct (install_one_run id s Hw Hid Hhas1)
      as [H1 [_ [H2 [H3 [H4 H5]]]]].
    subst r. destruct (install_one id s) as [o s1] eqn:Es.
    cbn [outcome state_after fst snd] in *. subst o.
    rewrite (for_each_step install_one id ids s s1 Es).
    assert (Forall (fun x => dict_has x (options_map (option_list s1)) = true)
                   ids) as Hhas'.
    { rewrite H3. eapply Forall_impl; [|exact Hhas2].
      intros x Hx. now apply dict_has_marked. }
    destruct (IH s1 H2 Hids Hhas') as [I1 [I2 [I3 [I4 I5]]]].
    split; [exact I1|]. split; [exact I2|].
    split; [intros x Hx; apply I3, H5, Hx|].
    split.
    + intros x Hx. apply I4. rewrite H3. now apply item_done_kept.
    + intros x [<-|Hin]; [|now apply I5].
      split; [now apply I3|].
      apply I4. rewrite H3. now apply item_done_marked.
Qed.

(** ** One key press, one run *)

Lemma install_run_pushed es s x xs :
  get_selected_options (option_list s) = x :: xs ->
  install_run es s
  = match Modal.dismissed (Modal.session es (pushed_modal s false)) with
    | Some result =>
      on_complete_install (x :: xs) result
        (mkscreen (script_dir s) (option_list s)
                  (lit "[cyan]Installing "
                   ++ str_of_nat (List.length (x :: xs))
                   ++ lit " option(s)...[/cyan]")
                  (store s))
    | None =>
      (Ok tt,
       mkscreen (script_dir s) (option_list s)
                (lit "[cyan]Installing "
                 ++ str_of_nat (List.length (x :: xs))
                 ++ lit " option(s)...[/cyan]")
                (store s))
    end.
Proof.
  intros Hsel. unfold install_run, action_install, mbind at 1, pushed_modal.
  rewrite Hsel. unfold mbind at 1, _set_status, ret. cbv beta iota.
  unfold run_modal. cbn [modal callback].
  destruct (Modal.dismissed _); reflexivity.
Qed.

Lemma uninstall_run_pushed es s x xs :
  get_selected_options (option_list s) = x :: xs ->
  uninstall_run es s
  = match Modal.dismissed (Modal.session es (pushed_modal s true)) with
    | Some result =>
      on_complete_uninstall (x :: xs) result
        (mkscreen (script_dir s) (option_list s)
                  (lit "[cyan]Uninstalling "
                   ++ str_of_nat (List.length (x :: xs))
                   ++ lit " option(s)...[/cyan]")
                  (store s))
    | None =>
      (Ok tt,
       mkscreen (script_dir s) (option_list s)
                (lit "[cyan]Uninstalling "
                 ++ str_of_nat (List.length (x :: xs))
                 ++ lit " option(s)...[/cyan]")
                (store s))
    end.
Proof.
  intros Hsel. unfold uninstall_run, action_uninstall, mbind at 1,
    pushed_modal.
  rewrite Hsel. unfold mbind at 1, _set_status, ret. cbv beta iota.
  unfold run_modal. cbn [modal callback].
  destruct (Modal.dismissed _); reflexivity.
Qed.

(** C1 fails on a child that exits with code 0 after writing a line longer
    than the stream reader's limit.  [readline] raises [ValueError], so
    [run_installation] raises where its docstring promises the exit code;
    the modal's [except] branch records a failure, and the callback marks
    nothing: nothing is in the set [get_installed] returns, the state file
    is not written, the requested item is [pending] and still selected,
    and the status bar reports a failed installation. *)
Theorem C1_long_line_run_marks_nothing :
  let s := example_screen in
  let requested := get_selected_options (option_list s) in
  let r := install_run long_line_events s in
  requested = [lit "claude"; lit "fish"]
  /\ Modal.run_on long_line_machine (pushed_modal s false) long_line_events
  /\ exit_code (long_line_machine (build_command (script_dir s) requested false)
                                  (script_dir s)) = Some 0%Z
  /\ Modal.dismissed (Modal.session long_line_events (pushed_modal s false))
     = Some false
  /\ outcome r = Ok tt
  /\ store (state_after r) = store s
  /\ outcome (get_installed (store (state_after r))) = Ok []
  /\ (exists it,
        dict_get (lit "claude") (options_map (option_list (state_after r)))
        = Some it
        /\ status it = pending /\ selected it = true)
  /\ status_bar (state_after r) = lit "[red]Installation failed[/red]".
Proof.
  repeat (split; [reflexivity|]).
  split; [|reflexivity].
  eexists. split; [vm_compute; reflexivity|]. split; reflexivity.
Qed.



(** C2, as it is stated, fails: after a run that exits with code 1 the
    items that were requested are not [failed]; [claude] is [pending] and
    still selected. *)
Lemma C2_failed_run_leaves_status :
  let s := state_after (install_run (example_events 1) example_screen) in
  Modal.run_on (example_machine 1) (pushed_modal example_screen false)
               (example_events 1)
  /\ exists it,
       dict_get (lit "claude") (options_map (option_list s)) = Some it
       /\ status it = pending /\ status it <> failed /\ selected it = true.
Proof.
  split; [reflexivity|].
  eexists. split; [vm_compute; reflexivity|].
  split; [reflexivity|]. split; [discriminate | reflexivity].
Qed.

(** C2, amended: when the child exits with a code other than 0, in install
    or in uninstall mode, whether its output was read to the end or not and
    whatever the user does, the callback returns if it runs, the state file
    is as it was (it is not written), and the option list is as it was: no
    item changes status or selection; once the modal is closed the status
    bar reports the failure. *)
Theorem C2_failed_run_changes_nothing
    (machine : os) (s : MainScreen) (un : bool) (es : list Modal.event)
    (code : Z) :
  let requested := get_selected_options (option_list s) in
  requested <> [] ->
  Modal.run_on machine (pushed_modal s un) es ->
  exit_code (machine (build_command (script_dir s) requested un)
                     (script_dir s)) = Some code ->
  code <> 0%Z ->
  let r := (if un then uninstall_run es s else install_run es s) in
  outcome r = Ok tt
  /\ store (state_after r) = store s
  /\ option_list (state_after r) = option_list s
  /\ (Modal.dismissed (Modal.session es (pushed_modal s un)) <> None ->
      status_bar (state_after r)
      = (if un then lit "[red]Uninstall failed[/red]"
         else lit "[red]Installation failed[/red]")).
Proof.
  intros requested Hne Hrun Hm Hcode r.
  unfold Modal.run_on in Hrun.
  cbn [pushed_modal Modal.script_dir Modal.options Modal.uninstall
       Modal.new_modal] in Hrun.
  fold requested in Hrun.
  assert ((code =? 0)%Z = false) as Hz by now apply Z.eqb_neq.
  assert (forall b,
             Modal.dismissed (Modal.session es (pushed_modal s un)) = Some b ->
             b = false) as Hres.
  { intros b Hb. rewrite (dismissed_with_child es _ _ _ _ b Hrun Hb).
    destruct (machine _ _) as [msg|lines c|lines msg c];
      cbn [exit_code Modal.child_ok] in *; try reflexivity.
    injection Hm as ->. exact Hz. }
  destruct requested as [|x xs] eqn:Hreq; [contradiction|].
  subst r. destruct un.
  - rewrite (uninstall_run_pushed es s x xs Hreq).
    destruct (Modal.dismissed _) as [b|] eqn:Hb.
    + rewrite (Hres b eq_refl). repeat split; reflexivity.
    + repeat split; try reflexivity. intros H. contradiction.
  - rewrite (install_run_pushed es s x xs Hreq).
    destruct (Modal.dismissed _) as [b|] eqn:Hb.
    + rewrite (Hres b eq_refl). repeat split; reflexivity.
    + repeat split; try reflexivity. intros H. contradiction.
Qed.

(** C2 on the run of the specification: [claude] and [fish], exit code 1. *)
Lemma C2_failed_run_changes_nothing_witness :
  let r := install_run (example_events 1) example_screen in
  outcome r = Ok tt
  /\ store (state_after r) = store example_screen
  /\ option_list (state_after r) = option_list example_screen
  /\ (Modal.dismissed
        (Modal.session (example_events 1)
                       (pushed_modal example_screen false)) <> None ->
      status_bar (state_after r) = lit "[red]Installation failed[/red]").
Proof.
  refine (C2_failed_run_changes_nothing
            (example_machine 1) example_screen false (example_events 1)
            1 _ eq_refl eq_refl _).
  - vm_compute. discriminate.
  - discriminate.
Defined.

End ScreenFacts.

(* ===================================================================== *)
(** * The catalogue and its lookup                                        *)
(* ===================================================================== *)

Module OptionsFacts.
Import Py Options PyFacts.

Lemma first_with_id_some i o opts :
  first_with_id i opts = Some o -> In o opts /\ id o = i.
Proof.
  induction opts as [|x r IH]; simpl; [discriminate|].
  destruct (str_eqb (id x) i) eqn:E.
  - intros [= <-]. apply str_eqb_eq in E. auto.
  - intros H. destruct (IH H). auto.
Qed.

Lemma first_with_id_found o opts :
  NoDup (List.map id opts) -> In o opts ->
  first_with_id (id o) opts = Some o.
Proof.
  induction opts as [|x r IH]; simpl; [contradiction|].
  intros Hnd [->|Hin].
  - now rewrite str_eqb_refl.
  - inversion Hnd as [|? ? Hx Hr]. subst.
    destruct (str_eqb (id x) (id o)) eqn:E; [|now apply IH].
    apply str_eqb_eq in E. exfalso. apply Hx. rewrite E.
    now apply in_map.
Qed.

Lemma first_with_id_none i opts :
  first_with_id i opts = None <-> ~ In i (List.map id opts).
Proof.
  induction opts as [|x r IH]; simpl; [tauto|].
  destruct (str_eqb (id x) i) eqn:E.
  - apply str_eqb_eq in E. split; [discriminate | intros H; exfalso; auto].
  - apply str_eqb_neq in E. rewrite IH. tauto.
Qed.

(** [get_option_by_id] finds exactly the options of the catalogue, each
    under its own id: the ids of [OPTIONS] are pairwise different, so the
    first match is the only one.  An id that no option carries gives
    [None]; in particular the aliases are not looked at. *)
Theorem get_option_by_id_finds_the_catalogue :
  (forall i o, get_option_by_id i = Some o <-> In o OPTIONS /\ id o = i)
  /\ (forall i, get_option_by_id i = None <-> ~ In i (List.map id OPTIONS))
  /\ (forall o a,
        In o OPTIONS -> In a (aliases o) -> get_option_by_id a = None).
Proof.
  split; [|split].
  - intros i o. split.
    + apply first_with_id_some.
    + intros [Hin <-]. apply first_with_id_found;
        [apply WidgetFacts.OPTIONS_distinct | exact Hin].
  - intros i. apply first_with_id_none.
  - assert (forallb
              (fun o =>
                 forallb
                   (fun a =>
                      match get_option_by_id a with
                      | None => true
                      | Some _ => false
                      end) (aliases o)) OPTIONS = true) as H
      by (vm_compute; reflexivity).
    intros o a Ho Ha. rewrite forallb_forall in H. specialize (H o Ho).
    rewrite forallb_forall in H. specialize (H a Ha).
    destruct (get_option_by_id a); [discriminate | reflexivity].
Qed.

End OptionsFacts.

(* ===================================================================== *)
(** * The banner text                                                     *)
(* ===================================================================== *)

Module BannerFacts.
Import Py Banner.

Lemma preserve_spaces_map text : preserve_spaces text = List.map nbsp text.
Proof.
  unfold preserve_spaces, replace.
  induction text as [|c r IH]; [reflexivity|].
  cbn [replace_from is_prefix List.length Nat.sub List.map].
  rewrite IH. unfold nbsp. rewrite N.eqb_sym.
  destruct (c =? 32) eqn:E; cbn; [|reflexivity].
  reflexivity.
Qed.

(** [preserve_spaces] replaces every space by a no-break space and nothing
    else: the text keeps its length, each character other than the space
    stays where it is (line breaks included), no space is left, and a
    second application changes nothing. *)
Theorem preserve_spaces_keeps_layout :
  forall text : pystr,
    List.length (preserve_spaces text) = List.length text
    /\ (forall i,
          nth_error (preserve_spaces text) i
          = option_map (fun c => if c =? 32 then 160 else c)
                       (nth_error text i))
    /\ ~ In 32 (preserve_spaces text)
    /\ preserve_spaces (preserve_spaces text) = preserve_spaces text
    /\ (forall other,
          preserve_spaces (text ++ other)
          = preserve_spaces text ++ preserve_spaces other).
Proof.
  intros text. rewrite !preserve_spaces_map. repeat split.
  - apply length_map.
  - intros i. apply nth_error_map.
  - intros H. apply in_map_iff in H. destruct H as [c [H _]].
    unfold nbsp in H. destruct (c =? 32) eqn:E; [discriminate|].
    apply N.eqb_neq in E. congruence.
  - rewrite map_map. apply map_ext. intros c.
    unfold nbsp. destruct (c =? 32) eqn:E; [reflexivity | now rewrite E].
  - intros other. rewrite !preserve_spaces_map. apply map_app.
Qed.

End BannerFacts.

(* ===================================================================== *)
(** * The state file under sequences of calls                             *)
(* ===================================================================== *)

Module StateLaws.
Import Py Json State Screen PyFacts JsonFacts StateFacts ScreenFacts.

(** ** Lists of values *)

Lemma json_eqb_neq a b : json_eqb a b = false <-> a <> b.
Proof.
  split.
  - intros H E. apply json_eqb_eq in E. congruence.
  - intros H. destruct (json_eqb a b) eqn:E; [|reflexivity].
    apply json_eqb_eq in E. contradiction.
Qed.

Lemma json_eqb_str a b : json_eqb (JStr a) (JStr b) = str_eqb a b.
Proof. reflexivity. Qed.

Lemma existsb_occurrences x l :
  existsb (json_eqb x) l = (0 <? occurrences x l)%nat.
Proof.
  unfold occurrences. induction l as [|y r IH]; [reflexivity|].
  simpl. destruct (json_eqb x y); simpl; [reflexivity | exact IH].
Qed.

Lemma remove_first_occurrences x l l' :
  remove_first x l = Some l' ->
  occurrences x l = S (occurrences x l')
  /\ forall y, y <> x -> existsb (json_eqb y) l' = existsb (json_eqb y) l.
Proof.
  unfold occurrences. revert l'.
  induction l as [|z r IH]; intros l'; simpl; [discriminate|].
  rewrite (json_eqb_sym x z). destruct (json_eqb z x) eqn:E.
  - intros [= <-]. split; [reflexivity|].
    intros y Hy. apply json_eqb_eq in E. subst z.
    apply json_eqb_neq in Hy. now rewrite Hy.
  - destruct (remove_first x r) as [r'|]; [|discriminate].
    intros [= <-]. destruct (IH r' eq_refl) as [H1 H2]. simpl.
    rewrite (json_eqb_sym x z), E. split; [exact H1|].
    intros y Hy. now rewrite (H2 y Hy).
Qed.

Lemma json_distinct_snoc l x :
  json_distinct l = true -> existsb (json_eqb x) l = false ->
  json_distinct (l ++ [x]) = true.
Proof.
  induction l as [|y r IH]; simpl; [reflexivity|].
  intros H Hx. apply andb_true_iff in H. destruct H as [H1 H2].
  apply orb_false_iff in Hx. destruct Hx as [Hxy Hx].
  rewrite existsb_app. simpl. rewrite (json_eqb_sym y x), Hxy.
  apply negb_true_iff in H1. rewrite H1. simpl. now apply IH.
Qed.

Lemma json_distinct_once x l :
  json_distinct l = true -> (occurrences x l <= 1)%nat.
Proof.
  induction l as [|y r IH]; simpl; [unfold occurrences; simpl; lia|].
  intros H. apply andb_true_iff in H. destruct H as [H1 H2].
  specialize (IH H2). unfold occurrences in *. simpl.
  destruct (json_eqb x y) eqn:E; [|exact IH].
  apply json_eqb_eq in E. subst y. apply negb_true_iff in H1.
  rewrite existsb_occurrences in H1. unfold occurrences in H1.
  apply Nat.ltb_ge in H1. simpl. lia.
Qed.

Lemma json_distinct_remove x l l' :
  remove_first x l = Some l' -> json_distinct l = true ->
  json_distinct l' = true.
Proof.
  revert l'. induction l as [|z r IH]; intros l'; simpl; [discriminate|].
  destruct (json_eqb z x) eqn:E.
  - intros [= <-] H. apply andb_true_iff in H. tauto.
  - destruct (remove_first x r) as [r'|] eqn:Er; [|discriminate].
    intros [= <-] H. apply andb_true_iff in H. destruct H as [H1 H2].
    simpl. rewrite (IH r' eq_refl H2), andb_true_r.
    destruct (remove_first_occurrences x r r' Er) as [_ Hk].
    rewrite Hk; [exact H1|]. intros ->. now rewrite json_eqb_refl in E.
Qed.

(** ** One call on a store of the expected shape *)

Lemma mark_installed_step id f d l :
  load_state f = (Ok (JDict d), f) -> installed_of d = JList l ->
  str_ok id = true ->
  let r := mark_installed id f in
  let l' := if existsb (json_eqb (JStr id)) l then l else l ++ [JStr id] in
  outcome r = Ok tt
  /\ exists d',
       load_state (state_after r) = (Ok (JDict d'), state_after r)
       /\ installed_of d' = JList l'
       /\ forall k, k <> key -> dict_get k d' = dict_get k d.
Proof.
  intros Hl Hin Hid r l'. subst r l'.
  pose proof (load_state_ok f _ Hl) as Hok.
  pose proof (mark_installed_dict id f d Hl) as Hcase. rewrite Hin in Hcase.
  destruct (existsb (json_eqb (JStr id)) l) eqn:El; rewrite Hcase.
  - split; [reflexivity|]. exists d. auto.
  - set (d' := dict_set key (JList (l ++ [JStr id])) d).
    assert (json_ok (JDict d') = true) as Hok'.
    { apply json_ok_dict_set; auto using str_ok_key.
      apply json_ok_append; [|assumption].
      rewrite <- Hin. now apply json_ok_installed_of. }
    split; [apply save_state_ok|]. exists d'.
    split; [exact (load_after_save (JDict d') f Hok')|].
    split; [apply installed_of_set|].
    intros k Hk. unfold d'. now apply dict_get_set_other.
Qed.

Lemma mark_uninstalled_step id f d l :
  load_state f = (Ok (JDict d), f) -> installed_of d = JList l ->
  let r := mark_uninstalled id f in
  let l' := match remove_first (JStr id) l with
            | Some l' => l'
            | None => l
            end in
  outcome r = Ok tt
  /\ exists d',
       load_state (state_after r) = (Ok (JDict d'), state_after r)
       /\ installed_of d' = JList l'
       /\ forall k, k <> key -> dict_get k d' = dict_get k d.
Proof.
  intros Hl Hin r l'. subst r l'.
  pose proof (load_state_ok f _ Hl) as Hok.
  pose proof (mark_uninstalled_dict id f d Hl) as Hcase. rewrite Hin in Hcase.
  destruct (remove_first (JStr id) l) as [l'|] eqn:El; rewrite Hcase.
  - set (d' := dict_set key (JList l') d).
    assert (json_ok (JDict d') = true) as Hok'.
    { apply json_ok_dict_set; auto using str_ok_key.
      apply (json_ok_remove_first _ l l' El).
      rewrite <- Hin. now apply json_ok_installed_of. }
    split; [apply save_state_ok|]. exists d'.
    split; [exact (load_after_save (JDict d') f Hok')|].
    split; [apply installed_of_set|].
    intros k Hk. unfold d'. now apply dict_get_set_other.
  - split; [reflexivity|]. exists d. auto.
Qed.

Lemma duplicate_free_store_inv f :
  duplicate_free_store f = true ->
  exists d l,
    load_state f = (Ok (JDict d), f) /\ installed_of d = JList l
    /\ forallb hashable l = true /\ json_distinct l = true.
Proof.
  unfold duplicate_free_store. destruct (load_state_shape f) as [r Hr].
  rewrite Hr. destruct r as [[ | | | |d]|]; try discriminate.
  destruct (installed_of d) as [ | | |l| ] eqn:E; try discriminate.
  intros H. apply andb_true_iff in H. exists d, l. tauto.
Qed.

Lemma duplicate_free_store_intro f d l :
  load_state f = (Ok (JDict d), f) -> installed_of d = JList l ->
  forallb hashable l = true -> json_distinct l = true ->
  duplicate_free_store f = true.
Proof.
  intros H1 H2 H3 H4. unfold duplicate_free_store. now rewrite H1, H2, H3, H4.
Qed.

Lemma duplicate_free_well_formed f :
  duplicate_free_store f = true -> well_formed_store f = true.
Proof.
  intros H. destruct (duplicate_free_store_inv f H) as [d [l [H1 [H2 [H3 _]]]]].
  now apply (well_formed_store_intro f d l).
Qed.

Lemma hashable_remove x l l' :
  remove_first x l = Some l' -> forallb hashable l = true ->
  forallb hashable l' = true.
Proof. apply forallb_remove_first. Qed.

(** ** The calls one by one *)

Lemma mark_installed_on_set (f : fs) (id : pystr) :
  well_formed_store f = true -> str_ok id = true ->
  let r := mark_installed id f in
  outcome r = Ok tt
  /\ well_formed_store (state_after r) = true
  /\ (forall x,
        is_installed_in (state_after r) x
        = str_eqb x id || is_installed_in f x)
  /\ (duplicate_free_store f = true ->
      duplicate_free_store (state_after r) = true).
Proof.
  intros Hw Hid r.
  destruct (well_formed_store_inv f Hw) as [d [l [Hl [_ [Hin Hh]]]]].
  destruct (mark_installed_step id f d l Hl Hin Hid)
    as [Hout [d' [Hl' [Hin' _]]]].
  fold r in Hout, Hl', Hin'.
  set (l' := if existsb (json_eqb (JStr id)) l then l else l ++ [JStr id])
    in *.
  assert (forallb hashable l' = true) as Hh'.
  { unfold l'. destruct (existsb _ l); [assumption|].
    rewrite forallb_app, Hh. reflexivity. }
  split; [exact Hout|].
  split; [exact (well_formed_store_intro _ d' l' Hl' Hin' Hh')|].
  split.
  - intros x. rewrite (is_installed_in_list _ d' l' x Hl' Hin' Hh').
    rewrite (is_installed_in_list f d l x Hl Hin Hh). unfold l'.
    destruct (existsb (json_eqb (JStr id)) l) eqn:El.
    + destruct (str_eqb x id) eqn:Ex; [|reflexivity].
      apply str_eqb_eq in Ex. subst x. now rewrite El.
    + rewrite existsb_app. cbn [existsb]. rewrite json_eqb_str.
      now rewrite orb_false_r, orb_comm.
  - intros Hd.
    destruct (duplicate_free_store_inv f Hd) as [d0 [l0 [Hl0 [Hin0 [_ Hn]]]]].
    rewrite Hl in Hl0. injection Hl0 as <-. rewrite Hin in Hin0.
    injection Hin0 as <-.
    apply (duplicate_free_store_intro _ d' l' Hl' Hin' Hh').
    unfold l'. destruct (existsb (json_eqb (JStr id)) l) eqn:El;
      [assumption | now apply json_distinct_snoc].
Qed.

(** On a state file of the expected shape (absent, unparsable, or an
    object whose [installed] entry is a list of strings),
    [mark_installed(id)] returns and leaves such a file, and afterwards the
    installed identifiers are [id] and those installed before, no other;
    a list without repetition stays without repetition.  The file is
    written once when [id] was not installed and not at all when it
    was. *)
Theorem mark_installed_adds_exactly_one (f : fs) (id : pystr) :
  well_formed_store f = true -> str_ok id = true ->
  let r := mark_installed id f in
  outcome r = Ok tt
  /\ well_formed_store (state_after r) = true
  /\ (forall x,
        is_installed_in (state_after r) x
        = str_eqb x id || is_installed_in f x)
  /\ (duplicate_free_store f = true ->
      duplicate_free_store (state_after r) = true)
  /\ (is_installed_in f id = true -> state_after r = f)
  /\ (is_installed_in f id = false ->
      writes (state_after r) = S (writes f)).
Proof.
  intros Hw Hid r.
  destruct (mark_installed_on_set f id Hw Hid) as [H1 [H2 [H3 H4]]].
  fold r in H1, H2, H3, H4.
  split; [exact H1|]. split; [exact H2|]. split; [exact H3|].
  split; [exact H4|].
  destruct (well_formed_store_inv f Hw) as [d [l [Hl [_ [Hin Hh]]]]].
  rewrite (is_installed_in_list f d l id Hl Hin Hh).
  pose proof (mark_installed_dict id f d Hl) as Hcase. rewrite Hin in Hcase.
  subst r. destruct (existsb (json_eqb (JStr id)) l); rewrite Hcase; split;
    intros E; try discriminate; [reflexivity | apply save_state_writes].
Qed.

Lemma mark_installed_adds_exactly_one_witness :
  let f := mkfs None 0 in
  let r := mark_installed (lit "fish") f in
  outcome r = Ok tt
  /\ well_formed_store (state_after r) = true
  /\ (forall x,
        is_installed_in (state_after r) x
        = str_eqb x (lit "fish") || is_installed_in f x)
  /\ (duplicate_free_store f = true ->
      duplicate_free_store (state_after r) = true)
  /\ (is_installed_in f (lit "fish") = true -> state_after r = f)
  /\ (is_installed_in f (lit "fish") = false ->
      writes (state_after r) = 1%nat).
Proof.
  exact (mark_installed_adds_exactly_one (mkfs None 0) (lit "fish")
           eq_refl eq_refl).
Defined.

Lemma mark_uninstalled_on_list
    (f : fs) (d : jdict) (l : list json) (id : pystr) :
  load_state f = (Ok (JDict d), f) -> installed_of d = JList l ->
  forallb hashable l = true ->
  let r := mark_uninstalled id f in
  outcome r = Ok tt
  /\ well_formed_store (state_after r) = true
  /\ (forall x,
        x <> id -> is_installed_in (state_after r) x = is_installed_in f x)
  /\ is_installed_in (state_after r) id
     = (1 <? occurrences (JStr id) l)%nat
  /\ (json_distinct l = true ->
      is_installed_in (state_after r) id = false
      /\ duplicate_free_store (state_after r) = true).
Proof.
  intros Hl Hin Hh r.
  destruct (mark_uninstalled_step id f d l Hl Hin)
    as [Hout [d' [Hl' [Hin' _]]]].
  fold r in Hout, Hl', Hin'.
  set (l' := match remove_first (JStr id) l with
             | Some l' => l'
             | None => l
             end) in *.
  assert (forallb hashable l' = true) as Hh'.
  { unfold l'. destruct (remove_first (JStr id) l) as [l1|] eqn:E;
      [exact (hashable_remove _ _ _ E Hh) | assumption]. }
  assert (forall x, x <> id ->
            existsb (json_eqb (JStr x)) l' = existsb (json_eqb (JStr x)) l)
    as Hother.
  { intros x Hx. unfold l'.
    destruct (remove_first (JStr id) l) as [l1|] eqn:E; [|reflexivity].
    apply (remove_first_occurrences _ _ _ E). congruence. }
  assert (existsb (json_eqb (JStr id)) l'
          = (1 <? occurrences (JStr id) l)%nat) as Hself.
  { unfold l'. destruct (remove_first (JStr id) l) as [l1|] eqn:E.
    - destruct (remove_first_occurrences _ _ _ E) as [Hc _].
      rewrite existsb_occurrences, Hc. reflexivity.
    - destruct (existsb (json_eqb (JStr id)) l) eqn:Ex.
      + destruct (remove_first_present _ _ Ex) as [l1 Hl1]. congruence.
      + pose proof Ex as Ex'. rewrite existsb_occurrences in Ex'.
        apply Nat.ltb_ge in Ex'. symmetry.
        apply Nat.ltb_ge. lia. }
  split; [exact Hout|].
  split; [exact (well_formed_store_intro _ d' l' Hl' Hin' Hh')|].
  split.
  - intros x Hx. rewrite (is_installed_in_list _ d' l' x Hl' Hin' Hh').
    rewrite (is_installed_in_list f d l x Hl Hin Hh). now apply Hother.
  - split.
    + now rewrite (is_installed_in_list _ d' l' id Hl' Hin' Hh').
    + intros Hn. split.
      * rewrite (is_installed_in_list _ d' l' id Hl' Hin' Hh'), Hself.
        apply Nat.ltb_ge. now apply json_distinct_once.
      * apply (duplicate_free_store_intro _ d' l' Hl' Hin' Hh').
        unfold l'. destruct (remove_first (JStr id) l) as [l1|] eqn:E;
          [exact (json_distinct_remove _ _ _ E Hn) | assumption].
Qed.

(** [mark_uninstalled(id)] takes the first occurrence of [id] out of the
    stored list and no more: every other identifier keeps its status, and
    [id] itself still counts as installed afterwards exactly when the list
    named it more than once.  On a list without repetition it is gone.
    The file is written once when [id] was installed and not at all when
    it was not. *)
Theorem mark_uninstalled_removes_one_occurrence
    (f : fs) (d : jdict) (l : list json) (id : pystr) :
  load_state f = (Ok (JDict d), f) -> installed_of d = JList l ->
  forallb hashable l = true ->
  let r := mark_uninstalled id f in
  outcome r = Ok tt
  /\ well_formed_store (state_after r) = true
  /\ (forall x,
        x <> id -> is_installed_in (state_after r) x = is_installed_in f x)
  /\ is_installed_in (state_after r) id
     = (1 <? occurrences (JStr id) l)%nat
  /\ (json_distinct l = true ->
      is_installed_in (state_after r) id = false
      /\ duplicate_free_store (state_after r) = true)
  /\ (is_installed_in f id = false -> state_after r = f)
  /\ (is_installed_in f id = true ->
      writes (state_after r) = S (writes f)).
Proof.
  intros Hl Hin Hh r.
  destruct (mark_uninstalled_on_list f d l id Hl Hin Hh)
    as [H1 [H2 [H3 [H4 H5]]]].
  fold r in H1, H2, H3, H4, H5.
  split; [exact H1|]. split; [exact H2|]. split; [exact H3|].
  split; [exact H4|]. split; [exact H5|].
  rewrite (is_installed_in_list f d l id Hl Hin Hh).
  pose proof (mark_uninstalled_dict id f d Hl) as Hcase.
  rewrite Hin in Hcase. subst r.
  destruct (remove_first (JStr id) l) as [l'|] eqn:E; rewrite Hcase; split;
    intros Ex.
  - destruct (remove_first_occurrences _ _ _ E) as [Hc _].
    rewrite existsb_occurrences, Hc in Ex. discriminate.
  - apply save_state_writes.
  - reflexivity.
  - destruct (remove_first_present _ _ Ex) as [l' Hl']. congruence.
Qed.

Lemma mark_uninstalled_removes_one_occurrence_witness :
  let d := [(key, JList [JStr (lit "fish"); JStr (lit "fish")])] in
  let f := state_after (save_state (JDict d) (mkfs None 0)) in
  let r := mark_uninstalled (lit "fish") f in
  outcome r = Ok tt
  /\ well_formed_store (state_after r) = true
  /\ (forall x,
        x <> lit "fish" ->
        is_installed_in (state_after r) x = is_installed_in f x)
  /\ is_installed_in (state_after r) (lit "fish") = true
  /\ (false = true ->
      is_installed_in (state_after r) (lit "fish") = false
      /\ duplicate_free_store (state_after r) = true)
  /\ (true = false -> state_after r = f)
  /\ (true = true -> writes (state_after r) = 2%nat).
Proof.
  exact (mark_uninstalled_removes_one_occurrence
           (state_after
              (save_state
                 (JDict [(key, JList [JStr (lit "fish"); JStr (lit "fish")])])
                 (mkfs None 0)))
           [(key, JList [JStr (lit "fish"); JStr (lit "fish")])]
           [JStr (lit "fish"); JStr (lit "fish")] (lit "fish")
           eq_refl eq_refl eq_refl).
Defined.

(** ** Sequences of calls *)

Lemma apply_changes_cons c cs f :
  apply_changes (c :: cs) f
  = match apply_change c f with
    | (Ok _, f') => apply_changes cs f'
    | (Raise e, f') => (Raise e, f')
    end.
Proof. reflexivity. Qed.

(** On a state file whose list names nothing twice, any sequence of
    [mark_installed] and [mark_uninstalled] calls returns, keeps the list
    free of repetitions, and leaves an identifier installed exactly when
    the last call that named it was [mark_installed] (or, if no call named
    it, when it was installed before): the file behaves as a set. *)
Theorem calls_behave_as_a_set (f : fs) (cs : list change) :
  duplicate_free_store f = true ->
  Forall (fun c => str_ok (change_id c) = true) cs ->
  let r := apply_changes cs f in
  outcome r = Ok tt
  /\ duplicate_free_store (state_after r) = true
  /\ forall x,
       is_installed_in (state_after r) x
       = installed_after cs x (is_installed_in f x).
Proof.
  intros Hd Hcs. revert f Hd.
  induction Hcs as [|c cs Hc Hcs IH]; intros f Hd r.
  - subst r. cbn. auto.
  - subst r. rewrite apply_changes_cons.
    assert (outcome (apply_change c f) = Ok tt
            /\ duplicate_free_store (state_after (apply_change c f)) = true
            /\ forall x,
                 is_installed_in (state_after (apply_change c f)) x
                 = installed_after [c] x (is_installed_in f x)) as Hstep.
    { destruct c as [i|i]; cbn [apply_change change_id installed_after
                                 fold_left] in *.
      - destruct (mark_installed_on_set f i
                    (duplicate_free_well_formed f Hd) Hc)
          as [H1 [_ [H3 H4]]].
        split; [exact H1|]. split; [exact (H4 Hd)|].
        intros x. rewrite H3, (str_eqb_sym i x).
        destruct (str_eqb x i); reflexivity.
      - destruct (duplicate_free_store_inv f Hd)
          as [d [l [Hl [Hin [Hh Hn]]]]].
        destruct (mark_uninstalled_on_list f d l i Hl Hin Hh)
          as [H1 [_ [H3 [_ H5]]]].
        destruct (H5 Hn) as [H6 H7].
        split; [exact H1|]. split; [exact H7|].
        intros x. destruct (str_eqb i x) eqn:E.
        + apply str_eqb_eq in E. subst x. exact H6.
        + apply H3. apply str_eqb_neq in E. congruence. }
    destruct Hstep as [H1 [H2 H3]].
    destruct (apply_change c f) as [[[]|e] f'] eqn:Ec;
      cbn [outcome state_after fst snd] in *; [|discriminate].
    destruct (IH f' H2) as [I1 [I2 I3]].
    split; [exact I1|]. split; [exact I2|].
    intros x. rewrite I3, H3. reflexivity.
Qed.

Lemma calls_behave_as_a_set_witness :
  let f := mkfs None 0 in
  let cs := [Install (lit "fish"); Install (lit "claude");
             Uninstall (lit "fish"); Install (lit "claude")] in
  let r := apply_changes cs f in
  outcome r = Ok tt
  /\ duplicate_free_store (state_after r) = true
  /\ forall x,
       is_installed_in (state_after r) x
       = installed_after cs x (is_installed_in f x).
Proof.
  apply (calls_behave_as_a_set (mkfs None 0)
           [Install (lit "fish"); Install (lit "claude");
            Uninstall (lit "fish"); Install (lit "claude")]).
  - reflexivity.
  - repeat constructor.
Defined.

(** ** Calls that raise *)

Lemma mark_uninstalled_raises id f e :
  load_state f = (Raise e, f) -> mark_uninstalled id f = (Raise e, f).
Proof. intros H. unfold mark_uninstalled, mbind. now rewrite H. Qed.

(** When [mark_installed] or [mark_uninstalled] raises (the file cannot be
    decoded, or the stored value is not an object with a list under
    [installed]), it does so before [save_state] is reached: the file is
    left as it was, byte for byte, and is not written. *)
Theorem failed_call_leaves_the_file
    (f : fs) (id : pystr) (e : exn) (call : pystr -> M fs unit) :
  call = mark_installed \/ call = mark_uninstalled ->
  outcome (call id f) = Raise e ->
  state_after (call id f) = f.
Proof.
  intros Hcall Hraise. destruct (load_state_shape f) as [r Hr].
  destruct r as [st|e0].
  - destruct Hcall as [-> | ->].
    + rewrite (mark_installed_loaded id f st Hr) in *.
      destruct (py_get st key (JList [])) as [inst|]; [|reflexivity].
      destruct (py_in id inst) as [[|]|]; try reflexivity.
      destruct (py_setdefault st key (JList [])) as [slot|]; [|reflexivity].
      destruct (py_append (fst slot) (JStr id)) as [appended|]; [|reflexivity].
      rewrite save_state_ok in Hraise. discriminate.
    + rewrite (mark_uninstalled_loaded id f st Hr) in *.
      destruct (py_get st key (JList [])) as [inst|]; [|reflexivity].
      destruct (py_in id inst) as [[|]|]; try reflexivity.
      destruct (py_getitem st key) as [slot|]; [|reflexivity].
      destruct (py_remove slot (JStr id)) as [removed|]; [|reflexivity].
      rewrite save_state_ok in Hraise. discriminate.
  - destruct Hcall as [-> | ->].
    + now rewrite (mark_installed_raises id f e0 Hr).
    + now rewrite (mark_uninstalled_raises id f e0 Hr).
Qed.

Lemma failed_call_leaves_the_file_witness :
  let f := mkfs (Some (list_byte_of_string "[]")) 3 in
  state_after (mark_installed (lit "fish") f) = f.
Proof.
  exact (failed_call_leaves_the_file
           (mkfs (Some (list_byte_of_string "[]")) 3) (lit "fish")
           AttributeError mark_installed (or_introl eq_refl) eq_refl).
Defined.

(** ** Clearing *)

(** [clear_state] removes the file without writing, whatever it held (a
    file that cannot even be decoded included) and also when there is
    none; afterwards [load_state] gives the empty state, nothing counts as
    installed, a second [clear_state] changes nothing, and the first
    [mark_installed(id)] leaves exactly [id] installed. *)
Theorem clear_state_starts_afresh :
  forall f : fs,
    let g := state_after (clear_state f) in
    outcome (clear_state f) = Ok tt
    /\ file g = None /\ writes g = writes f
    /\ load_state g = (Ok empty_state, g)
    /\ get_installed g = (Ok [], g)
    /\ clear_state g = (Ok tt, g)
    /\ (forall x, is_installed_in g x = false)
    /\ (forall id x,
          str_ok id = true ->
          is_installed_in (state_after (mark_installed id g)) x
          = str_eqb x id).
Proof.
  intros f g.
  assert (outcome (clear_state f) = Ok tt /\ file g = None
          /\ writes g = writes f) as [H1 [H2 H3]].
  { subst g. unfold clear_state, file_exists.
    destruct (file f) eqn:E; cbn; auto. }
  pose proof (load_state_absent g H2) as Hload.
  pose proof (get_installed_empty g Hload) as Hget.
  assert (forall x, is_installed_in g x = false) as Hnone.
  { intros x. unfold is_installed_in. now rewrite Hget. }
  repeat split; try assumption.
  - unfold clear_state, file_exists. now rewrite H2.
  - intros id x Hid.
    assert (well_formed_store g = true) as Hw
        by (unfold well_formed_store; now rewrite Hload).
    destruct (mark_installed_on_set g id Hw Hid) as [_ [_ [H _]]].
    now rewrite H, Hnone, orb_false_r.
Qed.

(** ** Writing and reading back *)

(** [save_state] followed by [load_state] gives the state back: for every
    value without numbers whose objects do not repeat a key and whose
    strings hold no surrogate pair, [save_state] returns after one write,
    the file holds the text of [json.dumps(state, indent=2)] in ASCII
    bytes only (so it reads the same under any ASCII-compatible encoding),
    [load_state] returns the value without touching the file, and saving
    it again writes the same bytes. *)
Theorem saved_state_loads_back (st : json) (f : fs) :
  json_ok st = true ->
  let g := state_after (save_state st f) in
  outcome (save_state st f) = Ok tt
  /\ writes g = S (writes f)
  /\ (exists bs,
        file g = Some bs
        /\ List.map Byte.to_N bs = dumps st
        /\ Forall (fun b => Byte.to_N b < 128) bs)
  /\ load_state g = (Ok st, g)
  /\ file (state_after (save_state st g)) = file g.
Proof.
  intros Hok g.
  split; [apply save_state_ok|]. split; [apply save_state_writes|].
  split; [|split; [exact (load_after_save st f Hok) | apply save_state_file]].
  subst g. unfold save_state, write_text, encode.
  pose proof (TextFacts.dumps_at_ascii st 0%nat) as Ha.
  fold (dumps st) in Ha.
  rewrite (TextFacts.utf8_encode_ascii _ Ha).
  destruct (TextFacts.bytes_of_N_ascii _ Ha) as [bs [E1 E2]].
  rewrite E1. cbn [state_after snd file]. exists bs.
  split; [reflexivity|]. split; [exact E2|].
  unfold ascii_text in Ha. rewrite <- E2 in Ha.
  now apply Forall_map in Ha.
Qed.

Lemma saved_state_loads_back_witness :
  let st := JDict [(lit "theme", JStr [0x1F600; 233]);
                   (key, JList [JStr (lit "fish"); JBool true; JNull])] in
  let f := mkfs (Some [Byte.xff]) 7 in
  let g := state_after (save_state st f) in
  outcome (save_state st f) = Ok tt
  /\ writes g = 8%nat
  /\ (exists bs,
        file g = Some bs
        /\ List.map Byte.to_N bs = dumps st
        /\ Forall (fun b => Byte.to_N b < 128) bs)
  /\ load_state g = (Ok st, g)
  /\ file (state_after (save_state st g)) = file g.
Proof.
  exact (saved_state_loads_back
           (JDict [(lit "theme", JStr [0x1F600; 233]);
                   (key, JList [JStr (lit "fish"); JBool true; JNull])])
           (mkfs (Some [Byte.xff]) 7) eq_refl).
Defined.

End StateLaws.

(* ===================================================================== *)
(** * The command line and the run of the modal                           *)
(* ===================================================================== *)

Module InstallerLaws.
Import Py Installer Options.

(** The argument vector tells the request: two requests with the same
    vector have the same script directory, the same mode and the same
    options, as long as no option list starts with the word [uninstall];
    with that word in front, installing is indistinguishable from
    uninstalling the rest.  No option of the catalogue has that id. *)
Theorem build_command_tells_the_request :
  (forall d1 d2 o1 o2 u1 u2,
     hd_error o1 <> Some (lit "uninstall") ->
     hd_error o2 <> Some (lit "uninstall") ->
     build_command d1 o1 u1 = build_command d2 o2 u2 ->
     d1 = d2 /\ o1 = o2 /\ u1 = u2)
  /\ (forall d o,
        build_command d (lit "uninstall" :: o) false = build_command d o true)
  /\ Forall (fun o => id o <> lit "uninstall") OPTIONS.
Proof.
  split; [|split].
  - intros d1 d2 o1 o2 u1 u2 H1 H2 H. unfold build_command in H.
    assert (d1 = d2 /\
            (if u1 then [lit "uninstall"] else []) ++ o1
            = (if u2 then [lit "uninstall"] else []) ++ o2) as [Hd Ho].
    { destruct u1, u2; cbn [app] in H; injection H as Hd Ho;
        apply app_inv_tail in Hd; (split; [exact Hd | now subst]). }
    split; [exact Hd|].
    destruct u1, u2; cbn in Ho.
    + injection Ho as ->. auto.
    + subst o2. now contradiction H2.
    + subst o1. now contradiction H1.
    + auto.
  - intros d o. reflexivity.
  - repeat constructor; discriminate.
Qed.

End InstallerLaws.

Module ModalLaws.
Import Py Installer Modal InstallerFacts ModalFacts.

Lemma forget_worker_step e m :
  modal_inv m -> is_worker_step e = true ->
  forget_dismissal (handle e m) = handle e (forget_dismissal m).
Proof.
  intros [Hd _] He.
  assert (dismissed m <> None -> completed m = true) as Hdone.
  { destruct (dismissed m) as [b|]; [|congruence].
    intros _. now destruct (Hd b eq_refl). }
  destruct m as [sd os un ok done lg dis [b|]];
    cbn [dismissed completed] in Hdone.
  - rewrite Hdone by discriminate.
    destruct e; try discriminate; reflexivity.
  - destruct e as [l|code|msg|msg| | ]; try discriminate; destruct done;
      try reflexivity.
    unfold handle, after_run, set_outcome. cbn.
    destruct (code =? 0)%Z; reflexivity.
Qed.

Lemma forget_user_step e m :
  is_worker_step e = false ->
  forget_dismissal (handle e m) = forget_dismissal m.
Proof.
  intros He. unfold handle. destruct (dismissed m); [reflexivity|].
  destruct e; try discriminate.
  - unfold action_cancel. destruct (completed m); reflexivity.
  - destruct (close_disabled m); reflexivity.
Qed.

Lemma forget_fold es :
  forall m,
    modal_inv m ->
    forget_dismissal (fold_left (fun st e => handle e st) es m)
    = fold_left (fun st e => handle e st) (filter is_worker_step es)
                (forget_dismissal m).
Proof.
  induction es as [|e es IH]; intros m Hm; [reflexivity|].
  cbn [fold_left filter].
  rewrite (IH _ (modal_inv_handle e m Hm)).
  destruct (is_worker_step e) eqn:He; cbn [fold_left].
  - now rewrite forget_worker_step.
  - now rewrite forget_user_step.
Qed.

(** What the keys cannot change: the run as the worker made it. *)
Lemma session_forgets machine d opts un es :
  run_on machine (new_modal d opts un) es ->
  forget_dismissal (session es (new_modal d opts un))
  = run_installation_task machine (new_modal d opts un).
Proof.
  intros Hrun. unfold run_on in Hrun. cbn [script_dir options uninstall
                                            new_modal] in Hrun.
  unfold session. rewrite forget_fold by apply modal_inv_mount.
  rewrite Hrun. rewrite <- session_worker. reflexivity.
Qed.






End ModalLaws.

(* ===================================================================== *)
(** * The option list under the calls that reach it                       *)
(* ===================================================================== *)

Module WidgetLaws.
Import Py Json PyFacts Options Widgets WidgetFacts.

Lemma item_eta it :
  mkitem (item_option it) (is_installed it) (selected it) (status it) = it.
Proof. now destruct it. Qed.

Lemma deselect_all_items_map m :
  fst (deselect_all_items m)
  = List.map (fun kv => (fst kv, set_selected false (snd kv))) m.
Proof.
  induction m as [|[k it] r IH]; simpl; [reflexivity|].
  destruct (deselect_all_items r) as [r' msgs]. simpl in IH. subst r'.
  destruct (selected it) eqn:E; simpl; [reflexivity|].
  unfold set_selected. now rewrite <- E, item_eta.
Qed.

Lemma deselect_all_items_posted m :
  snd (deselect_all_items m)
  = List.map (fun kv => mkmsg (id (item_option (snd kv))) false)
      (filter (fun kv => selected (snd kv)) m).
Proof.
  induction m as [|[k it] r IH]; simpl; [reflexivity|].
  destruct (deselect_all_items r) as [r' msgs]. simpl in IH. subst msgs.
  destruct (selected it) eqn:E; simpl; rewrite ?E; reflexivity.
Qed.

Lemma none_selected m :
  filter (fun kv : pystr * OptionItem => selected (snd kv))
         (List.map (fun kv => (fst kv, set_selected false (snd kv))) m)
  = [].
Proof. induction m as [|[k it] r IH]; simpl; [reflexivity | exact IH]. Qed.

Lemma deselect_all_none_selected ol :
  get_selected_options (fst (deselect_all ol)) = [].
Proof.
  unfold deselect_all, get_selected_options.
  pose proof (deselect_all_items_map (options_map ol)) as Hm.
  destruct (deselect_all_items (options_map ol)) as [m msgs].
  cbn [fst options_map] in *. subst m. now rewrite none_selected.
Qed.

(** [deselect_all] leaves nothing selected, so that every item shows an
    empty checkbox, and changes nothing else of any item; it posts one
    [Selected] message, with [selected=False], for each item that was
    selected, in the order of the list, and none for the others; called
    again it does nothing. *)
Theorem deselect_all_clears_the_selection :
  forall ol : OptionList,
    let r := deselect_all ol in
    get_selected_options (fst r) = []
    /\ options_map (fst r)
       = List.map (fun kv => (fst kv, set_selected false (snd kv)))
                  (options_map ol)
    /\ installed_ids (fst r) = installed_ids ol
    /\ snd r
       = List.map (fun kv => mkmsg (id (item_option (snd kv))) false)
           (filter (fun kv => selected (snd kv)) (options_map ol))
    /\ Forall (fun kv => _checkbox_text (snd kv) = lit "[cyan][ ][/cyan]")
              (options_map (fst r))
    /\ deselect_all (fst r) = (fst r, []).
Proof.
  intros ol r. subst r. unfold deselect_all, get_selected_options.
  pose proof (deselect_all_items_map (options_map ol)) as Hm.
  pose proof (deselect_all_items_posted (options_map ol)) as Hp.
  destruct (deselect_all_items (options_map ol)) as [m msgs].
  cbn [fst snd options_map installed_ids] in *. subst m msgs.
  rewrite none_selected. do 4 (split; [reflexivity|]). split.
  { apply Forall_forall. intros kv Hin. apply in_map_iff in Hin.
    destruct Hin as [kv0 [<- _]]. reflexivity. }
  pose proof (deselect_all_items_map
                (List.map (fun kv => (fst kv, set_selected false (snd kv)))
                          (options_map ol))) as Hm2.
  pose proof (deselect_all_items_posted
                (List.map (fun kv => (fst kv, set_selected false (snd kv)))
                          (options_map ol))) as Hp2.
  destruct (deselect_all_items
              (List.map (fun kv => (fst kv, set_selected false (snd kv)))
                        (options_map ol))) as [m2 msgs2].
  cbn [fst snd] in *. subst m2 msgs2. rewrite none_selected.
  rewrite map_map. reflexivity.
Qed.

(** ** Calls that have no further effect *)

Lemma toggled_skipped ex it :
  skipped ex (fst (toggle_selection it)) = skipped ex it.
Proof. reflexivity. Qed.

Lemma toggled_selected it :
  selected (fst (toggle_selection it)) = negb (selected it).
Proof. reflexivity. Qed.

Lemma select_all_again ex m :
  select_all_items ex (fst (select_all_items ex m))
  = (fst (select_all_items ex m), []).
Proof.
  pose proof (select_all_items_map ex (fst (select_all_items ex m))) as Hm.
  pose proof (select_all_items_posted ex (fst (select_all_items ex m))) as Hp.
  destruct (select_all_items ex (fst (select_all_items ex m))) as [m2 msgs2].
  cbn [fst snd] in *. subst m2 msgs2. rewrite select_all_items_map.
  f_equal.
  - rewrite map_map. apply map_ext. intros [k it]. cbn [fst snd].
    destruct (skipped ex it || selected it) eqn:E; cbn [fst snd].
    + now rewrite E.
    + apply orb_false_iff in E. destruct E as [Es El].
      now rewrite toggled_skipped, toggled_selected, Es, El.
  - induction m as [|[k it] r IH]; [reflexivity|].
    cbn [List.map filter fst snd].
    destruct (skipped ex it || selected it) eqn:E; cbn [fst snd].
    + rewrite E. cbn [negb]. exact IH.
    + apply orb_false_iff in E. destruct E as [Es El].
      rewrite toggled_skipped, toggled_selected, Es, El. cbn. exact IH.
Qed.

(** Selecting again selects nothing more: a second [select_all] with the
    same argument changes nothing and posts no message; [select_all] with
    the special options included absorbs an earlier one that left them
    out; and toggling the same item twice restores the list. *)
Theorem selection_calls_settle :
  forall ol : OptionList,
    (forall ex,
       select_all ex (fst (select_all ex ol)) = (fst (select_all ex ol), []))
    /\ fst (select_all false (fst (select_all true ol)))
       = fst (select_all false ol)
    /\ (forall i, toggle i (toggle i ol) = ol).
Proof.
  intros ol. split; [|split].
  - intros ex. unfold select_all at 1.
    assert (options_map (fst (select_all ex ol))
            = fst (select_all_items ex (options_map ol))) as ->.
    { unfold select_all. now destruct (select_all_items ex (options_map ol)). }
    rewrite select_all_again. unfold select_all.
    now destruct (select_all_items ex (options_map ol)).
  - unfold select_all.
    pose proof (select_all_items_map true (options_map ol)) as H1.
    destruct (select_all_items true (options_map ol)) as [m1 p1].
    cbn [fst snd options_map installed_ids] in *. subst m1.
    pose proof (select_all_items_map false
                  (List.map
                     (fun kv =>
                        if skipped true (snd kv) || selected (snd kv) then kv
                        else (fst kv, fst (toggle_selection (snd kv))))
                     (options_map ol))) as H2.
    destruct (select_all_items false _) as [m2 p2].
    pose proof (select_all_items_map false (options_map ol)) as H3.
    destruct (select_all_items false (options_map ol)) as [m3 p3].
    cbn [fst snd] in *. subst m2 m3. f_equal.
    rewrite map_map. apply map_ext. intros [k it].
    cbn [fst snd skipped andb orb].
    destruct (excluded_from_all (item_option it) || selected it) eqn:E;
      cbn [fst snd].
    + reflexivity.
    + apply orb_false_iff in E. destruct E as [_ El].
      now rewrite toggled_selected, El.
  - intros i. unfold toggle, update_item.
    destruct (dict_get i (options_map ol)) as [it|] eqn:E.
    + cbn [options_map installed_ids].
      rewrite dict_get_set_same, StateFacts.dict_set_set.
      cbn [toggle_selection fst item_option is_installed selected status].
      rewrite negb_involutive, item_eta, (StateFacts.dict_set_get _ _ _ E).
      now destruct ol.
    + now rewrite E.
Qed.

(** ** Marking an item *)

Lemma update_item_absent i f ol :
  dict_get i (options_map ol) = None -> update_item i f ol = ol.
Proof. intros H. unfold update_item. now rewrite H. Qed.

Lemma update_item_get i f ol it :
  dict_get i (options_map ol) = Some it ->
  dict_get i (options_map (update_item i f ol)) = Some (f it).
Proof.
  intros H. unfold update_item. rewrite H. cbn [options_map].
  apply dict_get_set_same.
Qed.

Lemma update_item_other i k f ol :
  k <> i ->
  dict_get k (options_map (update_item i f ol)) = dict_get k (options_map ol).
Proof.
  intros H. unfold update_item.
  destruct (dict_get i (options_map ol)); [|reflexivity].
  cbn [options_map]. apply dict_get_set_other. congruence.
Qed.

Lemma is_selected_update i k f ol :
  is_selected (update_item i f ol) k
  = match dict_get k (options_map ol) with
    | Some it => if str_eqb k i then selected (f it) else selected it
    | None => false
    end.
Proof.
  unfold is_selected. destruct (str_eqb k i) eqn:E.
  - apply str_eqb_eq in E. subst k.
    destruct (dict_get i (options_map ol)) as [it|] eqn:Ei.
    + now rewrite (update_item_get _ _ _ _ Ei).
    + now rewrite update_item_absent, Ei.
  - apply str_eqb_neq in E. now rewrite update_item_other.
Qed.

Lemma selection_dict_set k it it' (m : dict OptionItem) :
  dict_get k m = Some it -> selected it' = selected it ->
  List.map fst (filter (fun kv => selected (snd kv)) (dict_set k it' m))
  = List.map fst (filter (fun kv => selected (snd kv)) m).
Proof.
  intros Hget Hsel. induction m as [|[k0 v0] r IH]; [discriminate|].
  cbn [dict_get dict_set] in *. destruct (str_eqb k k0) eqn:E.
  - injection Hget as ->. cbn [filter snd]. rewrite Hsel.
    destruct (selected it); reflexivity.
  - cbn [filter snd]. destruct (selected v0); cbn [List.map];
      now rewrite (IH Hget).
Qed.

(** [mark_option_installed], [mark_option_uninstalled] and
    [set_option_status] do nothing for an id that the list does not have,
    and otherwise touch the item under that id only.  Marking as installed
    sets the status and takes the item out of the selection; marking as
    uninstalled resets the status and leaves the selection as it is, so
    the items stay selected after an uninstallation. *)
Theorem marking_touches_one_item :
  forall (ol : OptionList) (i : pystr),
    (dict_get i (options_map ol) = None ->
     mark_option_installed i ol = ol
     /\ mark_option_uninstalled i ol = ol
     /\ forall st, set_option_status i st ol = ol)
    /\ (forall it,
          dict_get i (options_map ol) = Some it ->
          dict_get i (options_map (mark_option_installed i ol))
          = Some (mkitem (item_option it) true false installed)
          /\ dict_get i (options_map (mark_option_uninstalled i ol))
             = Some (mkitem (item_option it) false (selected it) pending))
    /\ (forall k,
          k <> i ->
          dict_get k (options_map (mark_option_installed i ol))
          = dict_get k (options_map ol)
          /\ dict_get k (options_map (mark_option_uninstalled i ol))
             = dict_get k (options_map ol))
    /\ (forall k,
          is_selected (mark_option_installed i ol) k
          = negb (str_eqb k i) && is_selected ol k)
    /\ get_selected_options (mark_option_uninstalled i ol)
       = get_selected_options ol.
Proof.
  intros ol i. split; [|split; [|split; [|split]]].
  - intros H. unfold mark_option_installed, mark_option_uninstalled,
      set_option_status. rewrite !update_item_absent by exact H.
    repeat split. intros st. now apply update_item_absent.
  - intros it H. unfold mark_option_installed, mark_option_uninstalled.
    rewrite !(update_item_get _ _ _ _ H). split; reflexivity.
  - intros k H. unfold mark_option_installed, mark_option_uninstalled.
    rewrite !update_item_other by exact H. split; reflexivity.
  - intros k. unfold mark_option_installed. rewrite is_selected_update.
    unfold is_selected. destruct (dict_get k (options_map ol)) as [it|];
      [|now rewrite andb_false_r].
    destruct (str_eqb k i); reflexivity.
  - unfold mark_option_uninstalled, update_item, get_selected_options.
    destruct (dict_get i (options_map ol)) as [it|] eqn:E; [|reflexivity].
    cbn [options_map]. now apply (selection_dict_set i it).
Qed.

(** ** Every list that the program can reach *)

Lemma layout_dict_set k it it' (m : dict OptionItem) :
  dict_get k m = Some it -> item_option it' = item_option it ->
  layout (dict_set k it' m) = layout m.
Proof.
  intros Hget Hopt. unfold layout.
  induction m as [|[k0 v0] r IH]; [discriminate|].
  cbn [dict_get dict_set] in *. destruct (str_eqb k k0) eqn:E.
  - injection Hget as ->. cbn [List.map fst snd]. now rewrite Hopt.
  - cbn [List.map]. now rewrite (IH Hget).
Qed.

Lemma layout_keys (m : dict OptionItem) :
  List.map fst (layout m) = List.map fst m.
Proof. unfold layout. rewrite map_map. reflexivity. Qed.

(** What holds of every reachable list. *)
Lemma kept_by_update i f ol :
  (forall it, item_option (f it) = item_option it) ->
  (forall it, item_ok it = true -> item_ok (f it) = true) ->
  forallb (fun kv => item_ok (snd kv)) (options_map ol) = true ->
  layout (options_map (update_item i f ol)) = layout (options_map ol)
  /\ forallb (fun kv => item_ok (snd kv)) (options_map (update_item i f ol))
     = true.
Proof.
  intros Hopt Hok Hall. unfold update_item.
  destruct (dict_get i (options_map ol)) as [it|] eqn:E; [|auto].
  cbn [options_map]. split.
  - apply (layout_dict_set i it); [exact E | apply Hopt].
  - apply JsonFacts.forallb_dict_set; [|exact Hall].
    intros k' _. cbn [snd]. apply Hok.
    clear - E Hall. induction (options_map ol) as [|[k0 v0] r IH];
      [discriminate|].
    cbn [dict_get forallb snd] in *. apply andb_true_iff in Hall.
    destruct Hall as [H1 H2].
    destruct (str_eqb i k0); [now injection E as <- | now apply IH].
Qed.

Lemma kept_by_map (g : OptionItem -> OptionItem) (m : dict OptionItem) :
  (forall it, item_option (g it) = item_option it) ->
  (forall it, item_ok it = true -> item_ok (g it) = true) ->
  forallb (fun kv => item_ok (snd kv)) m = true ->
  layout (List.map (fun kv => (fst kv, g (snd kv))) m) = layout m
  /\ forallb (fun kv => item_ok (snd kv))
             (List.map (fun kv => (fst kv, g (snd kv))) m) = true.
Proof.
  intros Hopt Hok. unfold layout.
  induction m as [|[k it] r IH]; [auto|].
  cbn [List.map forallb fst snd]. intros H. apply andb_true_iff in H.
  destruct H as [H1 H2]. destruct (IH H2) as [I1 I2].
  rewrite I1, I2, Hopt, (Hok it H1). auto.
Qed.

Lemma kept_by_op o ol :
  layout (options_map ol) = List.map (fun o => (id o, o)) OPTIONS ->
  forallb (fun kv => item_ok (snd kv)) (options_map ol) = true ->
  layout (options_map (apply_op o ol))
  = List.map (fun o => (id o, o)) OPTIONS
  /\ forallb (fun kv => item_ok (snd kv)) (options_map (apply_op o ol))
     = true.
Proof.
  intros Hl Hok. rewrite <- Hl.
  destruct o as [i|ex| |i|i]; cbn [apply_op].
  - apply kept_by_update; [reflexivity| |exact Hok].
    intros [o b s st]. unfold item_ok. cbn. auto.
  - unfold select_all.
    pose proof (select_all_items_map ex (options_map ol)) as Hm.
    destruct (select_all_items ex (options_map ol)) as [m msgs].
    cbn [fst options_map] in *. subst m.
    apply (kept_by_map
             (fun it => if skipped ex it || selected it then it
                        else fst (toggle_selection it))) in Hok.
    + replace (List.map _ (options_map ol))
        with (List.map
                (fun kv =>
                   (fst kv,
                    (fun it => if skipped ex it || selected it then it
                               else fst (toggle_selection it)) (snd kv)))
                (options_map ol)); [exact Hok|].
      apply map_ext. intros [k it]. cbn [fst snd].
      destruct (skipped ex it || selected it); reflexivity.
    + intros it. destruct (skipped ex it || selected it); reflexivity.
    + intros [o b s st]. destruct (skipped ex _ || selected _);
        unfold item_ok; cbn; auto.
  - unfold deselect_all.
    pose proof (deselect_all_items_map (options_map ol)) as Hm.
    destruct (deselect_all_items (options_map ol)) as [m msgs].
    cbn [fst options_map] in *. subst m.
    apply kept_by_map; [reflexivity| |exact Hok].
    intros [o b s st]. unfold item_ok. cbn. auto.
  - apply kept_by_update; [reflexivity| |exact Hok].
    intros [o b s st] _. reflexivity.
  - apply kept_by_update; [reflexivity| |exact Hok].
    intros [o b s st] _. reflexivity.
Qed.

Lemma kept_by_compose inst :
  layout (options_map (compose inst)) = List.map (fun o => (id o, o)) OPTIONS
  /\ forallb (fun kv => item_ok (snd kv)) (options_map (compose inst)) = true.
Proof.
  unfold compose. rewrite (compose_from_map OPTIONS inst OPTIONS_distinct).
  unfold layout. rewrite map_map. cbn [fst snd new_item item_option].
  split; [reflexivity|].
  rewrite forallb_forall. intros kv H. apply in_map_iff in H.
  destruct H as [o [<- _]]. reflexivity.
Qed.

Lemma kept_by_ops os :
  forall ol,
    layout (options_map ol) = List.map (fun o => (id o, o)) OPTIONS ->
    forallb (fun kv => item_ok (snd kv)) (options_map ol) = true ->
    layout (options_map (apply_ops os ol))
    = List.map (fun o => (id o, o)) OPTIONS
    /\ forallb (fun kv => item_ok (snd kv)) (options_map (apply_ops os ol))
       = true.
Proof.
  induction os as [|o os IH]; intros ol Hl Hok; [auto|].
  cbn [apply_ops fold_left]. destruct (kept_by_op o ol Hl Hok) as [H1 H2].
  exact (IH _ H1 H2).
Qed.

Lemma selection_in_order (m : dict OptionItem) :
  NoDup (List.map fst m) ->
  List.map fst (filter (fun kv => selected (snd kv)) m)
  = filter (fun k => match dict_get k m with
                     | Some it => selected it
                     | None => false
                     end) (List.map fst m).
Proof.
  induction m as [|[k it] r IH]; [reflexivity|].
  cbn [List.map fst snd filter dict_get]. intros Hnd.
  inversion Hnd as [|? ? Hk Hr]. subst. rewrite str_eqb_refl.
  assert (filter (fun k0 => match (if str_eqb k0 k then Some it
                                   else dict_get k0 r) with
                            | Some it0 => selected it0
                            | None => false
                            end) (List.map fst r)
          = filter (fun k0 => match dict_get k0 r with
                              | Some it0 => selected it0
                              | None => false
                              end) (List.map fst r)) as ->.
  { apply filter_ext_in. intros k0 Hin.
    destruct (str_eqb k0 k) eqn:E; [|reflexivity].
    apply str_eqb_eq in E. subst k0. contradiction. }
  rewrite <- (IH Hr). destruct (selected it); reflexivity.
Qed.

Lemma filter_map_swap {A B} (g : A -> B) (p : B -> bool) (l : list A) :
  filter p (List.map g l) = List.map g (filter (fun a => p (g a)) l).
Proof.
  induction l as [|a r IH]; [reflexivity|]. cbn [List.map filter].
  destruct (p (g a)); cbn [List.map]; now rewrite IH.
Qed.

Lemma reachable_selection ol :
  layout (options_map ol) = List.map (fun o => (id o, o)) OPTIONS ->
  get_selected_options ol
  = List.map id (filter (fun o => is_selected ol (id o)) OPTIONS).
Proof.
  intros Hl. assert (List.map fst (options_map ol) = List.map id OPTIONS)
    as Hkeys.
  { rewrite <- layout_keys, Hl, map_map. reflexivity. }
  unfold get_selected_options. rewrite selection_in_order.
  - rewrite Hkeys, filter_map_swap. reflexivity.
  - rewrite Hkeys. apply OPTIONS_distinct.
Qed.

Lemma reachable_layout inst os :
  layout (options_map (apply_ops os (compose inst)))
  = List.map (fun o => (id o, o)) OPTIONS
  /\ forallb (fun kv => item_ok (snd kv))
             (options_map (apply_ops os (compose inst))) = true.
Proof.
  destruct (kept_by_compose inst) as [H1 H2]. exact (kept_by_ops os _ H1 H2).
Qed.

(** Whatever the user toggles and the screen marks, starting from the
    list as composed: the list keeps one item per option of the catalogue,
    in the order of the catalogue, under the option's id; no item ever has
    the status [installing] or [failed]; [_status_text] of an item is OK
    exactly when its installed flag is set and empty otherwise; and the
    selected
    ids come in the order of the catalogue, not in the order in which they
    were selected. *)
Theorem reachable_lists_keep_the_catalogue :
  forall (inst : State.pyset) (os : list list_op),
    let ol := apply_ops os (compose inst) in
    layout (options_map ol) = List.map (fun o => (id o, o)) OPTIONS
    /\ Forall
         (fun kv =>
            (status (snd kv) = pending \/ status (snd kv) = installed)
            /\ _status_text (snd kv)
               = (if is_installed (snd kv) then lit "[green]OK[/green]"
                  else []))
         (options_map ol)
    /\ get_selected_options ol
       = List.map id (filter (fun o => is_selected ol (id o)) OPTIONS).
Proof.
  intros inst os ol. destruct (kept_by_compose inst) as [H1 H2].
  destruct (kept_by_ops os _ H1 H2) as [Hl Hok]. fold ol in Hl, Hok.
  split; [exact Hl|]. split; [|now apply reachable_selection].
  apply Forall_forall. intros [k [o b s st]] Hin.
  rewrite forallb_forall in Hok. specialize (Hok _ Hin).
  unfold item_ok, _status_text in *. cbn [snd status is_installed] in *.
  destruct st; try discriminate.
  - split; [now left|]. destruct b; reflexivity.
  - subst b. split; [now right | reflexivity].
Qed.

End WidgetLaws.

(* ===================================================================== *)
(** * The screen: starting up, selecting, uninstalling                    *)
(* ===================================================================== *)

Module ScreenLaws.
Import Py Json Installer Options Widgets Screen.
Import PyFacts JsonFacts StateFacts ModalFacts WidgetFacts ScreenFacts.
Import StateLaws ModalLaws WidgetLaws.

(** ** Nothing selected *)

Lemma action_install_empty s :
  get_selected_options (option_list s) = [] ->
  action_install s
  = (Ok None,
     mkscreen (script_dir s) (option_list s)
              (lit "[yellow]No options selected[/yellow]") (store s)).
Proof. intros H. unfold action_install. now rewrite H. Qed.

Lemma action_uninstall_empty s :
  get_selected_options (option_list s) = [] ->
  action_uninstall s
  = (Ok None,
     mkscreen (script_dir s) (option_list s)
              (lit "[yellow]No options selected[/yellow]") (store s)).
Proof. intros H. unfold action_uninstall. now rewrite H. Qed.

Lemma action_install_some s x xs :
  get_selected_options (option_list s) = x :: xs ->
  action_install s
  = (Ok (Some (mkpushed (Modal.new_modal (script_dir s) (x :: xs) false)
                        (x :: xs) (on_complete_install (x :: xs)))),
     mkscreen (script_dir s) (option_list s)
              (lit "[cyan]Installing " ++ str_of_nat (List.length (x :: xs))
               ++ lit " option(s)...[/cyan]") (store s)).
Proof. intros H. unfold action_install. now rewrite H. Qed.

Lemma action_uninstall_some s x xs :
  get_selected_options (option_list s) = x :: xs ->
  action_uninstall s
  = (Ok (Some (mkpushed (Modal.new_modal (script_dir s) (x :: xs) true)
                        (x :: xs) (on_complete_uninstall (x :: xs)))),
     mkscreen (script_dir s) (option_list s)
              (lit "[cyan]Uninstalling " ++ str_of_nat (List.length (x :: xs))
               ++ lit " option(s)...[/cyan]") (store s)).
Proof. intros H. unfold action_uninstall. now rewrite H. Qed.

(** With nothing selected, [i] and [u] start nothing: no modal is pushed,
    so no command runs whatever events follow; the state file and the list
    stay as they are and the status bar says that no options are
    selected. *)
Theorem empty_selection_runs_nothing
    (s : MainScreen) (un : bool) (es : list Modal.event) :
  get_selected_options (option_list s) = [] ->
  let r := (if un then uninstall_run es s else install_run es s) in
  outcome r = Ok tt
  /\ state_after r
     = mkscreen (script_dir s) (option_list s)
                (lit "[yellow]No options selected[/yellow]") (store s)
  /\ outcome (action_install s) = Ok None
  /\ outcome (action_uninstall s) = Ok None.
Proof.
  intros H r. subst r.
  unfold install_run, uninstall_run, mbind.
  rewrite (action_install_empty s H), (action_uninstall_empty s H).
  destruct un; repeat split.
Qed.

Lemma empty_selection_runs_nothing_witness :
  let s := mkscreen (lit "/d") (compose []) ready_text (State.mkfs None 0) in
  let r := install_run [Modal.Exited 0; Modal.Click] s in
  outcome r = Ok tt
  /\ state_after r
     = mkscreen (script_dir s) (option_list s)
                (lit "[yellow]No options selected[/yellow]") (store s)
  /\ outcome (action_install s) = Ok None
  /\ outcome (action_uninstall s) = Ok None.
Proof.
  exact (empty_selection_runs_nothing
           (mkscreen (lit "/d") (compose []) ready_text (State.mkfs None 0))
           false [Modal.Exited 0; Modal.Click] eq_refl).
Defined.

(** ** The status bar *)

Lemma update_status_run s :
  _update_status s
  = (Ok tt,
     mkscreen (script_dir s) (option_list s)
              (selection_text (get_selected_options (option_list s)))
              (store s)).
Proof.
  unfold _update_status, selection_text.
  destruct (get_selected_options (option_list s)); reflexivity.
Qed.

Lemma action_select_all_run s :
  action_select_all s
  = (Ok tt,
     mkscreen (script_dir s) (fst (select_all true (option_list s)))
       (selection_text
          (get_selected_options (fst (select_all true (option_list s)))))
       (store s)).
Proof.
  unfold action_select_all, mbind, on_list. now rewrite update_status_run.
Qed.

Lemma action_deselect_all_run s :
  action_deselect_all s
  = (Ok tt,
     mkscreen (script_dir s) (fst (deselect_all (option_list s)))
              ready_text (store s)).
Proof.
  unfold action_deselect_all, mbind, on_list. rewrite update_status_run.
  cbn [option_list script_dir store].
  now rewrite deselect_all_none_selected.
Qed.

Lemma fresh_select_all inst :
  get_selected_options (fst (select_all true (compose inst)))
  = List.map id get_options_for_all.
Proof.
  rewrite select_all_selected. unfold compose.
  rewrite (compose_from_map OPTIONS inst OPTIONS_distinct).
  unfold get_options_for_all, skipped. cbn [andb].
  apply fresh_selection.
Qed.

(** The keys [a] and [d] touch neither the state file nor the directory.
    After [d] nothing is selected, the status bar reads Ready, and [i]
    starts nothing.  After [a] the status bar counts what is selected; on
    a list as composed at start these are the twelve options that are not
    excluded from "all". *)
Theorem select_keys_set_the_status_bar :
  forall s : MainScreen,
    let a := state_after (action_select_all s) in
    let d := state_after (action_deselect_all s) in
    (outcome (action_select_all s) = Ok tt
     /\ option_list a = fst (select_all true (option_list s))
     /\ store a = store s /\ script_dir a = script_dir s
     /\ status_bar a = selection_text (get_selected_options (option_list a)))
    /\ (outcome (action_deselect_all s) = Ok tt
        /\ get_selected_options (option_list d) = []
        /\ store d = store s /\ script_dir d = script_dir s
        /\ status_bar d = ready_text
        /\ outcome (action_install d) = Ok None)
    /\ (forall inst,
          option_list s = compose inst ->
          status_bar a = lit "[cyan]12 option(s) selected[/cyan]").
Proof.
  intros s a d. subst a d.
  rewrite action_select_all_run, action_deselect_all_run.
  cbn [outcome state_after fst snd option_list store script_dir status_bar].
  pose proof (deselect_all_none_selected (option_list s)) as Hnone.
  split; [auto 10|]. split.
  - repeat split; try assumption.
    now rewrite action_install_empty.
  - intros inst ->. now rewrite fresh_select_all.
Qed.

(** ** Starting up *)

Lemma get_installed_well_formed f :
  well_formed_store f = true ->
  exists set, State.get_installed f = (Ok set, f).
Proof.
  intros Hw. destruct (well_formed_store_inv f Hw) as [d [l [Hl [_ [Hin Hh]]]]].
  rewrite (get_installed_loaded f _ Hl). unfold State.py_get.
  unfold State.installed_of in Hin.
  destruct (dict_get State.key d) as [v|]; [subst v | injection Hin as <-];
    cbn [State.py_set]; rewrite ?Hh; eauto.
Qed.

Lemma dict_get_map {A V} (k : A -> pystr) (v : A -> V) (l : list A) a :
  NoDup (List.map k l) -> In a l ->
  dict_get (k a) (List.map (fun x => (k x, v x)) l) = Some (v a).
Proof.
  induction l as [|x r IH]; [contradiction|].
  cbn [List.map dict_get]. intros Hnd [->|Hin].
  - now rewrite str_eqb_refl.
  - inversion Hnd as [|? ? Hx Hr]. subst.
    destruct (str_eqb (k a) (k x)) eqn:E; [|now apply IH].
    apply str_eqb_eq in E. exfalso. apply Hx. rewrite <- E. now apply in_map.
Qed.

Lemma composed_item inst o :
  In o OPTIONS ->
  dict_get (id o) (options_map (compose inst))
  = Some (new_item o (State.set_mem (JStr (id o)) inst)).
Proof.
  intros Hin. unfold compose.
  rewrite (compose_from_map OPTIONS inst OPTIONS_distinct).
  exact (dict_get_map id
           (fun o => new_item o (State.set_mem (JStr (id o)) inst))
           OPTIONS o OPTIONS_distinct Hin).
Qed.

Lemma composed_nothing_selected inst :
  get_selected_options (compose inst) = [].
Proof.
  unfold get_selected_options, compose.
  rewrite (compose_from_map OPTIONS inst OPTIONS_distinct).
  induction OPTIONS as [|o r IH]; [reflexivity | exact IH].
Qed.

Lemma startup_screen sd f :
  well_formed_store f = true ->
  exists set,
    new_screen sd f = (Ok (mkscreen sd (compose set) ready_text f), f)
    /\ forall x, is_installed_in f x = State.set_mem (JStr x) set.
Proof.
  intros Hw. destruct (get_installed_well_formed f Hw) as [set Hset].
  exists set. split; [unfold new_screen, mbind; now rewrite Hset|].
  intros x. unfold is_installed_in. now rewrite Hset.
Qed.

(** When the program starts on a state file of the expected shape, the
    screen is composed without touching the file: one item per option of
    the catalogue, in its order; nothing is selected and the status bar
    reads Ready; an item shows OK exactly when the file lists its id. *)
Theorem startup_shows_what_the_file_lists (sd : pystr) (f : State.fs) :
  well_formed_store f = true ->
  exists s,
    new_screen sd f = (Ok s, f)
    /\ script_dir s = sd /\ store s = f /\ status_bar s = ready_text
    /\ get_selected_options (option_list s) = []
    /\ layout (options_map (option_list s))
       = List.map (fun o => (id o, o)) OPTIONS
    /\ forall o,
         In o OPTIONS ->
         exists it,
           dict_get (id o) (options_map (option_list s)) = Some it
           /\ item_option it = o
           /\ selected it = false
           /\ is_installed it = is_installed_in f (id o)
           /\ _status_text it
              = (if is_installed_in f (id o) then lit "[green]OK[/green]"
                 else []).
Proof.
  intros Hw. destruct (startup_screen sd f Hw) as [set [Hnew Hmem]].
  exists (mkscreen sd (compose set) ready_text f).
  split; [exact Hnew|]. cbn [script_dir store status_bar option_list].
  split; [reflexivity|]. split; [reflexivity|]. split; [reflexivity|].
  split; [apply composed_nothing_selected|].
  split; [exact (proj1 (kept_by_compose set))|].
  intros o Hin. rewrite (composed_item set o Hin).
  exists (new_item o (State.set_mem (JStr (id o)) set)).
  rewrite Hmem. unfold _status_text, new_item. cbn.
  destruct (State.set_mem (JStr (id o)) set); auto.
Qed.

Lemma startup_shows_what_the_file_lists_witness :
  let f := state_after (State.mark_installed (lit "fish") (State.mkfs None 0)) in
  exists s,
    new_screen (lit "/d") f = (Ok s, f)
    /\ script_dir s = lit "/d" /\ store s = f /\ status_bar s = ready_text
    /\ get_selected_options (option_list s) = []
    /\ layout (options_map (option_list s))
       = List.map (fun o => (id o, o)) OPTIONS
    /\ forall o,
         In o OPTIONS ->
         exists it,
           dict_get (id o) (options_map (option_list s)) = Some it
           /\ item_option it = o
           /\ selected it = false
           /\ is_installed it = is_installed_in f (id o)
           /\ _status_text it
              = (if is_installed_in f (id o) then lit "[green]OK[/green]"
                 else []).
Proof.
  exact (startup_shows_what_the_file_lists (lit "/d")
           (state_after (State.mark_installed (lit "fish") (State.mkfs None 0)))
           eq_refl).
Defined.

(** ** After an installation, the next start *)

Lemma install_one_dir i s :
  script_dir (state_after (install_one i s)) = script_dir s.
Proof.
  unfold install_one, mbind, in_store, on_list.
  destruct (State.mark_installed i (store s)) as [[[]|e] f']; reflexivity.
Qed.

Lemma install_loop_dir ids :
  forall s,
    script_dir (state_after (for_each ids install_one s)) = script_dir s.
Proof.
  induction ids as [|i ids IH]; intros s; [reflexivity|].
  cbn [for_each]. unfold mbind at 1. pose proof (install_one_dir i s) as H.
  destruct (install_one i s) as [[[]|e] s2]; cbn [state_after snd] in *.
  - now rewrite IH.
  - exact H.
Qed.

Lemma install_run_store
    (machine : os) (s : MainScreen) (es : list Modal.event)
    (lines : list pystr) :
  let requested := get_selected_options (option_list s) in
  requested <> [] ->
  Modal.run_on machine (pushed_modal s false) es ->
  machine (build_command (script_dir s) requested false) (script_dir s)
  = Runs lines 0 ->
  Modal.dismissed (Modal.session es (pushed_modal s false)) <> None ->
  well_formed_store (store s) = true ->
  forallb str_ok requested = true ->
  let r := install_run es s in
  outcome r = Ok tt
  /\ script_dir (state_after r) = script_dir s
  /\ well_formed_store (store (state_after r)) = true
  /\ (forall x, In x requested ->
                is_installed_in (store (state_after r)) x = true)
  /\ (forall x, is_installed_in (store s) x = true ->
                is_installed_in (store (state_after r)) x = true).
Proof.
  intros requested Hne Hrun Hm Hclosed Hw Hids r.
  unfold Modal.run_on in Hrun.
  cbn [pushed_modal Modal.script_dir Modal.options Modal.uninstall
       Modal.new_modal] in Hrun.
  fold requested in Hrun. rewrite Hm in Hrun.
  destruct requested as [|x xs] eqn:Hreq; [contradiction|].
  subst r. rewrite (install_run_pushed es s x xs Hreq).
  destruct (Modal.dismissed _) as [b|] eqn:Hb; [|contradiction].
  assert (b = true) as ->
      by apply (dismissed_with_exit_code es _ _ _ lines 0 b Hrun Hb).
  unfold on_complete_install. set (s0 := mkscreen _ _ _ _).
  assert (Forall (fun y => dict_has y (options_map (option_list s0)) = true)
                 (x :: xs)) as Hhas.
  { rewrite <- Hreq. apply selected_have_items. }
  destruct (install_loop (x :: xs) s0 Hw Hids Hhas) as [L1 [L2 [L3 [_ L5]]]].
  pose proof (install_loop_dir (x :: xs) s0) as Hdir.
  unfold mbind. destruct (for_each (x :: xs) install_one s0) as [o s1].
  cbn [outcome state_after fst snd] in *. subst o.
  unfold _set_status.
  cbn [outcome state_after fst snd store option_list script_dir].
  split; [reflexivity|]. split; [exact Hdir|]. split; [exact L2|].
  split; [intros y Hy; now apply L5 | exact L3].
Qed.



(** ** Uninstalling *)

Lemma uninstall_one_run i s :
  duplicate_free_store (store s) = true ->
  let r := uninstall_one i s in
  outcome r = Ok tt
  /\ script_dir (state_after r) = script_dir s
  /\ status_bar (state_after r) = status_bar s
  /\ option_list (state_after r) = mark_option_uninstalled i (option_list s)
  /\ duplicate_free_store (store (state_after r)) = true
  /\ forall x,
       is_installed_in (store (state_after r)) x
       = negb (str_eqb x i) && is_installed_in (store s) x.
Proof.
  intros Hd r.
  destruct (duplicate_free_store_inv _ Hd) as [d [l [Hl [Hin [Hh Hn]]]]].
  destruct (mark_uninstalled_on_list (store s) d l i Hl Hin Hh)
    as [H1 [_ [H3 [_ H5]]]].
  destruct (H5 Hn) as [H6 H7].
  subst r. unfold uninstall_one, mbind, in_store, on_list.
  destruct (State.mark_uninstalled i (store s)) as [o f'].
  cbn [outcome state_after fst snd] in *. subst o.
  cbn [outcome state_after fst snd store option_list script_dir status_bar].
  repeat split; try assumption.
  intros x. destruct (str_eqb x i) eqn:E.
  - apply str_eqb_eq in E. subst x. exact H6.
  - apply str_eqb_neq in E. now apply H3.
Qed.

Lemma uninstall_loop ids :
  forall s,
    duplicate_free_store (store s) = true ->
    let r := for_each ids uninstall_one s in
    outcome r = Ok tt
    /\ script_dir (state_after r) = script_dir s
    /\ status_bar (state_after r) = status_bar s
    /\ option_list (state_after r)
       = fold_left (fun ol i => mark_option_uninstalled i ol) ids
                   (option_list s)
    /\ duplicate_free_store (store (state_after r)) = true
    /\ forall x,
         is_installed_in (store (state_after r)) x
         = negb (existsb (str_eqb x) ids) && is_installed_in (store s) x.
Proof.
  induction ids as [|i ids IH]; intros s Hd r.
  - subst r. cbn. auto 10.
  - destruct (uninstall_one_run i s Hd) as [H1 [H2 [H3 [H4 [H5 H6]]]]].
    subst r. destruct (uninstall_one i s) as [o s1] eqn:Es.
    cbn [outcome state_after fst snd] in *. subst o.
    rewrite (for_each_step uninstall_one i ids s s1 Es).
    destruct (IH s1 H5) as [I1 [I2 [I3 [I4 [I5 I6]]]]].
    split; [exact I1|]. split; [congruence|]. split; [congruence|].
    split; [rewrite I4, H4; reflexivity|]. split; [exact I5|].
    intros x. rewrite I6, H6. cbn [existsb].
    destruct (str_eqb x i); destruct (existsb (str_eqb x) ids); reflexivity.
Qed.

Lemma uninstalled_keeps_selection i ol :
  get_selected_options (mark_option_uninstalled i ol)
  = get_selected_options ol.
Proof.
  unfold mark_option_uninstalled, update_item, get_selected_options.
  destruct (dict_get i (options_map ol)) as [it|] eqn:E; [|reflexivity].
  cbn [options_map]. now apply (selection_dict_set i it).
Qed.

Lemma item_undone_marked i ol :
  dict_has i (options_map ol) = true ->
  item_undone (mark_option_uninstalled i ol) i = true.
Proof.
  unfold dict_has, item_undone, mark_option_uninstalled, update_item.
  destruct (dict_get i (options_map ol)) as [it|] eqn:E; [|discriminate].
  intros _. cbn [options_map]. now rewrite dict_get_set_same.
Qed.

Lemma item_undone_kept i x ol :
  item_undone ol x = true ->
  item_undone (mark_option_uninstalled i ol) x = true.
Proof.
  destruct (list_eq_dec N.eq_dec i x) as [->|Hne].
  - intros H. apply item_undone_marked. unfold item_undone in H.
    unfold dict_has.
    destruct (dict_get x (options_map ol)); [reflexivity | discriminate].
  - unfold item_undone, mark_option_uninstalled, update_item.
    destruct (dict_get i (options_map ol)) as [it|]; [|auto].
    cbn [options_map]. now rewrite dict_get_set_other.
Qed.

Lemma dict_has_unmarked i x ol :
  dict_has x (options_map ol) = true ->
  dict_has x (options_map (mark_option_uninstalled i ol)) = true.
Proof.
  unfold mark_option_uninstalled, update_item.
  destruct (dict_get i (options_map ol)) as [it|] eqn:E; [|auto].
  cbn [options_map]. unfold dict_has.
  destruct (list_eq_dec N.eq_dec i x) as [->|Hne].
  - now rewrite dict_get_set_same.
  - now rewrite dict_get_set_other.
Qed.

Lemma unmark_all ids :
  forall ol,
    let ol' := fold_left (fun ol i => mark_option_uninstalled i ol) ids ol in
    get_selected_options ol' = get_selected_options ol
    /\ (forall x, dict_has x (options_map ol) = true ->
                  dict_has x (options_map ol') = true)
    /\ (forall x, item_undone ol x = true -> item_undone ol' x = true)
    /\ (forall x, In x ids -> dict_has x (options_map ol) = true ->
                  item_undone ol' x = true).
Proof.
  induction ids as [|i ids IH]; intros ol ol'.
  - subst ol'. cbn. repeat split; auto; contradiction.
  - subst ol'. cbn [fold_left].
    destruct (IH (mark_option_uninstalled i ol)) as [I1 [I2 [I3 I4]]].
    cbv zeta in *. split; [now rewrite I1, uninstalled_keeps_selection|].
    split; [intros x Hx; now apply I2, dict_has_unmarked|].
    split; [intros x Hx; now apply I3, item_undone_kept|].
    intros x [<-|Hin] Hx.
    + now apply I3, item_undone_marked.
    + now apply I4, dict_has_unmarked.
Qed.



(** ** What a reachable screen asks for *)

Lemma catalogue_ids_are_plain :
  forallb str_ok (List.map id OPTIONS) = true
  /\ forallb (fun i => negb (str_eqb i (lit "uninstall")))
             (List.map id OPTIONS) = true.
Proof. split; vm_compute; reflexivity. Qed.

Lemma forallb_filter {A} (p q : A -> bool) l :
  forallb p l = true -> forallb p (filter q l) = true.
Proof.
  rewrite !forallb_forall. intros H x Hx. apply filter_In in Hx.
  now apply H.
Qed.

(** On every screen the program can reach (the list as composed, then any
    toggles, select-all, deselect-all and marks), what [i] or [u] pushes
    is a request for the selected options in the order of the catalogue:
    not empty, without repetition, made of ids of the catalogue, which are
    plain strings that the state file stores and reads back unchanged and
    none of which is the word [uninstall]. *)
Theorem pushed_request_follows_the_catalogue
    (sd bar : pystr) (inst : State.pyset) (os : list list_op)
    (f : State.fs) (un : bool) (p : pushed) :
  let s := mkscreen sd (apply_ops os (compose inst)) bar f in
  let picked := get_selected_options (option_list s) in
  outcome ((if un then action_uninstall else action_install) s)
  = Ok (Some p) ->
  picked <> []
  /\ requested p = picked
  /\ modal p = Modal.new_modal sd picked un
  /\ picked
     = List.map id
         (filter (fun o => is_selected (option_list s) (id o)) OPTIONS)
  /\ NoDup picked
  /\ forallb str_ok picked = true
  /\ hd_error picked <> Some (lit "uninstall").
Proof.
  intros s picked Hp.
  assert (picked
          = List.map id
              (filter (fun o => is_selected (option_list s) (id o)) OPTIONS))
    as Horder.
  { destruct (reachable_layout inst os) as [Hl _].
    exact (reachable_selection _ Hl). }
  assert (picked = filter (is_selected (option_list s)) (List.map id OPTIONS))
    as Hfilter by (rewrite Horder; symmetry; apply filter_map_swap).
  destruct catalogue_ids_are_plain as [Hplain Hword].
  assert (picked <> [] /\ requested p = picked
          /\ modal p = Modal.new_modal sd picked un) as [H1 [H2 H3]].
  { assert (get_selected_options (option_list s) = picked) as Hsel
        by reflexivity.
    destruct picked as [|x xs] eqn:E.
    - destruct un;
        [rewrite (action_uninstall_empty s Hsel) in Hp
        |rewrite (action_install_empty s Hsel) in Hp]; discriminate.
    - split; [discriminate|].
      destruct un;
        [rewrite (action_uninstall_some s x xs Hsel) in Hp
        |rewrite (action_install_some s x xs Hsel) in Hp];
        cbn [outcome fst] in Hp; injection Hp as <-; split; reflexivity. }
  split; [exact H1|]. split; [exact H2|]. split; [exact H3|].
  split; [exact Horder|]. split; [|split].
  - rewrite Hfilter. apply NoDup_filter, OPTIONS_distinct.
  - rewrite Hfilter. now apply forallb_filter.
  - assert (forallb (fun i => negb (str_eqb i (lit "uninstall"))) picked
            = true) as Hw
        by (rewrite Hfilter; now apply forallb_filter).
    destruct picked as [|x xs]; [discriminate|].
    cbn [forallb hd_error] in *. apply andb_true_iff in Hw.
    destruct Hw as [Hw _]. apply negb_true_iff, str_eqb_neq in Hw.
    congruence.
Qed.

Lemma pushed_request_follows_the_catalogue_witness :
  let s := mkscreen (lit "/d")
             (apply_ops [Toggle (lit "fish"); Toggle (lit "claude")]
                        (compose []))
             ready_text (State.mkfs None 0) in
  let picked := [lit "claude"; lit "fish"] in
  picked <> []
  /\ picked = picked
  /\ Modal.new_modal (lit "/d") picked false
     = Modal.new_modal (lit "/d") picked false
  /\ picked
     = List.map id
         (filter (fun o => is_selected (option_list s) (id o)) OPTIONS)
  /\ NoDup picked
  /\ forallb str_ok picked = true
  /\ hd_error picked <> Some (lit "uninstall").
Proof.
  exact (pushed_request_follows_the_catalogue
           (lit "/d") ready_text [] [Toggle (lit "fish"); Toggle (lit "claude")]
           (State.mkfs None 0) false
           (mkpushed
              (Modal.new_modal (lit "/d") [lit "claude"; lit "fish"] false)
              [lit "claude"; lit "fish"]
              (on_complete_install [lit "claude"; lit "fish"]))
           eq_refl).
Defined.

End ScreenLaws.

(* ===================================================================== *)
(** * The installed flags agree with the file                             *)
(* ===================================================================== *)

Module SessionLaws.
Import Py Json Installer Options Widgets Screen.
Import PyFacts JsonFacts StateFacts ModalFacts WidgetFacts ScreenFacts.
Import StateLaws ModalLaws WidgetLaws ScreenLaws.

(** ** The installed flags under the calls on the list *)

Lemma dict_get_map_values {V} (h : pystr * V -> pystr * V) (g : V -> V)
    (m : dict V) k :
  (forall kv, h kv = (fst kv, g (snd kv))) ->
  dict_get k (List.map h m) = option_map g (dict_get k m).
Proof.
  intros Hh. induction m as [|[k0 v0] r IH]; [reflexivity|].
  cbn [List.map dict_get]. rewrite Hh. cbn [fst snd].
  destruct (str_eqb k k0); [reflexivity | exact IH].
Qed.

Lemma flagged_installed_update i f ol k :
  flagged_installed (update_item i f ol) k
  = match dict_get k (options_map ol) with
    | Some it => if str_eqb k i then is_installed (f it) else is_installed it
    | None => false
    end.
Proof.
  unfold flagged_installed. destruct (str_eqb k i) eqn:E.
  - apply str_eqb_eq in E. subst k.
    destruct (dict_get i (options_map ol)) as [it|] eqn:Ei.
    + now rewrite (update_item_get _ _ _ _ Ei).
    + now rewrite update_item_absent, Ei.
  - apply str_eqb_neq in E. now rewrite update_item_other.
Qed.

Lemma flagged_installed_selection o ol k :
  match o with
  | Toggle _ | SelectAll _ | DeselectAll => True
  | MarkInstalled _ | MarkUninstalled _ => False
  end ->
  flagged_installed (apply_op o ol) k = flagged_installed ol k.
Proof.
  destruct o as [i|ex| |i|i]; try contradiction; intros _; cbn [apply_op].
  - unfold toggle. rewrite flagged_installed_update. unfold flagged_installed.
    destruct (dict_get k (options_map ol)) as [it|]; [|reflexivity].
    destruct (str_eqb k i); reflexivity.
  - unfold flagged_installed, select_all.
    pose proof (select_all_items_map ex (options_map ol)) as Hm.
    destruct (select_all_items ex (options_map ol)) as [m msgs].
    cbn [fst options_map] in *. subst m.
    rewrite (dict_get_map_values _
               (fun it => if skipped ex it || selected it then it
                          else fst (toggle_selection it))).
    + destruct (dict_get k (options_map ol)) as [it|]; [|reflexivity].
      cbn [option_map]. destruct (skipped ex it || selected it); reflexivity.
    + intros [k0 it]. cbn [fst snd].
      destruct (skipped ex it || selected it); reflexivity.
  - unfold flagged_installed, deselect_all.
    pose proof (deselect_all_items_map (options_map ol)) as Hm.
    destruct (deselect_all_items (options_map ol)) as [m msgs].
    cbn [fst options_map] in *. subst m.
    rewrite (dict_get_map_values _ (set_selected false))
      by reflexivity.
    destruct (dict_get k (options_map ol)) as [it|]; reflexivity.
Qed.

Lemma flagged_installed_marked i ol k :
  dict_has i (options_map ol) = true ->
  flagged_installed (mark_option_installed i ol) k
  = str_eqb k i || flagged_installed ol k.
Proof.
  intros Hhas. unfold mark_option_installed. rewrite flagged_installed_update.
  unfold flagged_installed, dict_has in *.
  destruct (str_eqb k i) eqn:E.
  - apply str_eqb_eq in E. subst k.
    destruct (dict_get i (options_map ol)); [reflexivity | discriminate].
  - destruct (dict_get k (options_map ol)); reflexivity.
Qed.

Lemma flagged_installed_unmarked i ol k :
  flagged_installed (mark_option_uninstalled i ol) k
  = negb (str_eqb k i) && flagged_installed ol k.
Proof.
  unfold mark_option_uninstalled. rewrite flagged_installed_update.
  unfold flagged_installed.
  destruct (dict_get k (options_map ol)) as [it|];
    [|now rewrite andb_false_r].
  destruct (str_eqb k i); reflexivity.
Qed.

(** ** What every key keeps *)

Lemma agrees_bar s text :
  agrees s ->
  agrees (mkscreen (script_dir s) (option_list s) text (store s)).
Proof. intros H. exact H. Qed.

Lemma layout_has ol i :
  layout (options_map ol) = List.map (fun o => (id o, o)) OPTIONS ->
  In i (List.map id OPTIONS) -> dict_has i (options_map ol) = true.
Proof.
  intros Hl Hin. unfold dict_has.
  destruct (dict_get i (options_map ol)) eqn:E; [reflexivity|].
  apply dict_get_none_notin in E. exfalso. apply E.
  rewrite <- layout_keys, Hl, map_map. exact Hin.
Qed.

Lemma agrees_selection o s :
  match o with
  | Toggle _ | SelectAll _ | DeselectAll => True
  | MarkInstalled _ | MarkUninstalled _ => False
  end ->
  agrees s ->
  forall text,
    agrees (mkscreen (script_dir s) (apply_op o (option_list s)) text
                     (store s)).
Proof.
  intros Ho [H1 [H2 [H3 H4]]] text.
  destruct (kept_by_op o (option_list s) H2 H3) as [K1 K2].
  split; [exact H1|]. split; [exact K1|]. split; [exact K2|].
  intros x Hx. cbn [option_list store].
  rewrite (flagged_installed_selection o _ _ Ho). now apply H4.
Qed.

Lemma catalogue_id_plain i :
  In i (List.map id OPTIONS) -> str_ok i = true.
Proof.
  intros H. destruct catalogue_ids_are_plain as [Hp _].
  rewrite forallb_forall in Hp. now apply Hp.
Qed.

Lemma install_one_agrees i s :
  agrees s -> In i (List.map id OPTIONS) ->
  outcome (install_one i s) = Ok tt /\ agrees (state_after (install_one i s)).
Proof.
  intros [H1 [H2 [H3 H4]]] Hi.
  destruct (mark_installed_on_set (store s) i
              (duplicate_free_well_formed _ H1) (catalogue_id_plain i Hi))
    as [M1 [_ [M3 M4]]].
  destruct (kept_by_op (MarkInstalled i) (option_list s) H2 H3) as [K1 K2].
  pose proof (layout_has _ i H2 Hi) as Hhas.
  unfold install_one, mbind, in_store, on_list.
  destruct (State.mark_installed i (store s)) as [o f'].
  cbn [outcome state_after fst snd] in *. subst o.
  cbn [outcome state_after fst snd]. split; [reflexivity|].
  split; [exact (M4 H1)|]. split; [exact K1|]. split; [exact K2|].
  intros x Hx. cbn [option_list store].
  rewrite (flagged_installed_marked i _ _ Hhas), M3. now rewrite (H4 x Hx).
Qed.

Lemma uninstall_one_agrees i s :
  agrees s ->
  outcome (uninstall_one i s) = Ok tt
  /\ agrees (state_after (uninstall_one i s)).
Proof.
  intros [H1 [H2 [H3 H4]]].
  destruct (uninstall_one_run i s H1) as [U1 [_ [_ [U4 [U5 U6]]]]].
  destruct (kept_by_op (MarkUninstalled i) (option_list s) H2 H3) as [K1 K2].
  cbv zeta in *. split; [exact U1|].
  split; [exact U5|]. rewrite U4. split; [exact K1|]. split; [exact K2|].
  intros x Hx. rewrite flagged_installed_unmarked, U6. now rewrite (H4 x Hx).
Qed.

Lemma loop_agrees (body : pystr -> M MainScreen unit) (good : pystr -> Prop) :
  (forall i s, agrees s -> good i ->
               outcome (body i s) = Ok tt /\ agrees (state_after (body i s))) ->
  forall ids s,
    agrees s -> Forall good ids ->
    outcome (for_each ids body s) = Ok tt
    /\ agrees (state_after (for_each ids body s)).
Proof.
  intros Hbody. induction ids as [|i ids IH]; intros s Hs Hids.
  - split; [reflexivity | exact Hs].
  - inversion Hids as [|? ? Hi Hrest]. subst.
    destruct (Hbody i s Hs Hi) as [B1 B2].
    destruct (body i s) as [o s1] eqn:E.
    cbn [outcome state_after fst snd] in *. subst o.
    rewrite (for_each_step body i ids s s1 E). now apply IH.
Qed.

Lemma selected_in_catalogue s :
  agrees s ->
  Forall (fun i => In i (List.map id OPTIONS))
         (get_selected_options (option_list s)).
Proof.
  intros [_ [H2 _]]. apply Forall_forall. intros i Hi.
  unfold get_selected_options in Hi. apply in_map_iff in Hi.
  destruct Hi as [kv [<- Hkv]]. apply filter_In in Hkv.
  destruct Hkv as [Hkv _].
  assert (List.map fst (options_map (option_list s)) = List.map id OPTIONS)
    as <- by (rewrite <- layout_keys, H2, map_map; reflexivity).
  now apply in_map.
Qed.

Lemma react_agrees p s :
  agrees s ->
  outcome (react p s) = Ok tt /\ agrees (state_after (react p s)).
Proof.
  intros Hs. destruct p as [[i|]| | |es|es]; cbn [react].
  - unfold action_toggle, on_option_item_selected, mbind, on_list.
    rewrite update_status_run. cbn [outcome state_after fst snd].
    split; [reflexivity|].
    exact (agrees_selection (Toggle i) s I Hs _).
  - split; [reflexivity | exact Hs].
  - rewrite action_select_all_run. split; [reflexivity|].
    exact (agrees_selection (SelectAll true) s I Hs _).
  - rewrite action_deselect_all_run. split; [reflexivity|].
    exact (agrees_selection DeselectAll s I Hs _).
  - pose proof (selected_in_catalogue s Hs) as Hsel.
    destruct (get_selected_options (option_list s)) as [|x xs] eqn:E.
    + unfold install_run, mbind. rewrite (action_install_empty s E).
      split; [reflexivity | exact Hs].
    + rewrite (install_run_pushed es s x xs E).
      destruct (Modal.dismissed _) as [[|]|];
        try (split; [reflexivity | exact Hs]).
      unfold on_complete_install, mbind.
      destruct (loop_agrees install_one
                  (fun i => In i (List.map id OPTIONS))
                  install_one_agrees (x :: xs)
                  (mkscreen (script_dir s) (option_list s)
                     (lit "[cyan]Installing "
                      ++ str_of_nat (List.length (x :: xs))
                      ++ lit " option(s)...[/cyan]") (store s))
                  Hs Hsel) as [L1 L2].
      destruct (for_each (x :: xs) install_one _) as [o s1].
      cbn [outcome state_after fst snd] in *. subst o.
      split; [reflexivity | exact L2].
  - destruct (get_selected_options (option_list s)) as [|x xs] eqn:E.
    + unfold uninstall_run, mbind. rewrite (action_uninstall_empty s E).
      split; [reflexivity | exact Hs].
    + rewrite (uninstall_run_pushed es s x xs E).
      destruct (Modal.dismissed _) as [[|]|];
        try (split; [reflexivity | exact Hs]).
      unfold on_complete_uninstall, mbind.
      assert (Forall (fun _ : pystr => True) (x :: xs)) as Hall
          by (apply Forall_forall; auto).
      destruct (loop_agrees uninstall_one (fun _ => True)
                  (fun i s0 H0 _ => uninstall_one_agrees i s0 H0) (x :: xs)
                  (mkscreen (script_dir s) (option_list s)
                     (lit "[cyan]Uninstalling "
                      ++ str_of_nat (List.length (x :: xs))
                      ++ lit " option(s)...[/cyan]") (store s))
                  Hs Hall) as [L1 L2].
      destruct (for_each (x :: xs) uninstall_one _) as [o s1].
      cbn [outcome state_after fst snd] in *. subst o.
      split; [reflexivity | exact L2].
Qed.

(** ** From the start through any keys *)

Lemma startup_agrees sd f :
  duplicate_free_store f = true ->
  exists s0, new_screen sd f = (Ok s0, f) /\ agrees s0.
Proof.
  intros Hd.
  destruct (get_installed_well_formed f (duplicate_free_well_formed f Hd))
    as [set Hset].
  exists (mkscreen sd (compose set) ready_text f).
  split; [unfold new_screen, mbind; now rewrite Hset|].
  destruct (kept_by_compose set) as [K1 K2].
  split; [exact Hd|]. split; [exact K1|]. split; [exact K2|].
  intros o Ho. cbn [option_list store]. unfold flagged_installed.
  rewrite (composed_item set o Ho). unfold is_installed_in. rewrite Hset.
  reflexivity.
Qed.

Lemma session_agrees ps :
  forall s,
    agrees s ->
    outcome (for_each ps react s) = Ok tt
    /\ agrees (state_after (for_each ps react s)).
Proof.
  induction ps as [|p ps IH]; intros s Hs.
  - split; [reflexivity | exact Hs].
  - destruct (react_agrees p s Hs) as [R1 R2].
    destruct (react p s) as [o s1] eqn:E.
    cbn [outcome state_after fst snd] in *. subst o.
    rewrite (for_each_step react p ps s s1 E). now apply IH.
Qed.

Lemma dict_get_layout (m : dict OptionItem) k :
  dict_get k (layout m) = option_map item_option (dict_get k m).
Proof.
  unfold layout. induction m as [|[k0 v0] r IH]; [reflexivity|].
  cbn [List.map dict_get fst snd]. destruct (str_eqb k k0); [reflexivity|].
  exact IH.
Qed.

Lemma dict_get_item_ok (m : dict OptionItem) k it :
  forallb (fun kv => item_ok (snd kv)) m = true ->
  dict_get k m = Some it -> item_ok it = true.
Proof.
  induction m as [|[k0 v0] r IH]; [discriminate|].
  cbn [forallb dict_get snd]. intros H. apply andb_true_iff in H.
  destruct H as [H1 H2].
  destruct (str_eqb k k0); [now intros [= <-] | now apply IH].
Qed.

Lemma item_ok_text it :
  item_ok it = true ->
  _status_text it = (if is_installed it then lit "[green]OK[/green]" else []).
Proof.
  destruct it as [o b s st]. unfold item_ok, _status_text.
  cbn [status is_installed]. destruct st; try discriminate.
  - intros _. destruct b; reflexivity.
  - intros ->. reflexivity.
Qed.

Lemma agrees_items s :
  agrees s ->
  duplicate_free_store (store s) = true
  /\ forall o,
       In o OPTIONS ->
       exists it,
         dict_get (id o) (options_map (option_list s)) = Some it
         /\ item_option it = o
         /\ is_installed it = is_installed_in (store s) (id o)
         /\ _status_text it
            = (if is_installed_in (store s) (id o)
               then lit "[green]OK[/green]" else []).
Proof.
  intros [H1 [H2 [H3 H4]]]. split; [exact H1|]. intros o Ho.
  pose proof (dict_get_layout (options_map (option_list s)) (id o)) as Hg.
  rewrite H2 in Hg.
  rewrite (dict_get_map id (fun o => o) OPTIONS o OPTIONS_distinct Ho) in Hg.
  destruct (dict_get (id o) (options_map (option_list s))) as [it|] eqn:E;
    [|discriminate].
  injection Hg as Hg. exists it. split; [reflexivity|].
  split; [now symmetry|].
  specialize (H4 o Ho). unfold flagged_installed in H4. rewrite E in H4.
  split; [exact H4|]. rewrite <- H4.
  apply item_ok_text. exact (dict_get_item_ok _ _ _ H3 E).
Qed.

(** The installed flags never disagree with the file.  Start the program
    on a state file whose list names nothing twice and let the user press
    any keys in any order: toggles, select-all, deselect-all, and [i] or [u]
    each followed by whatever happens in the modal (the run may succeed,
    fail, or the modal may stay open).  No callback raises; the file keeps
    its shape; and at the end every option of the catalogue has its item,
    whose [_is_installed] flag is set exactly when the file lists its id,
    and for which [_status_text] computes OK exactly then and the empty
    text otherwise.  This is about the item's fields and the text it
    computes; the status widget takes a new text only when [watch_status]
    runs, that is when [status] changes, and is not part of the
    statement. *)
Theorem flags_agree_with_file
    (sd : pystr) (f : State.fs) (ps : list press) :
  duplicate_free_store f = true ->
  exists s0,
    new_screen sd f = (Ok s0, f)
    /\ let r := for_each ps react s0 in
       outcome r = Ok tt
       /\ duplicate_free_store (store (state_after r)) = true
       /\ forall o,
            In o OPTIONS ->
            exists it,
              dict_get (id o) (options_map (option_list (state_after r)))
              = Some it
              /\ item_option it = o
              /\ is_installed it
                 = is_installed_in (store (state_after r)) (id o)
              /\ _status_text it
                 = (if is_installed_in (store (state_after r)) (id o)
                    then lit "[green]OK[/green]" else []).
Proof.
  intros Hd. destruct (startup_agrees sd f Hd) as [s0 [Hs0 Ha]].
  exists s0. split; [exact Hs0|].
  destruct (session_agrees ps s0 Ha) as [S1 S2].
  split; [exact S1|]. exact (agrees_items _ S2).
Qed.

Lemma flags_agree_with_file_witness :
  let ps := [PressToggle (Some (lit "fish")); PressInstall (example_events 0);
             PressSelectAll; PressUninstall (example_events 1);
             PressDeselectAll; PressToggle (Some (lit "fish"));
             PressUninstall (example_events 0)] in
  exists s0,
    new_screen (lit "/d") (State.mkfs None 0) = (Ok s0, State.mkfs None 0)
    /\ let r := for_each ps react s0 in
       outcome r = Ok tt
       /\ duplicate_free_store (store (state_after r)) = true
       /\ forall o,
            In o OPTIONS ->
            exists it,
              dict_get (id o) (options_map (option_list (state_after r)))
              = Some it
              /\ item_option it = o
              /\ is_installed it
                 = is_installed_in (store (state_after r)) (id o)
              /\ _status_text it
                 = (if is_installed_in (store (state_after r)) (id o)
                    then lit "[green]OK[/green]" else []).
Proof.
  exact (flags_agree_with_file (lit "/d") (State.mkfs None 0)
           [PressToggle (Some (lit "fish")); PressInstall (example_events 0);
            PressSelectAll; PressUninstall (example_events 1);
            PressDeselectAll; PressToggle (Some (lit "fish"));
            PressUninstall (example_events 0)] eq_refl).
Defined.

End SessionLaws.
